(** * pypsrp: the async and sync PSRP client facades

    A shallow embedding of [psrp/_host.py], [psrp/_async.py] and
    [psrp/_sync.py].  Python objects that are shared by reference (result
    waiters, output streams) live in explicit stores; exceptions are values
    of [result]; the calls made on the transport are recorded in a trace. *)

From Stdlib Require Import ZArith.
From stdpp Require Import base option list gmap strings relations.

#[local] Set Warnings "-register-all".
Local Open Scope string_scope.
Local Open Scope list_scope.
Local Open Scope Z_scope.

(** ** Python values, exceptions and results *)

Module Py.

(** An exception instance: [type(e).__qualname__] and [str(e)]. *)
Record exn := Exn { qualname : string; str_e : string }.

Inductive result (A : Type) :=
| Ok (a : A)
| Raise (e : exn).
Arguments Ok {A} a.
Arguments Raise {A} e.

Definition bind {A B} (r : result A) (k : A -> result B) : result B :=
  match r with
  | Ok a => k a
  | Raise e => Raise e
  end.

Definition is_ok {A} (r : result A) : bool :=
  match r with Ok _ => true | Raise _ => false end.

(** [except Cls:] matches on the class of the exception. *)
Definition isinstance_exn (e : exn) (cls : string) : bool :=
  bool_decide (qualname e = cls).

(** The objects that travel through the facades.  [VObj cls fields] is an
    instance of [cls] with the listed attributes. *)
Inductive value :=
| VNone
| VBool (b : bool)
| VInt (n : Z)
| VStr (s : string)
| VSecureString (s : string)
| VList (l : list value)
| VObj (cls : string) (fields : list (string * value)).

Fixpoint assoc {A} (k : string) (l : list (string * A)) : option A :=
  match l with
  | [] => None
  | (k', v) :: l' => if bool_decide (k = k') then Some v else assoc k l'
  end.

(** [obj.name]; a missing attribute raises [AttributeError]. *)
Definition getattr (obj : value) (name : string) : result value :=
  match obj with
  | VObj cls fields =>
      match assoc name fields with
      | Some v => Ok v
      | None => Raise (Exn "AttributeError" ("'" +:+ cls +:+ "' object has no attribute '" +:+ name +:+ "'"))
      end
  | _ => Raise (Exn "AttributeError" ("object has no attribute '" +:+ name +:+ "'"))
  end.

(** [l[0]]; an empty list raises [IndexError]. *)
Definition index0 (l : list value) : result value :=
  match l with
  | v :: _ => Ok v
  | [] => Raise (Exn "IndexError" "list index out of range")
  end.

(** [list.insert(index, value)]: a negative index counts from the end, and
    the position is clamped to the list. *)
Definition list_insert_at {A} (index : Z) (value : A) (l : list A) : list A :=
  let n := Z.of_nat (length l) in
  let i := if index <? 0 then Z.max 0 (index + n) else Z.min index n in
  take (Z.to_nat i) l ++ value :: drop (Z.to_nat i) l.

(** [list.remove(x)] on a list of object references: the first occurrence
    goes; a missing element raises [ValueError]. *)
Fixpoint list_remove (x : nat) (l : list nat) : option (list nat) :=
  match l with
  | [] => None
  | y :: l' => if bool_decide (x = y) then Some l'
               else cons y <$> list_remove x l'
  end.

(** A call of a facade on the objects [W] it works on: it changes them,
    and it returns, raises, or has not returned: the caller is suspended in
    an [await] (async) or blocked on a condition or an event (sync) and
    nothing wakes it. *)
Inductive outcome (A : Type) :=
| Returned (a : A)
| Raised (e : exn)
| Pending.
Arguments Returned {A} a.
Arguments Raised {A} e.
Arguments Pending {A}.

Definition St (W A : Type) : Type := W -> W * outcome A.

Definition St_bind {W A B} (k : A -> St W B) (m : St W A) : St W B :=
  fun w =>
    match m w with
    | (w', Returned a) => k a w'
    | (w', Raised e) => (w', Raised e)
    | (w', Pending) => (w', Pending)
    end.

Definition raise {W A} (e : exn) : St W A := fun w => (w, Raised e).
Definition gets {W A} (f : W -> A) : St W A := fun w => (w, Returned (f w)).
Definition modify {W} (f : W -> W) : St W unit := fun w => (f w, Returned ()).
Definition lift {W A} (r : result A) : St W A :=
  match r with
  | Ok a => fun w => (w, Returned a)
  | Raise e => raise e
  end.

(** [try: body except cls: handler]. *)
Definition try_except {W A} (body : St W A) (cls : string) (handler : St W A) : St W A :=
  fun w =>
    match body w with
    | (w', Raised e) => if isinstance_exn e cls then handler w' else (w', Raised e)
    | r => r
    end.

(** [try: body finally: final]: [final] runs whether [body] raised or not,
    and what [body] raised is raised again after it. *)
Definition try_finally {W} (body : St W unit) (final : St W unit) : St W unit :=
  fun w =>
    match body w with
    | (w', Returned _) => final w'
    | (w', Raised e) =>
        match final w' with
        | (w'', Returned _) => (w'', Raised e)
        | r => r
        end
    | (w', Pending) => (w', Pending)
    end.

End Py.
Export Py.

#[global] Instance St_ret {W} : MRet (St W) := fun A a w => (w, Returned a).
#[global] Instance St_mbind {W} : MBind (St W) := fun A B k m => St_bind k m.

#[export] Instance result_bind : MBind result := fun A B k r => bind r k.
#[export] Instance result_ret : MRet result := fun A a => Ok a.

(** ** The PSRP types and events of [psrpcore] that the facades handle

    [psrpcore] is an external package: its records are given here by the
    attributes the facades read and write. *)

Abbreviation UUID := Z (only parsing).

Module RunspacePoolState.
Inductive t :=
| BeforeOpen | Opening | Opened | Closed | Closing | Broken
| NegotiationSent | NegotiationSucceeded | Connecting
| Disconnected | Disconnecting.
#[global] Instance eq_dec : EqDecision t :=
  ltac:(solve_decision).
End RunspacePoolState.

Module PSInvocationState.
Inductive t :=
| NotStarted | Running | Stopping | Stopped | Completed | Failed
| Disconnected.
#[global] Instance eq_dec : EqDecision t :=
  ltac:(solve_decision).
End PSInvocationState.

Record NETException := { Message : string }.
Record ErrorCategoryInfo := { Reason : string }.
Record ErrorRecord := {
  Exception : NETException;
  FullyQualifiedErrorId : string;
  CategoryInfo : ErrorCategoryInfo;
}.

(** [str(record)] of an error record is the message of its exception. *)
Definition str_ErrorRecord (r : ErrorRecord) : string := Message (Exception r).

Module HostMethodIdentifier.
Inductive t :=
| GetName | GetVersion | GetInstanceId | GetCurrentCulture
| GetCurrentUICulture | SetShouldExit | EnterNestedPrompt
| ExitNestedPrompt | NotifyBeginApplication | NotifyEndApplication
| PushRunspace | PopRunspace | GetIsRunspacePushed | GetRunspace
| ReadLine | ReadLineAsSecureString | Write1 | Write2 | WriteLine1
| WriteLine2 | WriteLine3 | WriteErrorLine | WriteDebugLine
| WriteProgress | WriteVerboseLine | WriteWarningLine | Prompt
| PromptForCredential1 | PromptForCredential2 | PromptForChoice
| PromptForChoiceMultipleSelection
| GetForegroundColor | SetForegroundColor | GetBackgroundColor
| SetBackgroundColor | GetCursorPosition | SetCursorPosition
| GetWindowPosition | SetWindowPosition | GetCursorSize | SetCursorSize
| GetBufferSize | SetBufferSize | GetWindowSize | SetWindowSize
| GetWindowTitle | SetWindowTitle | GetMaxWindowSize
| GetMaxPhysicalWindowSize | GetKeyAvailable | ReadKey
| FlushInputBuffer | SetBufferContents1 | SetBufferContents2
| GetBufferContents | ScrollBufferContents.
#[global] Instance eq_dec : EqDecision t :=
  ltac:(solve_decision).
End HostMethodIdentifier.

(** The classes of event the waiters and handlers test with [isinstance]. *)
Inductive EventType :=
| SessionCapabilityEvent_t | RunspacePoolInitDataEvent_t
| ApplicationPrivateDataEvent_t | EncryptedSessionKeyEvent_t
| RunspacePoolStateEvent_t | PipelineStateEvent_t | PipelineOutputEvent_t
| UserEventEvent_t | RunspacePoolHostCallEvent_t | PipelineHostCallEvent_t
| DebugRecordEvent_t | ErrorRecordEvent_t | InformationRecordEvent_t
| ProgressRecordEvent_t | VerboseRecordEvent_t | WarningRecordEvent_t
| GetRunspaceAvailabilityEvent_t | SetRunspaceAvailabilityEvent_t.
#[global] Instance EventType_eq_dec : EqDecision EventType :=
  ltac:(solve_decision).

Inductive EventBody :=
| SessionCapabilityEvent
| RunspacePoolInitDataEvent
| ApplicationPrivateDataEvent (data : value)
| EncryptedSessionKeyEvent
| RunspacePoolStateEvent (state : RunspacePoolState.t) (reason : option ErrorRecord)
| PipelineStateEvent (state : PSInvocationState.t) (reason : option ErrorRecord)
| PipelineOutputEvent (data : value)
| UserEventEvent (event : value)
| RunspacePoolHostCallEvent (ci : Z) (method_identifier : HostMethodIdentifier.t)
    (method_parameters : list value)
| PipelineHostCallEvent (ci : Z) (method_identifier : HostMethodIdentifier.t)
    (method_parameters : list value)
| DebugRecordEvent (record : value)
| ErrorRecordEvent (record : ErrorRecord)
| InformationRecordEvent (record : value)
| ProgressRecordEvent (record : value)
| VerboseRecordEvent (record : value)
| WarningRecordEvent (record : value)
| GetRunspaceAvailabilityEvent (ci : Z) (count : Z)
| SetRunspaceAvailabilityEvent (ci : Z) (success : bool).

(** Every event carries the id of the pipeline it is for, or [None]. *)
Record PSRPEvent := { pipeline_id : option UUID; body : EventBody }.

Definition type_of (b : EventBody) : EventType :=
  match b with
  | SessionCapabilityEvent => SessionCapabilityEvent_t
  | RunspacePoolInitDataEvent => RunspacePoolInitDataEvent_t
  | ApplicationPrivateDataEvent _ => ApplicationPrivateDataEvent_t
  | EncryptedSessionKeyEvent => EncryptedSessionKeyEvent_t
  | RunspacePoolStateEvent _ _ => RunspacePoolStateEvent_t
  | PipelineStateEvent _ _ => PipelineStateEvent_t
  | PipelineOutputEvent _ => PipelineOutputEvent_t
  | UserEventEvent _ => UserEventEvent_t
  | RunspacePoolHostCallEvent _ _ _ => RunspacePoolHostCallEvent_t
  | PipelineHostCallEvent _ _ _ => PipelineHostCallEvent_t
  | DebugRecordEvent _ => DebugRecordEvent_t
  | ErrorRecordEvent _ => ErrorRecordEvent_t
  | InformationRecordEvent _ => InformationRecordEvent_t
  | ProgressRecordEvent _ => ProgressRecordEvent_t
  | VerboseRecordEvent _ => VerboseRecordEvent_t
  | WarningRecordEvent _ => WarningRecordEvent_t
  | GetRunspaceAvailabilityEvent _ _ => GetRunspaceAvailabilityEvent_t
  | SetRunspaceAvailabilityEvent _ _ => SetRunspaceAvailabilityEvent_t
  end.

Definition isinstance (e : PSRPEvent) (cls : EventType) : bool :=
  bool_decide (type_of (body e) = cls).

(** The [ci] attribute of the events that have one. *)
Definition event_ci (e : PSRPEvent) : option Z :=
  match body e with
  | RunspacePoolHostCallEvent ci _ _ | PipelineHostCallEvent ci _ _
  | GetRunspaceAvailabilityEvent ci _ | SetRunspaceAvailabilityEvent ci _ => Some ci
  | _ => None
  end.

(** ** The codec ([psrpcore]) as the facades see it *)

(** What the codec has queued for the peer. *)
Inductive OutboundMessage :=
| HostResponse (ci : Z) (return_value : value)
    (error_record : option ErrorRecord).

(** Does a value hold a secure string? *)
Fixpoint has_secure_string (v : value) : bool :=
  match v with
  | VSecureString _ => true
  | VList l => existsb has_secure_string l
  | VObj _ fields =>
      existsb (fun kv => match kv with (_, x) => has_secure_string x end) fields
  | _ => false
  end.

Definition MissingCipherError : exn := Exn "MissingCipherError" "".

Module ClientRunspacePool.
(** [psrpcore.ClientRunspacePool], by the attributes the facades use;
    [cipher] says whether a session key has been negotiated. *)
Record t := {
  runspace_pool_id : UUID;
  state : RunspacePoolState.t;
  min_runspaces : Z;
  max_runspaces : Z;
  cipher : bool;
  outbound : list OutboundMessage;
  host : option value;
}.

(** [ClientRunspacePool(host=.., min_runspaces=.., max_runspaces=.., ..)]:
    the attribute values are the arguments. *)
Definition new (host : option value) (min_runspaces max_runspaces : Z)
    (runspace_pool_id : UUID) : t :=
  {| runspace_pool_id := runspace_pool_id;
     state := RunspacePoolState.BeforeOpen;
     min_runspaces := min_runspaces;
     max_runspaces := max_runspaces;
     cipher := false;
     outbound := [];
     host := host |}.

Definition set_state v (p : t) : t :=
  let 'Build_t a _ c d e f g := p in Build_t a v c d e f g.
Definition set_cipher v (p : t) : t :=
  let 'Build_t a b c d _ f g := p in Build_t a b c d v f g.

(** [pool.host_response(ci, return_value=.., error_record=..)] queues one
    message. *)
Definition host_response (pool : t) (ci : Z) (return_value : value)
    (error_record : option ErrorRecord) : t :=
  let 'Build_t a b c d e f g := pool in
  Build_t a b c d e (f ++ [HostResponse ci return_value error_record]) g.

(** What the codec does to the pool when it turns a message of the peer
    into [event]: a state event sets the state, and the encrypted session
    key is the negotiated key. *)
Definition receive (pool : t) (event : PSRPEvent) : t :=
  match pipeline_id event, body event with
  | None, RunspacePoolStateEvent st _ => set_state st pool
  | _, EncryptedSessionKeyEvent => set_cipher true pool
  | _, _ => pool
  end.
End ClientRunspacePool.

(** The calls of the fluent builder, as the codec pipeline receives them. *)
Inductive BuilderCall :=
| add_argument_call (value : value)
| add_command_call (cmdlet : value) (use_local_scope : option bool)
| add_parameter_call (name : string) (value : value)
| add_parameters_call (parameters : list (string * value))
| add_script_call (script : string) (use_local_scope : option bool)
| add_statement_call.

Definition call_has_secure_string (c : BuilderCall) : bool :=
  match c with
  | add_argument_call v => has_secure_string v
  | add_command_call v _ => has_secure_string v
  | add_parameter_call _ v => has_secure_string v
  | add_parameters_call kw => existsb (fun kv => has_secure_string kv.2) kw
  | add_script_call _ _ => false
  | add_statement_call => false
  end.

(** What the facades take from [psrpcore], which is not part of this
    repository: [str(mi)] of a host method identifier; the constructors
    [ConsoleColor(value)], [Coordinates(X=.., Y=..)], [Size(Height=..,
    Width=..)] and [HostDefaultData(ForegroundColor=.., ..)], each of which
    may refuse its arguments with an exception; and the check a codec
    pipeline makes when a builder method is called on it, given the calls
    it has taken so far ([None]: the call is taken).  A refused builder
    call leaves the codec pipeline as it was. *)
Record psrpcore := {
  str_mi : HostMethodIdentifier.t -> string;
  ConsoleColor : value -> result value;
  Coordinates : value -> value -> result value;
  Size : value -> value -> result value;
  HostDefaultData : list (string * value) -> result value;
  builder_error : list BuilderCall -> BuilderCall -> option exn;
}.

Module ClientPipeline.
(** [psrpcore.ClientPowerShell] and [ClientGetCommandMetadata]. *)
Record t := {
  pipeline_id : UUID;
  state : PSInvocationState.t;
  no_input : bool;
  calls : list BuilderCall;
  host : option value;
}.

Definition new (host : option value) (pipeline_id : UUID) : t :=
  {| pipeline_id := pipeline_id; state := PSInvocationState.NotStarted;
     no_input := false; calls := []; host := host |}.

Definition set_pipeline_id v (p : t) : t :=
  let 'Build_t _ b c d e := p in Build_t v b c d e.
Definition set_state v (p : t) : t :=
  let 'Build_t a _ c d e := p in Build_t a v c d e.
Definition set_no_input v (p : t) : t :=
  let 'Build_t a b _ d e := p in Build_t a b v d e.

(** [add_argument], [add_command], [add_parameter], [add_parameters],
    [add_script] and [add_statement] of the codec pipeline: the call is
    refused with the exception of the codec, or it is taken after the
    earlier ones. *)
Definition add_call (core : psrpcore) c (p : t) : result t :=
  match builder_error core (calls p) c with
  | Some e => Raise e
  | None =>
      let 'Build_t a b c' d e := p in Ok (Build_t a b c' (d ++ [c]) e)
  end.

(** [start()] ([invoke()] in the sync facade): a secure string among the
    commands needs the session key, else [MissingCipherError]; the pipeline
    is then running. *)
Definition start (pool : ClientRunspacePool.t) (p : t) : result t :=
  if existsb call_has_secure_string (calls p) && negb (ClientRunspacePool.cipher pool)
  then Raise MissingCipherError
  else Ok (set_state PSInvocationState.Running p).

(** [send(data)]: a secure string in the data needs the session key. *)
Definition send (pool : ClientRunspacePool.t) (p : t) (data : value) : result unit :=
  if has_secure_string data && negb (ClientRunspacePool.cipher pool)
  then Raise MissingCipherError
  else Ok ().

(** The state the codec gives the pipeline when it reports a state event. *)
Definition receive (p : t) (event : PSRPEvent) : t :=
  match body event with
  | PipelineStateEvent st _ => set_state st p
  | _ => p
  end.
End ClientPipeline.

(** The calls made on the connection (the transport) and on the codec. *)
Inductive ConnectionCall :=
| conn_create | conn_close (pipeline : option UUID)
| conn_connect (pipeline : option UUID) | conn_reconnect | conn_disconnect
| conn_command (pipeline : UUID) | conn_send (buffer : bool) | conn_send_all
| conn_signal (pipeline : UUID).

Inductive CodecCall :=
| codec_start (pipeline : UUID)
| codec_send (pipeline : UUID) (data : value)
| codec_send_eof (pipeline : UUID)
| codec_exchange_key.

Module Host.
Import HostMethodIdentifier.

(** A bound method of a host object, applied to its positional arguments:
    it returns a value or raises. *)
Definition method := list value -> result value.

(** Host objects, by what [getattr] finds on them: the sub-object ([ui],
    [raw_ui], either may be [None]) and the methods by name. *)
Record PSHostRawUI := { raw_ui_methods : string -> option method }.
Record PSHostUI := {
  raw_ui : option PSHostRawUI;
  ui_methods : string -> option method;
}.
Record PSHost := {
  ui : option PSHostUI;
  host_methods : string -> option method;
}.

Record MethodMetadata := {
  is_void : bool;
  invoke : option (unit -> result value);
}.

Inductive host_type := on_host | on_ui | on_raw_ui.

(** The table at the head of [get_host_method]:
    identifier -> (name, is_void, host_type). *)
Definition method_table (mi : HostMethodIdentifier.t) : string * bool * host_type :=
  match mi with
  | GetName => ("get_name", false, on_host)
  | GetVersion => ("get_version", false, on_host)
  | GetInstanceId => ("get_instance_id", false, on_host)
  | GetCurrentCulture => ("get_current_culture", false, on_host)
  | GetCurrentUICulture => ("get_current_ui_culture", false, on_host)
  | SetShouldExit => ("set_should_exit", true, on_host)
  | EnterNestedPrompt => ("enter_nested_prompt", true, on_host)
  | ExitNestedPrompt => ("exit_nested_prompt", true, on_host)
  | NotifyBeginApplication => ("notify_begin_application", true, on_host)
  | NotifyEndApplication => ("notify_end_application", true, on_host)
  | PushRunspace => ("push_runspace", true, on_host)
  | PopRunspace => ("pop_runspace", true, on_host)
  | GetIsRunspacePushed => ("get_is_runspace_pushed", false, on_host)
  | GetRunspace => ("get_runspace", false, on_host)
  | ReadLine => ("read_line", false, on_ui)
  | ReadLineAsSecureString => ("read_line_as_secure_string", false, on_ui)
  | Write1 => ("write1", true, on_ui)
  | Write2 => ("write2", true, on_ui)
  | WriteLine1 => ("write_line1", true, on_ui)
  | WriteLine2 => ("write_line2", true, on_ui)
  | WriteLine3 => ("write_line3", true, on_ui)
  | WriteErrorLine => ("write_error_line", true, on_ui)
  | WriteDebugLine => ("write_debug_line", true, on_ui)
  | WriteProgress => ("write_progress", true, on_ui)
  | WriteVerboseLine => ("write_verbose_line", true, on_ui)
  | WriteWarningLine => ("write_warning_line", true, on_ui)
  | Prompt => ("prompt", false, on_ui)
  | PromptForCredential1 => ("prompt_for_credential1", false, on_ui)
  | PromptForCredential2 => ("prompt_for_credential2", false, on_ui)
  | PromptForChoice => ("prompt_for_choice", false, on_ui)
  | PromptForChoiceMultipleSelection =>
      ("prompt_for_choice_multiple_selection", false, on_ui)
  | GetForegroundColor => ("get_foreground_color", false, on_raw_ui)
  | SetForegroundColor => ("set_foreground_color", true, on_raw_ui)
  | GetBackgroundColor => ("get_background_color", false, on_raw_ui)
  | SetBackgroundColor => ("set_background_color", true, on_raw_ui)
  | GetCursorPosition => ("get_cursor_position", false, on_raw_ui)
  | SetCursorPosition => ("set_cursor_position", true, on_raw_ui)
  | GetWindowPosition => ("get_window_position", false, on_raw_ui)
  | SetWindowPosition => ("set_window_position", true, on_raw_ui)
  | GetCursorSize => ("get_cursor_size", false, on_raw_ui)
  | SetCursorSize => ("set_cursor_size", true, on_raw_ui)
  | GetBufferSize => ("get_buffer_size", false, on_raw_ui)
  | SetBufferSize => ("set_buffer_size", true, on_raw_ui)
  | GetWindowSize => ("get_window_size", false, on_raw_ui)
  | SetWindowSize => ("set_window_size", true, on_raw_ui)
  | GetWindowTitle => ("get_window_title", false, on_raw_ui)
  | SetWindowTitle => ("set_window_title", true, on_raw_ui)
  | GetMaxWindowSize => ("get_max_window_size", false, on_raw_ui)
  | GetMaxPhysicalWindowSize => ("get_max_physical_window_size", false, on_raw_ui)
  | GetKeyAvailable => ("get_key_available", false, on_raw_ui)
  | ReadKey => ("read_key", false, on_raw_ui)
  | FlushInputBuffer => ("flush_input_buffer", true, on_raw_ui)
  | SetBufferContents1 => ("set_buffer_contents1", true, on_raw_ui)
  | SetBufferContents2 => ("set_buffer_contents2", true, on_raw_ui)
  | GetBufferContents => ("get_buffer_contents", false, on_raw_ui)
  | ScrollBufferContents => ("scroll_buffer_contents", true, on_raw_ui)
  end.

(** The walk from the host into [ui] and [raw_ui] and the final
    [getattr(host, name, None)].  [None] when a sub-object or the method is
    missing. *)
Definition resolve (host : PSHost) (name : string) (ht : host_type) : option method :=
  match ht with
  | on_host => host_methods host name
  | on_ui =>
      match ui host with
      | None => None
      | Some u => ui_methods u name
      end
  | on_raw_ui =>
      match ui host with
      | None => None
      | Some u =>
          match raw_ui u with
          | None => None
          | Some r => raw_ui_methods r name
          end
      end
  end.

(** The conversion of the wire parameters of the six setters to the public
    types; every other method takes the parameters as they came. *)
Definition adapt_parameters (core : psrpcore) (mi : HostMethodIdentifier.t)
    (method_parameters : list value) : result (list value) :=
  match mi with
  | SetForegroundColor | SetBackgroundColor =>
      p ← index0 method_parameters;
      color ← ConsoleColor core p;
      Ok [color]
  | SetCursorPosition | SetWindowPosition =>
      raw_coordinate ← index0 method_parameters;
      x ← getattr raw_coordinate "x";
      y ← getattr raw_coordinate "y";
      coordinates ← Coordinates core x y;
      Ok [coordinates]
  | SetBufferSize | SetWindowSize =>
      raw_size ← index0 method_parameters;
      height ← getattr raw_size "height";
      width ← getattr raw_size "width";
      size ← Size core height width;
      Ok [size]
  | _ => Ok method_parameters
  end.

Definition get_host_method (core : psrpcore) (host : PSHost)
    (method_identifier : HostMethodIdentifier.t)
    (method_parameters : list value) : result MethodMetadata :=
  let '(name, is_void, host_type) := method_table method_identifier in
  match resolve host name host_type with
  | None => Ok {| is_void := is_void; invoke := None |}
  | Some raw_func =>
      method_parameters ← adapt_parameters core method_identifier method_parameters;
      Ok {| is_void := is_void;
            invoke := Some (fun _ => raw_func method_parameters) |}
  end.

(** *** The host classes *)

(** The methods that the classes [PSHost], [PSHostUI] and [PSHostRawUI]
    define, in the order of the file.  An instance of a subclass has them
    all: the ones it does not override raise [NotImplementedError]. *)
Definition PSHost_methods : list string :=
  ["get_host_info"; "get_name"; "get_version"; "get_instance_id";
   "get_current_culture"; "get_current_ui_culture"; "set_should_exit";
   "enter_nested_prompt"; "exit_nested_prompt"; "notify_begin_application";
   "notify_end_application"; "push_runspace"; "pop_runspace";
   "get_is_runspace_pushed"; "get_runspace"].

Definition PSHostUI_methods : list string :=
  ["read_line"; "read_line_as_secure_string"; "write1"; "write2";
   "write_line1"; "write_line2"; "write_line3"; "write_error_line";
   "write_debug_line"; "write_progress"; "write_verbose_line";
   "write_warning_line"; "prompt"; "prompt_for_credential";
   "prompt_for_credential2"; "prompt_for_choice";
   "prompt_for_choice_multiple_selection"].

Definition PSHostRawUI_methods : list string :=
  ["get_host_default_data"; "get_foreground_color"; "set_foreground_color";
   "get_background_color"; "set_background_color"; "get_cursor_position";
   "set_cursor_position"; "get_window_position"; "set_window_position";
   "get_cursor_size"; "set_cursor_size"; "get_buffer_size"; "set_buffer_size";
   "get_window_size"; "set_window_size"; "get_window_title";
   "set_window_title"; "get_max_window_size"; "get_max_physical_window_size";
   "get_key_available"; "read_key"; "flush_input_buffer";
   "set_buffer_contents1"; "set_buffer_contents2"; "get_buffer_contents";
   "scroll_buffer_contents"].

Definition class_methods (ht : host_type) : list string :=
  match ht with
  | on_host => PSHost_methods
  | on_ui => PSHostUI_methods
  | on_raw_ui => PSHostRawUI_methods
  end.

(** [obj.name(..)] with the arguments [args], on an object of class [cls]. *)
Definition call_method (methods : string -> option method) (cls name : string)
    (args : list value) : result value :=
  match methods name with
  | Some f => f args
  | None =>
      Raise (Exn "AttributeError"
               ("'" +:+ cls +:+ "' object has no attribute '" +:+ name +:+ "'"))
  end.

(** The keyword arguments of [HostDefaultData(..)] in
    [PSHostRawUI.get_host_default_data], each with the getter that gives
    it; Python evaluates them in this order. *)
Definition host_default_data_fields : list (string * string) :=
  [("ForegroundColor", "get_foreground_color");
   ("BackgroundColor", "get_background_color");
   ("CursorPosition", "get_cursor_position");
   ("WindowPosition", "get_window_position");
   ("CursorSize", "get_cursor_size");
   ("BufferSize", "get_buffer_size");
   ("WindowSize", "get_window_size");
   ("MaxWindowSize", "get_max_window_size");
   ("MaxPhysicalWindowSize", "get_max_physical_window_size");
   ("WindowTitle", "get_window_title")].

Fixpoint call_getters (self : PSHostRawUI) (fields : list (string * string))
    : result (list (string * value)) :=
  match fields with
  | [] => Ok []
  | (field, getter) :: rest =>
      v ← call_method (raw_ui_methods self) "PSHostRawUI" getter [];
      vs ← call_getters self rest;
      Ok ((field, v) :: vs)
  end.

(** [PSHostRawUI.get_host_default_data], as the class defines it. *)
Definition get_host_default_data (core : psrpcore) (self : PSHostRawUI)
    : result value :=
  fields ← call_getters self host_default_data_fields;
  HostDefaultData core fields.

(** [PSHost.get_host_info], for a [raw_ui] that has the
    [get_host_default_data] of the class.  Host objects are true in a
    condition. *)
Definition get_host_info (core : psrpcore) (self : PSHost) : result value :=
  let ui := ui self in
  let raw_ui := match ui with Some u => raw_ui u | None => None end in
  host_default_data ←
    match raw_ui with
    | Some r => get_host_default_data core r
    | None => Ok VNone
    end;
  Ok (VObj "HostInfo"
        [("IsHostNull", VBool false);
         ("IsHostUINull", VBool (if ui is None then true else false));
         ("IsHostRawUINull", VBool (if raw_ui is None then true else false));
         ("UseRunspaceHost", VBool false);
         ("HostDefaultData", host_default_data)]).

(** [host.get_host_info() if host else None], the [host] argument of the
    codec pool and of the codec pipeline. *)
Definition host_info_of (core : psrpcore) (host : option PSHost)
    : result (option value) :=
  match host with
  | Some h => host_info ← get_host_info core h; Ok (Some host_info)
  | None => Ok None
  end.

End Host.

(** ** [psrp/_async.py] *)

Module Async.
Import Host.

(** One call of a subscribed callback: the purpose of the handler, the
    position of the callback in the handler, and the argument. *)
Inductive Invocation (T : Type) :=
| Invoked (purpose : string) (callback : nat) (event : T).
Arguments Invoked {T} purpose callback event.

(** [AsyncEventHandler]: the subscribed callbacks, by identity.  A callback
    is user code; [_wrap_invoke] logs and swallows what it raises. *)
Record AsyncEventHandler := {
  _callbacks : list nat;
  _purpose : string;
}.

Definition AsyncEventHandler_new (purpose : string) : AsyncEventHandler :=
  {| _callbacks := []; _purpose := purpose |}.

(** [__call__]: every callback is invoked once, in subscription order. *)
Definition call {T} (self : AsyncEventHandler) (event : T) : list (Invocation T) :=
  map (fun callback => Invoked (_purpose self) callback event) (_callbacks self).

(** [__iadd__]. *)
Definition subscribe (self : AsyncEventHandler) (value : nat) : AsyncEventHandler :=
  {| _callbacks := _callbacks self ++ [value]; _purpose := _purpose self |}.

(** [AsyncPSDataCollection]: a list with a completion flag and three
    subscriber events. *)
Record AsyncPSDataCollection (T : Type) := {
  items : list T;
  blocking_iterator : bool;
  completed : bool;
  on_completed : AsyncEventHandler;
  data_added : AsyncEventHandler;
  data_adding : AsyncEventHandler;
}.
Arguments items {T} _.
Arguments blocking_iterator {T} _.
Arguments completed {T} _.
Arguments on_completed {T} _.
Arguments data_added {T} _.
Arguments data_adding {T} _.

Definition AsyncPSDataCollection_new {T} (initial : list T) (blocking_iterator : bool)
    : AsyncPSDataCollection T :=
  {| items := initial;
     blocking_iterator := blocking_iterator;
     completed := false;
     on_completed := AsyncEventHandler_new "PSDataCollection on_completed";
     data_added := AsyncEventHandler_new "PSDataCollection data_added";
     data_adding := AsyncEventHandler_new "PSDataCollection data_adding" |}.

Definition with_items {T} (self : AsyncPSDataCollection T) (l : list T)
    : AsyncPSDataCollection T :=
  {| items := l;
     blocking_iterator := blocking_iterator self;
     completed := completed self;
     on_completed := on_completed self;
     data_added := data_added self;
     data_adding := data_adding self |}.

Definition closed_buffer : exn :=
  Exn "ValueError" "Objects cannot be added to a closed buffer".

(** [len(collection)]. *)
Definition len {T} (self : AsyncPSDataCollection T) : nat := length (items self).

Definition append {T} (self : AsyncPSDataCollection T) (value : T)
    : result (AsyncPSDataCollection T) :=
  if completed self then Raise closed_buffer
  else Ok (with_items self (items self ++ [value])).

Definition insert {T} (self : AsyncPSDataCollection T) (index : Z) (value : T)
    : result (AsyncPSDataCollection T) :=
  if completed self then Raise closed_buffer
  else Ok (with_items self (list_insert_at index value (items self))).

(** [complete()]: the flag is set and [on_completed(True)] fired. *)
Definition complete {T} (self : AsyncPSDataCollection T)
    : AsyncPSDataCollection T * list (Invocation bool) :=
  ({| items := items self;
      blocking_iterator := blocking_iterator self;
      completed := true;
      on_completed := on_completed self;
      data_added := data_added self;
      data_adding := data_adding self |},
   call (on_completed self) true).

(** [_append(value)], the append of the dispatcher.  The result is the
    collection afterwards, the callbacks invoked, and the exception if the
    inner [append] raised. *)
Definition _append {T} (self : AsyncPSDataCollection T) (value : T)
    : AsyncPSDataCollection T * list (Invocation T) * option exn :=
  if completed self then (self, [], None)
  else
    let adding := call (data_adding self) value in
    match append self value with
    | Raise e => (self, adding, Some e)
    | Ok self' => (self', adding ++ call (data_added self') value, None)
    end.

(** [_aiter_next] from index [idx] on: the values yielded before the
    iterator ends ([inl]) or suspends on the condition ([inr]). *)
Definition _aiter_next {T} (self : AsyncPSDataCollection T) (idx : nat)
    : list T + list T :=
  if completed self || negb (blocking_iterator self)
  then inl (drop idx (items self))
  else inr (drop idx (items self)).

(** [MessageResult]: the waiter for one out-of-band response. *)
Record MessageResult := {
  _condition : option (PSRPEvent -> bool);
  _event_type : EventType;
  _event : bool;
  _result : option PSRPEvent;
}.

Definition MessageResult_new (event_type : EventType)
    (condition : option (PSRPEvent -> bool)) : MessageResult :=
  {| _condition := condition; _event_type := event_type;
     _event := false; _result := None |}.

(** [set(value)]: the waiter afterwards and the returned flag. *)
Definition set (self : MessageResult) (value : PSRPEvent) : MessageResult * bool :=
  if isinstance value (_event_type self)
     && match _condition self with
        | None => true
        | Some condition => condition value
        end
  then ({| _condition := _condition self; _event_type := _event_type self;
           _event := true; _result := Some value |}, true)
  else (self, false).

(** [wait()]: the result once the event is set ("an event is only set when
    [_result] is added"); [None] while the caller is suspended. *)
Definition wait (self : MessageResult) : option PSRPEvent :=
  if _event self then _result self else None.

(** *** The objects of one pool and what happens to them *)

Inductive CallbackArg :=
| arg_none
| arg_event (e : PSRPEvent)
| arg_record (r : value)
| arg_error (r : ErrorRecord)
| arg_flag (b : bool).

(** What the facade does that is seen from outside, in order: calls on the
    connection and on the codec pipeline, subscriber callbacks run, and the
    [set] calls made on the waiters (by reference) with what they returned. *)
Inductive Effect :=
| Conn (c : ConnectionCall)
| Codec (c : CodecCall)
| Fired (purpose : string) (callback : nat) (arg : CallbackArg)
| SetCall (waiter : nat) (event : PSRPEvent) (returned : bool).

Definition fired {T} (f : T -> CallbackArg) (l : list (Invocation T)) : list Effect :=
  map (fun i => match i with Invoked p c e => Fired p c (f e) end) l.

Module AsyncPipeline.
Record t := {
  _pipeline : ClientPipeline.t;
  host : option PSHost;             (* getattr(self, "host", None) *)
  state_changed : AsyncEventHandler;
  stream_debug : AsyncPSDataCollection value;
  stream_error : AsyncPSDataCollection ErrorRecord;
  stream_information : AsyncPSDataCollection value;
  stream_progress : AsyncPSDataCollection value;
  stream_verbose : AsyncPSDataCollection value;
  stream_warning : AsyncPSDataCollection value;
  _stream_output : AsyncPSDataCollection value;
  _explicit_output : bool;
  _result_handler : list nat;
}.

(** [AsyncPipeline.__init__]. *)
Definition new (pipeline : ClientPipeline.t) : t :=
  {| _pipeline := pipeline;
     host := None;
     state_changed := AsyncEventHandler_new "Pipeline state_changed";
     stream_debug := AsyncPSDataCollection_new [] false;
     stream_error := AsyncPSDataCollection_new [] false;
     stream_information := AsyncPSDataCollection_new [] false;
     stream_progress := AsyncPSDataCollection_new [] false;
     stream_verbose := AsyncPSDataCollection_new [] false;
     stream_warning := AsyncPSDataCollection_new [] false;
     _stream_output := AsyncPSDataCollection_new [] false;
     _explicit_output := false;
     _result_handler := [] |}.

Definition set__pipeline v (p : t) : t :=
  let 'Build_t _ b c d e f g h i j k l := p in Build_t v b c d e f g h i j k l.
Definition set_host v (p : t) : t :=
  let 'Build_t a _ c d e f g h i j k l := p in Build_t a v c d e f g h i j k l.
Definition set_stream_debug v (p : t) : t :=
  let 'Build_t a b c _ e f g h i j k l := p in Build_t a b c v e f g h i j k l.
Definition set_stream_error v (p : t) : t :=
  let 'Build_t a b c d _ f g h i j k l := p in Build_t a b c d v f g h i j k l.
Definition set_stream_information v (p : t) : t :=
  let 'Build_t a b c d e _ g h i j k l := p in Build_t a b c d e v g h i j k l.
Definition set_stream_progress v (p : t) : t :=
  let 'Build_t a b c d e f _ h i j k l := p in Build_t a b c d e f v h i j k l.
Definition set_stream_verbose v (p : t) : t :=
  let 'Build_t a b c d e f g _ i j k l := p in Build_t a b c d e f g v i j k l.
Definition set_stream_warning v (p : t) : t :=
  let 'Build_t a b c d e f g h _ j k l := p in Build_t a b c d e f g h v j k l.
Definition set__stream_output v (p : t) : t :=
  let 'Build_t a b c d e f g h i _ k l := p in Build_t a b c d e f g h i v k l.
Definition set__explicit_output v (p : t) : t :=
  let 'Build_t a b c d e f g h i j _ l := p in Build_t a b c d e f g h i j v l.
Definition set__result_handler v (p : t) : t :=
  let 'Build_t a b c d e f g h i j k _ := p in Build_t a b c d e f g h i j k v.
End AsyncPipeline.

Module AsyncRunspacePool.
Record t := {
  host : option PSHost;
  pipeline_table : gmap Z nat;        (* pipeline id -> pipeline object *)
  state_changed : AsyncEventHandler;
  user_event : AsyncEventHandler;
  stream_debug : AsyncPSDataCollection value;
  stream_error : AsyncPSDataCollection ErrorRecord;
  stream_information : AsyncPSDataCollection value;
  stream_progress : AsyncPSDataCollection value;
  stream_verbose : AsyncPSDataCollection value;
  stream_warning : AsyncPSDataCollection value;
  _new_client : bool;
  _pool : ClientRunspacePool.t;
  _result_handler : list nat;
}.

Definition set_pipeline_table v (p : t) : t :=
  let 'Build_t a _ c d e f g h i j k l m := p in Build_t a v c d e f g h i j k l m.
Definition set_stream_debug v (p : t) : t :=
  let 'Build_t a b c d _ f g h i j k l m := p in Build_t a b c d v f g h i j k l m.
Definition set_stream_error v (p : t) : t :=
  let 'Build_t a b c d e _ g h i j k l m := p in Build_t a b c d e v g h i j k l m.
Definition set_stream_information v (p : t) : t :=
  let 'Build_t a b c d e f _ h i j k l m := p in Build_t a b c d e f v h i j k l m.
Definition set_stream_progress v (p : t) : t :=
  let 'Build_t a b c d e f g _ i j k l m := p in Build_t a b c d e f g v i j k l m.
Definition set_stream_verbose v (p : t) : t :=
  let 'Build_t a b c d e f g h _ j k l m := p in Build_t a b c d e f g h v j k l m.
Definition set_stream_warning v (p : t) : t :=
  let 'Build_t a b c d e f g h i _ k l m := p in Build_t a b c d e f g h i v k l m.
Definition set__pool v (p : t) : t :=
  let 'Build_t a b c d e f g h i j k _ m := p in Build_t a b c d e f g h i j k v m.
Definition set__result_handler v (p : t) : t :=
  let 'Build_t a b c d e f g h i j k l _ := p in Build_t a b c d e f g h i j k l v.
End AsyncRunspacePool.

(** One pool with the objects reachable from it.  Pipelines and waiters are
    Python objects held by reference from several places, so they live in
    stores; [inbox] is what the peer is going to send, in order. *)
Record World := {
  pool : AsyncRunspacePool.t;
  pipelines : gmap nat AsyncPipeline.t;
  waiters : gmap nat MessageResult;
  next_ref : nat;
  effects : list Effect;
  inbox : list PSRPEvent;
}.

Definition set_pool v (w : World) : World :=
  let 'Build_World _ b c d e f := w in Build_World v b c d e f.
Definition set_pipelines v (w : World) : World :=
  let 'Build_World a _ c d e f := w in Build_World a v c d e f.
Definition set_waiters v (w : World) : World :=
  let 'Build_World a b _ d e f := w in Build_World a b v d e f.
Definition set_next_ref v (w : World) : World :=
  let 'Build_World a b c _ e f := w in Build_World a b c v e f.
Definition set_effects v (w : World) : World :=
  let 'Build_World a b c d _ f := w in Build_World a b c d v f.
Definition set_inbox v (w : World) : World :=
  let 'Build_World a b c d e _ := w in Build_World a b c d e v.

Abbreviation M := (St World).

Definition emit (es : list Effect) : M unit :=
  modify (fun w => set_effects (effects w ++ es) w).
Definition modify_pool (f : AsyncRunspacePool.t -> AsyncRunspacePool.t) : M unit :=
  modify (fun w => set_pool (f (pool w)) w).

(** The object behind a reference.  The references the facade hands out
    are never dangling; the error case is here to make the lookup total. *)
Definition get_pipeline (self : nat) : M AsyncPipeline.t :=
  fun w =>
    match pipelines w !! self with
    | Some p => (w, Returned p)
    | None => (w, Raised (Exn "ReferenceError" "pipeline"))
    end.

Definition modify_pipeline (self : nat) (f : AsyncPipeline.t -> AsyncPipeline.t) : M unit :=
  modify (fun w => set_pipelines (alter f self (pipelines w)) w).

(** A new object in a store. *)
Definition new_pipeline (p : AsyncPipeline.t) : M nat :=
  fun w =>
    let r := next_ref w in
    (set_next_ref (S r) (set_pipelines (<[r := p]> (pipelines w)) w), Returned r).

Definition new_waiter (event_type : EventType) (condition : option (PSRPEvent -> bool))
    : M nat :=
  fun w =>
    let r := next_ref w in
    (set_next_ref (S r)
       (set_waiters (<[r := MessageResult_new event_type condition]> (waiters w)) w),
     Returned r).

(** The owner of a [_result_handler] list and of a [stream_error]: the pool
    or one of its pipelines. *)
Inductive owner := the_pool | the_pipeline (self : nat).
#[global] Instance owner_eq_dec : EqDecision owner :=
  ltac:(solve_decision).

Definition result_handler (o : owner) (w : World) : list nat :=
  match o with
  | the_pool => AsyncRunspacePool._result_handler (pool w)
  | the_pipeline self =>
      match pipelines w !! self with
      | Some p => AsyncPipeline._result_handler p
      | None => []
      end
  end.

Definition set_result_handler (o : owner) (l : list nat) (w : World) : World :=
  match o with
  | the_pool => set_pool (AsyncRunspacePool.set__result_handler l (pool w)) w
  | the_pipeline self =>
      set_pipelines (alter (AsyncPipeline.set__result_handler l) self (pipelines w)) w
  end.

Definition stream_error (o : owner) (w : World) : option (AsyncPSDataCollection ErrorRecord) :=
  match o with
  | the_pool => Some (AsyncRunspacePool.stream_error (pool w))
  | the_pipeline self => AsyncPipeline.stream_error <$> pipelines w !! self
  end.

Definition set_stream_error (o : owner) (s : AsyncPSDataCollection ErrorRecord)
    (w : World) : World :=
  match o with
  | the_pool => set_pool (AsyncRunspacePool.set_stream_error s (pool w)) w
  | the_pipeline self =>
      set_pipelines (alter (AsyncPipeline.set_stream_error s) self (pipelines w)) w
  end.

(** [self._result_handler.append(waiter)]. *)
Definition add_result_handler (o : owner) (waiter : nat) : M unit :=
  modify (fun w => set_result_handler o (result_handler o w ++ [waiter]) w).

(** *** The dispatcher *)

(** The loop at the end of both [_event_received]:
    [for handler in list(self._result_handler):
       if handler.set(event): self._result_handler.remove(handler)].
    [snapshot] is the copy that is iterated; the live list is that of the
    owner. *)
Fixpoint offer (o : owner) (snapshot : list nat) (event : PSRPEvent) : M unit :=
  match snapshot with
  | [] => mret ()
  | handler :: rest =>
      ws ← gets waiters;
      match ws !! handler with
      | None => offer o rest event
      | Some self =>
          modify (set_waiters (<[handler := (set self event).1]> ws));;
          emit [SetCall handler event (set self event).2];;
          (if (set self event).2 then
             hs ← gets (result_handler o);
             match list_remove handler hs with
             | None => raise (Exn "ValueError" "list.remove(x): x not in list")
             | Some hs' => modify (set_result_handler o hs')
             end
           else mret ());;
          offer o rest event
      end
  end.

Section host_calls.
Context (core : psrpcore).

(** The error record built in the [except Exception as e:] branch. *)
Definition host_error_record (e : exn) (mi : HostMethodIdentifier.t) : ErrorRecord :=
  let e_msg :=
    if bool_decide (str_e e = "")
    then qualname e +:+ " when running " +:+ str_mi core mi
    else str_e e in
  {| Exception := {| Message := e_msg |};
     FullyQualifiedErrorId := "RemoteHostExecutionException";
     CategoryInfo := {| Reason := "Exception" |} |}.

(** [func()] or [await func()] inside the [try].  When [func] is [None]
    the call itself raises [TypeError].  Host methods raise subclasses of
    [Exception]. *)
Definition call_func (func : option (unit -> result value)) : result value :=
  match func with
  | Some f => f ()
  | None => Raise (Exn "TypeError" "'NoneType' object is not callable")
  end.

(** [error_stream._append(record)] on the error stream of [o]. *)
Definition append_error (o : owner) (record : ErrorRecord) : M unit :=
  s ← gets (stream_error o);
  match s with
  | None => raise (Exn "ReferenceError" "pipeline")
  | Some error_stream =>
      modify (set_stream_error o (_append error_stream record).1.1);;
      emit (fired arg_error (_append error_stream record).1.2);;
      match (_append error_stream record).2 with
      | Some e => raise e
      | None => mret ()
      end
  end.

(** [AsyncRunspacePool._invoke_host_call(host, event, error_stream)] for a
    host-call event with attributes [ci], [mi], [mp]; [error_stream] is the
    error stream of [o]. *)
Definition _invoke_host_call (host : PSHost) (ci : Z) (mi : HostMethodIdentifier.t)
    (mp : list value) (o : owner) : M bool :=
  method_metadata ← lift (get_host_method core host mi mp);
  let func := invoke method_metadata in
  match call_func func with
  | Raise e =>
      let error_record := host_error_record e mi in
      if is_void method_metadata then
        append_error o error_record;;
        mret false
      else
        modify_pool (fun p => AsyncRunspacePool.set__pool
          (ClientRunspacePool.host_response (AsyncRunspacePool._pool p) ci VNone
             (Some error_record)) p);;
        mret true
  | Ok return_value =>
      if negb (is_void method_metadata) then
        modify_pool (fun p => AsyncRunspacePool.set__pool
          (ClientRunspacePool.host_response (AsyncRunspacePool._pool p) ci return_value
             None) p);;
        mret true
      else mret false
  end.

(** [stream._append(record)] for the stream read by [get] and written by
    [put] (on the pool or on a pipeline). *)
Definition append_record {X T} (f : T -> CallbackArg) (x : X)
    (get : X -> AsyncPSDataCollection T)
    (put : AsyncPSDataCollection T -> M unit) (record : T) : M unit :=
  put (_append (get x) record).1.1;;
  emit (fired f (_append (get x) record).1.2);;
  match (_append (get x) record).2 with
  | Some e => raise e
  | None => mret ()
  end.

(** The [if]/[elif] chain of [AsyncPipeline._event_received]. *)
Definition pipeline_handle_event (self : nat) (event : PSRPEvent) : M bool :=
  p ← get_pipeline self;
  pool_host ← gets (fun w => AsyncRunspacePool.host (pool w));
  let host :=
    match AsyncPipeline.host p with
    | Some h => Some h
    | None => pool_host
    end in
  let on (f : AsyncPipeline.t -> AsyncPipeline.t) := modify_pipeline self f in
  match body event, host with
    | PipelineStateEvent _ _, _ =>
        emit (fired arg_event (call (AsyncPipeline.state_changed p) event));;
        mret false
    | PipelineHostCallEvent ci mi mp, Some h =>
        _invoke_host_call h ci mi mp (the_pipeline self)
    | PipelineOutputEvent data, _ =>
        append_record arg_record p AsyncPipeline._stream_output
          (fun s => on (AsyncPipeline.set__stream_output s)) data;;
        mret false
    | DebugRecordEvent record, _ =>
        append_record arg_record p AsyncPipeline.stream_debug
          (fun s => on (AsyncPipeline.set_stream_debug s)) record;;
        mret false
    | ErrorRecordEvent record, _ =>
        append_record arg_error p AsyncPipeline.stream_error
          (fun s => on (AsyncPipeline.set_stream_error s)) record;;
        mret false
    | InformationRecordEvent record, _ =>
        append_record arg_record p AsyncPipeline.stream_information
          (fun s => on (AsyncPipeline.set_stream_information s)) record;;
        mret false
    | ProgressRecordEvent record, _ =>
        append_record arg_record p AsyncPipeline.stream_progress
          (fun s => on (AsyncPipeline.set_stream_progress s)) record;;
        mret false
    | VerboseRecordEvent record, _ =>
        append_record arg_record p AsyncPipeline.stream_verbose
          (fun s => on (AsyncPipeline.set_stream_verbose s)) record;;
        mret false
    | WarningRecordEvent record, _ =>
        append_record arg_record p AsyncPipeline.stream_warning
          (fun s => on (AsyncPipeline.set_stream_warning s)) record;;
        mret false
    | _, _ => mret false
    end.

(** [AsyncPipeline._event_received(event)]. *)
Definition pipeline_event_received (self : nat) (event : PSRPEvent) : M bool :=
  queued_data ← pipeline_handle_event self event;
  snapshot ← gets (result_handler (the_pipeline self));
  offer (the_pipeline self) snapshot event;;
  mret queued_data.

(** The [if]/[elif] chain of [AsyncRunspacePool._event_received]. *)
Definition pool_handle_event (event : PSRPEvent) : M bool :=
  self ← gets pool;
  match body event, AsyncRunspacePool.host self with
  | RunspacePoolStateEvent _ _, _ =>
      emit (fired arg_event (call (AsyncRunspacePool.state_changed self) event));;
      mret false
  | UserEventEvent _, _ =>
      emit (fired arg_event (call (AsyncRunspacePool.user_event self) event));;
      mret false
  | RunspacePoolHostCallEvent ci mi mp, Some h =>
      _invoke_host_call h ci mi mp the_pool
  | DebugRecordEvent record, _ =>
      append_record arg_record self AsyncRunspacePool.stream_debug
        (fun s => modify_pool (AsyncRunspacePool.set_stream_debug s)) record;;
      mret false
  | ErrorRecordEvent record, _ =>
      append_record arg_error self AsyncRunspacePool.stream_error
        (fun s => modify_pool (AsyncRunspacePool.set_stream_error s)) record;;
      mret false
  | InformationRecordEvent record, _ =>
      append_record arg_record self AsyncRunspacePool.stream_information
        (fun s => modify_pool (AsyncRunspacePool.set_stream_information s)) record;;
      mret false
  | ProgressRecordEvent record, _ =>
      append_record arg_record self AsyncRunspacePool.stream_progress
        (fun s => modify_pool (AsyncRunspacePool.set_stream_progress s)) record;;
      mret false
  | VerboseRecordEvent record, _ =>
      append_record arg_record self AsyncRunspacePool.stream_verbose
        (fun s => modify_pool (AsyncRunspacePool.set_stream_verbose s)) record;;
      mret false
  | WarningRecordEvent record, _ =>
      append_record arg_record self AsyncRunspacePool.stream_warning
        (fun s => modify_pool (AsyncRunspacePool.set_stream_warning s)) record;;
      mret false
  | _, _ => mret false
  end.

(** [AsyncRunspacePool._event_received(event)]. *)
Definition _event_received (event : PSRPEvent) : M bool :=
  self ← gets pool;
  match pipeline_id event with
  | Some key =>
      match AsyncRunspacePool.pipeline_table self !! key with
      | None => raise (Exn "KeyError" "pipeline_id")
      | Some pipeline => pipeline_event_received pipeline event
      end
  | None =>
      queued_data ← pool_handle_event event;
      snapshot ← gets (result_handler the_pool);
      offer the_pool snapshot event;;
      mret queued_data
  end.

(** One message of the peer: the codec turns it into [event], updating the
    state it keeps, and the connection hands the event to the callback that
    [__init__] registered, [_event_received]. *)
Definition codec_receive (event : PSRPEvent) (w : World) : World :=
  let w := set_pool (AsyncRunspacePool.set__pool
                       (ClientRunspacePool.receive (AsyncRunspacePool._pool (pool w)) event)
                       (pool w)) w in
  match pipeline_id event ≫= (fun key => AsyncRunspacePool.pipeline_table (pool w) !! key) with
  | Some self =>
      set_pipelines
        (alter (fun p => AsyncPipeline.set__pipeline
                           (ClientPipeline.receive (AsyncPipeline._pipeline p) event) p)
               self (pipelines w)) w
  | None => w
  end.

Definition deliver (event : PSRPEvent) : M bool :=
  modify (codec_receive event);;
  _event_received event.

(** [await waiter.wait()]: the events of the peer are delivered one after
    the other until the waiter is set.  The caller stays suspended when
    nothing more arrives, or when the callback raised (what the connection
    does then is not in these files). *)
Fixpoint await_loop (waiter : nat) (events : list PSRPEvent) (w : World)
    : World * outcome PSRPEvent :=
  match waiters w !! waiter ≫= wait with
  | Some result => (set_inbox events w, Returned result)
  | None =>
      match events with
      | [] => (set_inbox [] w, Pending)
      | event :: rest =>
          match deliver event w with
          | (w', Returned _) => await_loop waiter rest w'
          | (w', _) => (set_inbox rest w', Pending)
          end
      end
  end.

Definition await (waiter : nat) : M PSRPEvent :=
  fun w => await_loop waiter (inbox w) w.

End host_calls.

(** *** [AsyncRunspacePool] *)

Definition config_invalid : exn :=
  Exn "ValueError"
    "min_runspaces must be greater than 0 and max_runspaces must be greater than min_runspaces.".

(** [AsyncRunspacePool.__init__]. *)
Definition AsyncRunspacePool_init (core : psrpcore) (min_runspaces max_runspaces : Z)
    (host : option PSHost) (runspace_pool_id : UUID) : result AsyncRunspacePool.t :=
  if (min_runspaces <? 1) || (max_runspaces <? min_runspaces)
  then Raise config_invalid
  else
    host_info ← host_info_of core host;
    Ok {|
    AsyncRunspacePool.host := host;
    AsyncRunspacePool.pipeline_table := ∅;
    AsyncRunspacePool.state_changed := AsyncEventHandler_new "RunspacePool state_changed";
    AsyncRunspacePool.user_event := AsyncEventHandler_new "RunspacePool user_event";
    AsyncRunspacePool.stream_debug := AsyncPSDataCollection_new [] false;
    AsyncRunspacePool.stream_error := AsyncPSDataCollection_new [] false;
    AsyncRunspacePool.stream_information := AsyncPSDataCollection_new [] false;
    AsyncRunspacePool.stream_progress := AsyncPSDataCollection_new [] false;
    AsyncRunspacePool.stream_verbose := AsyncPSDataCollection_new [] false;
    AsyncRunspacePool.stream_warning := AsyncPSDataCollection_new [] false;
    AsyncRunspacePool._new_client := false;
    AsyncRunspacePool._pool :=
      ClientRunspacePool.new host_info min_runspaces max_runspaces runspace_pool_id;
    AsyncRunspacePool._result_handler := [] |}.

(** A pool just constructed, with nothing else around it. *)
Definition world_of (p : AsyncRunspacePool.t) (inbox : list PSRPEvent) : World :=
  {| pool := p; pipelines := ∅; waiters := ∅; next_ref := 0%nat;
     effects := []; inbox := inbox |}.

(** The properties [min_runspaces] and [max_runspaces]. *)
Definition min_runspaces (self : AsyncRunspacePool.t) : Z :=
  ClientRunspacePool.min_runspaces (AsyncRunspacePool._pool self).
Definition max_runspaces (self : AsyncRunspacePool.t) : Z :=
  ClientRunspacePool.max_runspaces (AsyncRunspacePool._pool self).

Section facade.
Context (core : psrpcore).

(** [AsyncRunspacePool.exchange_key]. *)
Definition exchange_key : M unit :=
  event ← new_waiter EncryptedSessionKeyEvent_t None;
  add_result_handler the_pool event;;
  emit [Codec codec_exchange_key];;
  emit [Conn conn_send_all];;
  await core event;;
  mret ().

(** The [success] attribute of the event a waiter for
    [SetRunspaceAvailabilityEvent] hands back. *)
Definition event_success (e : PSRPEvent) : result bool :=
  match body e with
  | SetRunspaceAvailabilityEvent _ success => Ok success
  | _ => Raise (Exn "AttributeError" "success")
  end.

Definition ci_is (ci : Z) (e : PSRPEvent) : bool :=
  bool_decide (event_ci e = Some ci).

(** [AsyncRunspacePool._send_set_runspace_availability_ci(ci, action)]. *)
Definition _send_set_runspace_availability_ci (ci : option Z) : M bool :=
  match ci with
  | None => mret true
  | Some ci =>
      event ← new_waiter SetRunspaceAvailabilityEvent_t (Some (ci_is ci));
      add_result_handler the_pool event;;
      emit [Conn conn_send_all];;
      result ← await core event;
      lift (event_success result)
  end.

(** [reset_runspace_state], [set_max_runspaces] and [set_min_runspaces]:
    the codec decides whether a message is needed and which call id it
    carries; [codec_call] is that method of [ClientRunspacePool]. *)
Definition set_runspace_availability
    (codec_call : ClientRunspacePool.t -> ClientRunspacePool.t * option Z) : M bool :=
  p ← gets (fun w => AsyncRunspacePool._pool (pool w));
  modify_pool (AsyncRunspacePool.set__pool (codec_call p).1);;
  _send_set_runspace_availability_ci (codec_call p).2.

(** *** [AsyncPipeline] and [AsyncPowerShell] *)

(** [AsyncPipeline.had_errors]. *)
Definition had_errors (self : AsyncPipeline.t) : bool :=
  bool_decide (0 < len (AsyncPipeline.stream_error self))%nat.

(** [AsyncPipeline.state]. *)
Definition state (self : AsyncPipeline.t) : PSInvocationState.t :=
  ClientPipeline.state (AsyncPipeline._pipeline self).

Definition pipeline_id_of (self : AsyncPipeline.t) : UUID :=
  ClientPipeline.pipeline_id (AsyncPipeline._pipeline self).

(** [AsyncPowerShell.__init__]: the codec pipeline is made first, with the
    host info of [host], and gets a fresh id. *)
Definition AsyncPowerShell_init (pipeline_id : UUID) (host : option PSHost) : M nat :=
  host_info ← lift (host_info_of core host);
  new_pipeline
    (AsyncPipeline.set_host host
       (AsyncPipeline.new (ClientPipeline.new host_info pipeline_id))).

(** [AsyncCommandMetaPipeline.__init__]: no [host] attribute. *)
Definition AsyncCommandMetaPipeline_init (pipeline_id : UUID) : M nat :=
  new_pipeline (AsyncPipeline.new (ClientPipeline.new None pipeline_id)).

(** The fluent methods of [AsyncPowerShell]: the call goes to the codec
    pipeline and [self] is returned. *)
Definition builder (self : nat) (c : BuilderCall) : M nat :=
  p ← get_pipeline self;
  pipeline ← lift (ClientPipeline.add_call core c (AsyncPipeline._pipeline p));
  modify_pipeline self (AsyncPipeline.set__pipeline pipeline);;
  mret self.

Definition add_argument (self : nat) (value : value) : M nat :=
  builder self (add_argument_call value).
Definition add_command (self : nat) (cmdlet : value) (use_local_scope : option bool) : M nat :=
  builder self (add_command_call cmdlet use_local_scope).
Definition add_parameter (self : nat) (name : string) (value : value) : M nat :=
  builder self (add_parameter_call name value).
Definition add_parameters (self : nat) (parameters : list (string * value)) : M nat :=
  builder self (add_parameters_call parameters).
Definition add_script (self : nat) (script : string) (use_local_scope : option bool) : M nat :=
  builder self (add_script_call script use_local_scope).
Definition add_statement (self : nat) : M nat :=
  builder self add_statement_call.

(** [AsyncPipeline.close]. *)
Definition close (self : nat) : M unit :=
  p ← get_pipeline self;
  table ← gets (fun w => AsyncRunspacePool.pipeline_table (pool w));
  match table !! pipeline_id_of p with
  | None => mret ()
  | Some pipeline =>
      q ← get_pipeline pipeline;
      if decide (state q = PSInvocationState.Disconnected) then mret ()
      else
        emit [Conn (conn_close (Some (pipeline_id_of p)))];;
        modify_pool (fun pl => AsyncRunspacePool.set_pipeline_table
          (delete (pipeline_id_of p) (AsyncRunspacePool.pipeline_table pl)) pl)
  end.

(** The task made from [_pipelines_task]: its waiter, the optional
    [completed] callback, and the pipeline. *)
Record Task := {
  task_self : nat;
  task_event : nat;
  task_completed : option nat;
}.

Definition not_running (e : PSRPEvent) : bool :=
  match body e with
  | PipelineStateEvent st _ => bool_decide (st ≠ PSInvocationState.Running)
  | _ => false
  end.

(** [_pipelines_task] up to [ready.set()]. *)
Definition _pipelines_task_start (self : nat) (completed : option nat) : M Task :=
  event ← new_waiter PipelineStateEvent_t (Some not_running);
  add_result_handler (the_pipeline self) event;;
  mret {| task_self := self; task_event := event; task_completed := completed |}.

(** The translation of the final state at the end of [_pipelines_task]. *)
Definition translate_state (state : PSRPEvent) (explicit_output : bool)
    (stream_output : list value) : result (list value) :=
  match body state with
  | PipelineStateEvent st reason =>
      if decide (st = PSInvocationState.Failed) then
        Raise (Exn "PipelineFailed"
                 (match reason with
                  | Some r => str_ErrorRecord r
                  | None => "Unknown failure."
                  end))
      else if decide (st = PSInvocationState.Stopped) then
        Raise (Exn "PipelineStopped"
                 (match reason with
                  | Some r => str_ErrorRecord r
                  | None => "The pipeline has been stopped."
                  end))
      else Ok (if explicit_output then [] else stream_output)
  | _ => Raise (Exn "AttributeError" "state")
  end.

(** [_pipelines_task] from [await event.wait()] on: what awaiting the task
    gives. *)
Definition _pipelines_task_finish (task : Task) : M (list value) :=
  state ← await core (task_event task);
  match task_completed task with
  | Some callback => emit [Fired "pipeline task completion" callback arg_none]
  | None => mret ()
  end;;
  close (task_self task);;
  p ← get_pipeline (task_self task);
  lift (translate_state state (AsyncPipeline._explicit_output p)
          (items (AsyncPipeline._stream_output p))).

(** [self._pipeline.start()] and [self._pipeline.send(data)]. *)
Definition pipeline_start (self : nat) : M unit :=
  p ← get_pipeline self;
  emit [Codec (codec_start (pipeline_id_of p))];;
  c ← gets (fun w => AsyncRunspacePool._pool (pool w));
  started ← lift (ClientPipeline.start c (AsyncPipeline._pipeline p));
  modify_pipeline self (AsyncPipeline.set__pipeline started).

Definition pipeline_send (self : nat) (data : value) : M unit :=
  p ← get_pipeline self;
  emit [Codec (codec_send (pipeline_id_of p) data)];;
  c ← gets (fun w => AsyncRunspacePool._pool (pool w));
  lift (ClientPipeline.send c (AsyncPipeline._pipeline p) data).

(** [try: self._pipeline.start()
     except MissingCipherError: await exchange_key(); self._pipeline.start()]. *)
Definition start_with_retry (self : nat) : M unit :=
  try_except (pipeline_start self) "MissingCipherError"
    (exchange_key;; pipeline_start self).

(** The same around [self._pipeline.send(data)]. *)
Definition send_with_retry (self : nat) (data : value) : M unit :=
  try_except (pipeline_send self data) "MissingCipherError"
    (exchange_key;; pipeline_send self data).

(** The body of the loop over the input in [invoke_async]. *)
Definition send_input (self : nat) (buffer_input : bool) (data : value) : M unit :=
  send_with_retry self data;;
  emit [Conn (if buffer_input then conn_send true else conn_send_all)].

Fixpoint send_inputs (self : nat) (buffer_input : bool) (input_data : list value) : M unit :=
  match input_data with
  | [] => mret ()
  | data :: rest =>
      send_input self buffer_input data;;
      send_inputs self buffer_input rest
  end.

(** The head of [invoke_async] and of [connect_async]: where the output
    goes.  An explicit output stream is the caller's object; the pipeline
    holds it from here on. *)
Definition set_output_stream (self : nat)
    (output_stream : option (AsyncPSDataCollection value)) : M unit :=
  match output_stream with
  | Some s =>
      modify_pipeline self (fun p =>
        AsyncPipeline.set__stream_output s (AsyncPipeline.set__explicit_output true p))
  | None =>
      modify_pipeline self (AsyncPipeline.set__stream_output (AsyncPSDataCollection_new [] false))
  end.

(** [invoke_async] from [pool = self.runspace_pool._pool] on: the start,
    the command and the input. *)
Definition start_and_send (self : nat) (input_data : option (list value))
    (buffer_input : bool) : M unit :=
  start_with_retry self;;
  p ← get_pipeline self;
  modify_pool (fun pl => AsyncRunspacePool.set_pipeline_table
    (<[pipeline_id_of p := self]> (AsyncRunspacePool.pipeline_table pl)) pl);;
  emit [Conn (conn_command (pipeline_id_of p))];;
  emit [Conn conn_send_all];;
  match input_data with
  | Some input_data =>
      send_inputs self buffer_input input_data;;
      emit [Codec (codec_send_eof (pipeline_id_of p))];;
      emit [Conn conn_send_all]
  | None => mret ()
  end.

(** [AsyncPipeline.invoke_async]. *)
Definition AsyncPipeline_invoke_async (self : nat) (input_data : option (list value))
    (output_stream : option (AsyncPSDataCollection value)) (completed : option nat)
    (buffer_input : bool) : M Task :=
  set_output_stream self output_stream;;
  task ← _pipelines_task_start self completed;
  start_and_send self input_data buffer_input;;
  mret task.

(** [AsyncPipeline.connect_async], for a pipeline taken over from a
    disconnected pool. *)
Definition connect_async (self : nat)
    (output_stream : option (AsyncPSDataCollection value)) (completed : option nat)
    : M Task :=
  set_output_stream self output_stream;;
  task ← _pipelines_task_start self completed;
  p ← get_pipeline self;
  emit [Conn (conn_connect (Some (pipeline_id_of p)))];;
  modify_pool (fun pl => AsyncRunspacePool.set_pipeline_table
    (<[pipeline_id_of p := self]> (AsyncRunspacePool.pipeline_table pl)) pl);;
  modify_pipeline self (fun p =>
    AsyncPipeline.set__pipeline
      (ClientPipeline.set_state PSInvocationState.Running (AsyncPipeline._pipeline p)) p);;
  mret task.

(** [AsyncPowerShell.invoke_async]. *)
Definition invoke_async (self : nat) (input_data : option (list value))
    (output_stream : option (AsyncPSDataCollection value)) (completed : option nat)
    (buffer_input : bool) : M Task :=
  modify_pipeline self (fun p =>
    AsyncPipeline.set__pipeline
      (ClientPipeline.set_no_input (if input_data is None then true else false)
         (AsyncPipeline._pipeline p))
      p);;
  AsyncPipeline_invoke_async self input_data output_stream completed buffer_input.

(** [invoke]: [invoke_async] and then the task is awaited. *)
Definition invoke (self : nat) (input_data : option (list value))
    (output_stream : option (AsyncPSDataCollection value)) (buffer_input : bool)
    : M (list value) :=
  output_task ← invoke_async self input_data output_stream None buffer_input;
  _pipelines_task_finish output_task.

End facade.

(** *** More of [AsyncEventHandler] *)

(** [__isub__]: [self._callbacks.remove(value)]. *)
Definition unsubscribe (self : AsyncEventHandler) (value : nat) : result AsyncEventHandler :=
  match list_remove value (_callbacks self) with
  | Some l => Ok {| _callbacks := l; _purpose := _purpose self |}
  | None => Raise (Exn "ValueError" "list.remove(x): x not in list")
  end.

(** *** More of [AsyncRunspacePool] *)

(** [AsyncRunspacePool.disconnect]: the pool is disconnected, and then
    every pipeline of the table. *)
Definition disconnect : M unit :=
  modify_pool (fun pl => AsyncRunspacePool.set__pool
    (ClientRunspacePool.set_state RunspacePoolState.Disconnecting
       (AsyncRunspacePool._pool pl)) pl);;
  emit [Conn conn_disconnect];;
  modify_pool (fun pl => AsyncRunspacePool.set__pool
    (ClientRunspacePool.set_state RunspacePoolState.Disconnected
       (AsyncRunspacePool._pool pl)) pl);;
  table ← gets (fun w => AsyncRunspacePool.pipeline_table (pool w));
  modify (fun w => set_pipelines
    (foldr (fun pipeline ps =>
              alter (fun p => AsyncPipeline.set__pipeline
                       (ClientPipeline.set_state PSInvocationState.Disconnected
                          (AsyncPipeline._pipeline p)) p)
                    pipeline ps)
           (pipelines w) (map_to_list table).*2) w).

(** The [count] attribute of the event a waiter for
    [GetRunspaceAvailabilityEvent] hands back. *)
Definition event_count (e : PSRPEvent) : result Z :=
  match body e with
  | GetRunspaceAvailabilityEvent _ count => Ok count
  | _ => Raise (Exn "AttributeError" "count")
  end.

(** [AsyncRunspacePool.get_available_runspaces]; [codec_call] is
    [ClientRunspacePool.get_available_runspaces], which returns the call
    id.  The waiter is registered before the codec is called, and its
    condition reads [ci] when an event comes, after the call. *)
Definition get_available_runspaces (core : psrpcore)
    (codec_call : ClientRunspacePool.t -> ClientRunspacePool.t * Z) : M Z :=
  p ← gets (fun w => AsyncRunspacePool._pool (pool w));
  event ← new_waiter GetRunspaceAvailabilityEvent_t (Some (ci_is (codec_call p).2));
  add_result_handler the_pool event;;
  modify_pool (AsyncRunspacePool.set__pool (codec_call p).1);;
  emit [Conn conn_send_all];;
  result ← await core event;
  lift (event_count result).

End Async.

(** ** [psrp/_sync.py] *)

Module Sync.
Import Host.

(** What a stream holds: output objects and records, and the error
    records made for failed host calls. *)
Inductive record :=
| rec_value (v : value)
| rec_error (r : ErrorRecord).

(** [PSDataStream]: a list, the queue [_added_idx] of the indexes added
    ([None] is the end marker) and the flag [_complete]. *)
Record PSDataStream := {
  items : list record;
  _added_idx : list (option nat);
  _complete : bool;
}.

Definition PSDataStream_new : PSDataStream :=
  {| items := []; _added_idx := []; _complete := false |}.

Definition append (self : PSDataStream) (value : record) : PSDataStream :=
  if negb (_complete self) then
    {| items := items self ++ [value];
       _added_idx := _added_idx self ++ [Some (length (items self ++ [value]) - 1)%nat];
       _complete := _complete self |}
  else self.

Definition finalize (self : PSDataStream) : PSDataStream :=
  if negb (_complete self) then
    {| items := items self;
       _added_idx := _added_idx self ++ [None];
       _complete := _complete self |}
  else self.

(** [wait()]: [None] while the queue is empty and the caller blocks. *)
Definition wait (self : PSDataStream) : option (PSDataStream * result (option record)) :=
  if _complete self then Some (self, Ok None)
  else
    match _added_idx self with
    | [] => None
    | None :: rest =>
        Some ({| items := items self; _added_idx := rest; _complete := true |}, Ok None)
    | Some idx :: rest =>
        let self' := {| items := items self; _added_idx := rest; _complete := false |} in
        match items self !! idx with
        | Some v => Some (self', Ok (Some v))
        | None => Some (self', Raise (Exn "IndexError" "list index out of range"))
        end
    end.

(** [list.insert], which [PSDataStream] inherits as it is. *)
Definition insert (self : PSDataStream) (index : Z) (value : record) : PSDataStream :=
  {| items := list_insert_at index value (items self);
     _added_idx := _added_idx self;
     _complete := _complete self |}.

Inductive PSRPMessageType :=
| mt_SessionCapability | mt_RunspacePoolInitData | mt_ApplicationPrivateData
| mt_EncryptedSessionKey | mt_RunspacePoolState | mt_PipelineState
| mt_PipelineOutput | mt_UserEvent | mt_RunspacePoolHostCall
| mt_PipelineHostCall | mt_DebugRecord | mt_ErrorRecord
| mt_InformationRecord | mt_ProgressRecord | mt_VerboseRecord
| mt_WarningRecord | mt_RunspaceAvailability.
#[global] Instance PSRPMessageType_eq_dec : EqDecision PSRPMessageType :=
  ltac:(solve_decision).

(** [event.message_type]: the two availability events come from the same
    message. *)
Definition message_type (e : PSRPEvent) : PSRPMessageType :=
  match body e with
  | SessionCapabilityEvent => mt_SessionCapability
  | RunspacePoolInitDataEvent => mt_RunspacePoolInitData
  | ApplicationPrivateDataEvent _ => mt_ApplicationPrivateData
  | EncryptedSessionKeyEvent => mt_EncryptedSessionKey
  | RunspacePoolStateEvent _ _ => mt_RunspacePoolState
  | PipelineStateEvent _ _ => mt_PipelineState
  | PipelineOutputEvent _ => mt_PipelineOutput
  | UserEventEvent _ => mt_UserEvent
  | RunspacePoolHostCallEvent _ _ _ => mt_RunspacePoolHostCall
  | PipelineHostCallEvent _ _ _ => mt_PipelineHostCall
  | DebugRecordEvent _ => mt_DebugRecord
  | ErrorRecordEvent _ => mt_ErrorRecord
  | InformationRecordEvent _ => mt_InformationRecord
  | ProgressRecordEvent _ => mt_ProgressRecord
  | VerboseRecordEvent _ => mt_VerboseRecord
  | WarningRecordEvent _ => mt_WarningRecord
  | GetRunspaceAvailabilityEvent _ _ | SetRunspaceAvailabilityEvent _ _ =>
      mt_RunspaceAvailability
  end.

Module Pipeline.
Record t := {
  pipeline : ClientPipeline.t;
  host : option PSHost;                 (* getattr(self, "host", None) *)
  streams : gmap string PSDataStream;
  _output_stream : option nat;          (* a stream object, or None *)
  _completed : option nat;              (* a threading.Event, or None *)
  _completed_stop : option nat;
}.

Definition stream_names : list string :=
  ["debug"; "error"; "information"; "progress"; "verbose"; "warning"].

(** [Pipeline.__init__]. *)
Definition new (pipeline : ClientPipeline.t) : t :=
  {| pipeline := pipeline;
     host := None;
     streams := list_to_map (map (fun name => (name, PSDataStream_new)) stream_names);
     _output_stream := None;
     _completed := None;
     _completed_stop := None |}.

Definition set_pipeline v (p : t) : t :=
  let 'Build_t _ b c d e f := p in Build_t v b c d e f.
Definition set_host v (p : t) : t :=
  let 'Build_t a _ c d e f := p in Build_t a v c d e f.
Definition set_streams v (p : t) : t :=
  let 'Build_t a b _ d e f := p in Build_t a b v d e f.
Definition set__output_stream v (p : t) : t :=
  let 'Build_t a b c _ e f := p in Build_t a b c v e f.
Definition set__completed v (p : t) : t :=
  let 'Build_t a b c d _ f := p in Build_t a b c d v f.
Definition set__completed_stop v (p : t) : t :=
  let 'Build_t a b c d e _ := p in Build_t a b c d e v.
End Pipeline.

Module RunspacePool.
Record t := {
  pool : ClientRunspacePool.t;
  host : option PSHost;
  pipeline_table : gmap Z nat;          (* pipeline id -> pipeline object *)
  _new_client : bool;
  _ci_table : gmap Z PSRPEvent;
}.

Definition set_pool v (p : t) : t :=
  let 'Build_t _ b c d e := p in Build_t v b c d e.
Definition set_pipeline_table v (p : t) : t :=
  let 'Build_t a b _ d e := p in Build_t a b v d e.
Definition set__ci_table v (p : t) : t :=
  let 'Build_t a b c d _ := p in Build_t a b c d v.
End RunspacePool.

(** [RunspacePool.__init__]. *)
Definition RunspacePool_init (core : psrpcore) (min_runspaces max_runspaces : Z)
    (host : option PSHost) (runspace_pool_id : UUID) : result RunspacePool.t :=
  host_info ← host_info_of core host;
  Ok {| RunspacePool.pool :=
          ClientRunspacePool.new host_info min_runspaces max_runspaces runspace_pool_id;
        RunspacePool.host := host;
        RunspacePool.pipeline_table := ∅;
        RunspacePool._new_client := false;
        RunspacePool._ci_table := ∅ |}.

Definition min_runspaces (self : RunspacePool.t) : Z :=
  ClientRunspacePool.min_runspaces (RunspacePool.pool self).
Definition max_runspaces (self : RunspacePool.t) : Z :=
  ClientRunspacePool.max_runspaces (RunspacePool.pool self).

(** [Pipeline.state] and [Pipeline.had_errors]. *)
Definition state (self : Pipeline.t) : PSInvocationState.t :=
  ClientPipeline.state (Pipeline.pipeline self).

Definition had_errors (self : Pipeline.t) : bool :=
  bool_decide (state self = PSInvocationState.Failed).

Definition pipeline_id_of (self : Pipeline.t) : UUID :=
  ClientPipeline.pipeline_id (Pipeline.pipeline self).

Inductive Effect :=
| Conn (c : ConnectionCall)
| Codec (c : CodecCall)
| Printed (message : string).

(** One pool with the objects reachable from it: pipelines, the streams
    used as output streams, and the [threading.Event]s of the tasks. *)
Record World := {
  pool : RunspacePool.t;
  pipelines : gmap nat Pipeline.t;
  stream_store : gmap nat PSDataStream;
  event_store : gmap nat bool;
  next_ref : nat;
  effects : list Effect;
  inbox : list PSRPEvent;
}.

Definition set_pool v (w : World) : World :=
  let 'Build_World _ b c d e f g := w in Build_World v b c d e f g.
Definition set_pipelines v (w : World) : World :=
  let 'Build_World a _ c d e f g := w in Build_World a v c d e f g.
Definition set_stream_store v (w : World) : World :=
  let 'Build_World a b _ d e f g := w in Build_World a b v d e f g.
Definition set_event_store v (w : World) : World :=
  let 'Build_World a b c _ e f g := w in Build_World a b c v e f g.
Definition set_next_ref v (w : World) : World :=
  let 'Build_World a b c d _ f g := w in Build_World a b c d v f g.
Definition set_effects v (w : World) : World :=
  let 'Build_World a b c d e _ g := w in Build_World a b c d e v g.
Definition set_inbox v (w : World) : World :=
  let 'Build_World a b c d e f _ := w in Build_World a b c d e f v.

Definition world_of (p : RunspacePool.t) (inbox : list PSRPEvent) : World :=
  {| pool := p; pipelines := ∅; stream_store := ∅; event_store := ∅;
     next_ref := 0%nat; effects := []; inbox := inbox |}.

Abbreviation M := (St World).

Definition emit (es : list Effect) : M unit :=
  modify (fun w => set_effects (effects w ++ es) w).
Definition modify_pool (f : RunspacePool.t -> RunspacePool.t) : M unit :=
  modify (fun w => set_pool (f (pool w)) w).

(** The object behind a reference; the references the facade hands out are
    never dangling. *)
Definition get_pipeline (self : nat) : M Pipeline.t :=
  fun w =>
    match pipelines w !! self with
    | Some p => (w, Returned p)
    | None => (w, Raised (Exn "ReferenceError" "pipeline"))
    end.

Definition modify_pipeline (self : nat) (f : Pipeline.t -> Pipeline.t) : M unit :=
  modify (fun w => set_pipelines (alter f self (pipelines w)) w).

Definition new_pipeline (p : Pipeline.t) : M nat :=
  fun w =>
    let r := next_ref w in
    (set_next_ref (S r) (set_pipelines (<[r := p]> (pipelines w)) w), Returned r).

Definition new_stream : M nat :=
  fun w =>
    let r := next_ref w in
    (set_next_ref (S r) (set_stream_store (<[r := PSDataStream_new]> (stream_store w)) w),
     Returned r).

Definition new_event : M nat :=
  fun w =>
    let r := next_ref w in
    (set_next_ref (S r) (set_event_store (<[r := false]> (event_store w)) w), Returned r).

Definition modify_stream (r : nat) (f : PSDataStream -> PSDataStream) : M unit :=
  modify (fun w => set_stream_store (alter f r (stream_store w)) w).

(** [event.set()]. *)
Definition event_set (r : nat) : M unit :=
  modify (fun w => set_event_store (<[r := true]> (event_store w)) w).

(** *** [Pipeline] *)

(** [PipelineTask]. *)
Record PipelineTask := {
  task_completed : nat;
  task_output_stream : option nat;
}.

(** [Pipeline._new_task].  [not output_stream] holds for [None] and for a
    stream that is an empty list. *)
Definition _new_task (self : nat) (output_stream : option nat) (completed : option nat)
    (for_stop : bool) : M PipelineTask :=
  store ← gets stream_store;
  let given :=
    match output_stream with
    | Some r =>
        match store !! r with
        | Some s => if items s is [] then None else Some r
        | None => None
        end
    | None => None
    end in
  out ← match given with
        | Some r => mret (r, None)
        | None => r ← new_stream; mret (r, Some r)
        end;
  modify_pipeline self (Pipeline.set__output_stream (Some out.1));;
  completed ← match completed with
              | Some ev => mret ev
              | None => new_event
              end;
  (if for_stop
   then modify_pipeline self (Pipeline.set__completed_stop (Some completed))
   else modify_pipeline self (Pipeline.set__completed (Some completed)));;
  mret {| task_completed := completed; task_output_stream := out.2 |}.

(** [Pipeline.close]. *)
Definition close (self : nat) : M unit :=
  p ← get_pipeline self;
  table ← gets (fun w => RunspacePool.pipeline_table (pool w));
  match table !! pipeline_id_of p with
  | None => mret ()
  | Some pipeline =>
      q ← get_pipeline pipeline;
      if decide (state q = PSInvocationState.Disconnected) then mret ()
      else
        emit [Conn (conn_close (Some (pipeline_id_of p)))];;
        modify_pool (fun pl => RunspacePool.set_pipeline_table
          (delete (pipeline_id_of p) (RunspacePool.pipeline_table pl)) pl)
  end.

Definition none_has_no (name : string) : exn :=
  Exn "AttributeError" ("'NoneType' object has no attribute '" +:+ name +:+ "'").

(** [Pipeline._on_state]. *)
Definition _on_state (self : nat) (event : PSRPEvent) : M unit :=
  try_finally (close self)
    (modify_pipeline self (fun p =>
       Pipeline.set_streams (finalize <$> Pipeline.streams p) p);;
     p ← get_pipeline self;
     match Pipeline._output_stream p with
     | Some r => modify_stream r finalize
     | None => raise (none_has_no "finalize")
     end;;
     modify_pipeline self (Pipeline.set__output_stream None);;
     match Pipeline._completed p with
     | Some ev => event_set ev
     | None => raise (none_has_no "set")
     end;;
     modify_pipeline self (Pipeline.set__completed None);;
     match Pipeline._completed_stop p with
     | Some ev =>
         event_set ev;;
         modify_pipeline self (Pipeline.set__completed_stop None)
     | None => mret ()
     end).

(** [event.wait()] on a thread that is the only one to set the event:
    it returns if the event is set and blocks for good otherwise. *)
Definition event_wait_here (ev : nat) : M unit :=
  fun w =>
    match event_store w !! ev with
    | Some true => (w, Returned ())
    | _ => (w, Pending)
    end.

(** [PipelineTask.wait], with the wait on the event given by [event_wait]. *)
Definition PipelineTask_wait (event_wait : nat -> M unit) (task : PipelineTask)
    : M (option nat) :=
  event_wait (task_completed task);;
  mret (task_output_stream task).

(** [Pipeline.stop_async] and [Pipeline.stop]. *)
Definition stop_async (self : nat) (completed : option nat) : M PipelineTask :=
  task ← _new_task self None completed true;
  p ← get_pipeline self;
  emit [Conn (conn_signal (pipeline_id_of p))];;
  mret task.

Definition stop_with (event_wait : nat -> M unit) (self : nat) : M unit :=
  task ← stop_async self None;
  PipelineTask_wait event_wait task;;
  mret ().

Section host_calls.
Context (core : psrpcore).

(** The error record built in the [except Exception as e:] branch. *)
Definition host_error_record (e : exn) (mi : HostMethodIdentifier.t) : ErrorRecord :=
  let e_msg :=
    if bool_decide (str_e e = "")
    then qualname e +:+ " when running " +:+ str_mi core mi
    else str_e e in
  {| Exception := {| Message := e_msg |};
     FullyQualifiedErrorId := "RemoteHostExecutionException";
     CategoryInfo := {| Reason := "Exception" |} |}.

(** [func() if func else _not_implemented()]. *)
Definition call_func (func : option (unit -> result value)) : result value :=
  match func with
  | Some f => f ()
  | None => Raise (Exn "NotImplementedError" "")
  end.

(** [get_host_method(host, mi, mp)] where [host] may be [None]: nothing is
    found on [None]. *)
Definition get_host_method_of (host : option PSHost) (mi : HostMethodIdentifier.t)
    (mp : list value) : result MethodMetadata :=
  match host with
  | Some h => get_host_method core h mi mp
  | None => Ok {| is_void := (method_table mi).1.2; invoke := None |}
  end.

(** [Pipeline._on_host_call].  It runs on the listener thread, and so does
    the [self.stop()] of the void branch. *)
Definition _on_host_call (self : nat) (event : PSRPEvent) : M unit :=
  match body event with
  | PipelineHostCallEvent ci mi mp | RunspacePoolHostCallEvent ci mi mp =>
      p ← get_pipeline self;
      pool_host ← gets (fun w => RunspacePool.host (pool w));
      let host :=
        match Pipeline.host p with
        | Some h => Some h
        | None => pool_host
        end in
      method_metadata ← lift (get_host_method_of host mi mp);
      let func := invoke method_metadata in
      match call_func func with
      | Raise e =>
          let error_record := host_error_record e mi in
          if is_void method_metadata then
            match Pipeline.streams p !! "error" with
            | Some s =>
                modify_pipeline self (fun p =>
                  Pipeline.set_streams
                    (<["error" := append s (rec_error error_record)]> (Pipeline.streams p)) p)
            | None => raise (Exn "KeyError" "error")
            end;;
            stop_with event_wait_here self
          else
            modify_pool (fun pl => RunspacePool.set_pool
              (ClientRunspacePool.host_response (RunspacePool.pool pl) ci VNone
                 (Some error_record)) pl);;
            emit [Conn conn_send_all]
      | Ok return_value =>
          if negb (is_void method_metadata) then
            modify_pool (fun pl => RunspacePool.set_pool
              (ClientRunspacePool.host_response (RunspacePool.pool pl) ci return_value
                 None) pl);;
            emit [Conn conn_send_all]
          else mret ()
      end
  | _ => raise (Exn "AttributeError" "ps_object")
  end.

(** What is registered for a message type. *)
Inductive registration :=
| reg_condition
| reg_on_state (self : nat)
| reg_on_host_call (self : nat)
| reg_output (self : nat)
| reg_record (self : nat).

(** [Pipeline._registrations], as [__init__] fills it. *)
Definition pipeline_registrations (self : nat) (mt : PSRPMessageType) : list registration :=
  match mt with
  | mt_PipelineState => [reg_on_state self]
  | mt_PipelineHostCall => [reg_on_host_call self]
  | mt_PipelineOutput => [reg_output self]
  | mt_DebugRecord | mt_ErrorRecord | mt_InformationRecord
  | mt_ProgressRecord | mt_VerboseRecord | mt_WarningRecord => [reg_record self]
  | _ => []
  end.

(** [RunspacePool._get_event_registrations].  The four classes of event
    it enters in [_ci_table] are those with a [ci]. *)
Definition _get_event_registrations (event : PSRPEvent) : M (list registration) :=
  match event_ci event with
  | Some ci =>
      modify_pool (fun pl => RunspacePool.set__ci_table
        (<[ci := event]> (RunspacePool._ci_table pl)) pl)
  | None => mret ()
  end;;
  match pipeline_id event with
  | Some key =>
      table ← gets (fun w => RunspacePool.pipeline_table (pool w));
      match table !! key with
      | Some pipeline => mret (pipeline_registrations pipeline (message_type event))
      | None => raise (Exn "KeyError" "pipeline_id")
      end
  | None => mret [reg_condition]
  end.

Definition record_of (e : PSRPEvent) : result record :=
  match body e with
  | DebugRecordEvent r | InformationRecordEvent r | ProgressRecordEvent r
  | VerboseRecordEvent r | WarningRecordEvent r => Ok (rec_value r)
  | ErrorRecordEvent r => Ok (rec_error r)
  | _ => Raise (Exn "AttributeError" "record")
  end.

(** The callbacks.  The one for the six record streams is
    [lambda e: stream.append(e.record)], made in the loop of [__init__]:
    [stream] is the variable of the loop, which holds the last stream made,
    the one of "warning", whenever a callback runs. *)
Definition run_registration (reg : registration) (event : PSRPEvent) : M unit :=
  match reg with
  | reg_condition => mret ()
  | reg_on_state self => _on_state self event
  | reg_on_host_call self => _on_host_call self event
  | reg_output self =>
      p ← get_pipeline self;
      match Pipeline._output_stream p, body event with
      | Some r, PipelineOutputEvent data => modify_stream r (fun s => append s (rec_value data))
      | None, _ => raise (none_has_no "append")
      | _, _ => raise (Exn "AttributeError" "data")
      end
  | reg_record self =>
      r ← lift (record_of event);
      modify_pipeline self (fun p =>
        Pipeline.set_streams (alter (fun s => append s r) "warning" (Pipeline.streams p)) p)
  end.

(** [try: reg(event) except Exception as e: print(..)]. *)
Definition run_guarded (reg : registration) (event : PSRPEvent) : M unit :=
  fun w =>
    match run_registration reg event w with
    | (w', Raised e) =>
        (set_effects (effects w' ++ [Printed ("Error running registered callback: " +:+ str_e e)]) w',
         Returned ())
    | r => r
    end.

Fixpoint run_registrations (regs : list registration) (event : PSRPEvent) : M unit :=
  match regs with
  | [] => mret ()
  | reg :: rest => run_guarded reg event;; run_registrations rest event
  end.

(** What the codec does to its state when it hands out [event]. *)
Definition codec_receive (event : PSRPEvent) (w : World) : World :=
  let w := set_pool (RunspacePool.set_pool
                       (ClientRunspacePool.receive (RunspacePool.pool (pool w)) event)
                       (pool w)) w in
  match pipeline_id event ≫= (fun key => RunspacePool.pipeline_table (pool w) !! key) with
  | Some self =>
      set_pipelines
        (alter (fun p => Pipeline.set_pipeline
                           (ClientPipeline.receive (Pipeline.pipeline p) event) p)
               self (pipelines w)) w
  | None => w
  end.

(** One turn of the loop of [_response_listener], for the event that
    [wait_event] returned. *)
Definition listener_step (event : PSRPEvent) : M unit :=
  modify (codec_receive event);;
  registrations ← _get_event_registrations event;
  run_registrations registrations event.

(** Does the listener notify the condition of the pool for [mt]? *)
Definition notifies (mt : PSRPMessageType) (event : PSRPEvent) : bool :=
  match pipeline_id event with
  | None => bool_decide (message_type event = mt)
  | Some _ => false
  end.

(** A caller waits on the condition of [mt] while the listener works
    through the events of the peer.  [check] says whether the caller is
    awake to test [predicate]: at first, and after each notification.  A
    listener that raised or blocked delivers nothing more. *)
Fixpoint wait_for_loop (mt : PSRPMessageType) (predicate : World -> bool) (check : bool)
    (events : list PSRPEvent) (w : World) : World * outcome unit :=
  if check && predicate w then (set_inbox events w, Returned ())
  else
    match events with
    | [] => (set_inbox [] w, Pending)
    | event :: rest =>
        match listener_step event w with
        | (w', Returned _) => wait_for_loop mt predicate (notifies mt event) rest w'
        | (w', _) => (set_inbox rest w', Pending)
        end
    end.

(** [RunspacePool._send_and_wait_for(message_type, predicate)]:
    [cond.wait_for(predicate)] tests the predicate first, [cond.wait()]
    returns at the first notification. *)
Definition _send_and_wait_for (mt : PSRPMessageType) (predicate : option (World -> bool))
    : M unit :=
  emit [Conn conn_send_all];;
  ((fun w =>
      match predicate with
      | Some predicate => wait_for_loop mt predicate true (inbox w) w
      | None => wait_for_loop mt (fun _ => true) false (inbox w) w
      end) : M unit).

(** [threading.Event.wait()] on the thread of the caller. *)
Definition event_is_set (ev : nat) (w : World) : bool :=
  if event_store w !! ev is Some true then true else false.

Fixpoint event_wait_loop (ev : nat) (events : list PSRPEvent) (w : World)
    : World * outcome unit :=
  if event_is_set ev w then (set_inbox events w, Returned ())
  else
    match events with
    | [] => (set_inbox [] w, Pending)
    | event :: rest =>
        match listener_step event w with
        | (w', Returned _) => event_wait_loop ev rest w'
        | (w', _) => (set_inbox rest w', Pending)
        end
    end.

Definition event_wait (ev : nat) : M unit :=
  fun w => event_wait_loop ev (inbox w) w.

(** [Pipeline.stop], called by the application. *)
Definition stop (self : nat) : M unit := stop_with event_wait self.

(** *** [RunspacePool] *)

(** [RunspacePool.exchange_key]. *)
Definition exchange_key : M unit :=
  emit [Codec codec_exchange_key];;
  _send_and_wait_for mt_EncryptedSessionKey None.

Definition in_ci_table (ci : Z) (w : World) : bool :=
  bool_decide (is_Some (RunspacePool._ci_table (pool w) !! ci)).

Definition event_success (e : PSRPEvent) : result bool :=
  match body e with
  | SetRunspaceAvailabilityEvent _ success => Ok success
  | _ => Raise (Exn "AttributeError" "success")
  end.

(** [RunspacePool._validate_runspace_availability]. *)
Definition _validate_runspace_availability (ci : option Z) : M bool :=
  match ci with
  | None => mret true
  | Some ci =>
      _send_and_wait_for mt_RunspaceAvailability (Some (in_ci_table ci));;
      table ← gets (fun w => RunspacePool._ci_table (pool w));
      match table !! ci with
      | Some event =>
          modify_pool (RunspacePool.set__ci_table (delete ci table));;
          lift (event_success event)
      | None => raise (Exn "KeyError" "ci")
      end
  end.

(** [reset_runspace_state], [set_max_runspaces] and [set_min_runspaces],
    for the method [codec_call] of [ClientRunspacePool]. *)
Definition set_runspace_availability
    (codec_call : ClientRunspacePool.t -> ClientRunspacePool.t * option Z) : M bool :=
  p ← gets (fun w => RunspacePool.pool (pool w));
  modify_pool (RunspacePool.set_pool (codec_call p).1);;
  _validate_runspace_availability (codec_call p).2.

(** *** [Pipeline.invoke_async] and [PowerShell] *)

(** [self.pipeline.invoke()] and [self.pipeline.send(data)]. *)
Definition pipeline_invoke (self : nat) : M unit :=
  p ← get_pipeline self;
  emit [Codec (codec_start (pipeline_id_of p))];;
  c ← gets (fun w => RunspacePool.pool (pool w));
  started ← lift (ClientPipeline.start c (Pipeline.pipeline p));
  modify_pipeline self (Pipeline.set_pipeline started).

Definition pipeline_send (self : nat) (data : value) : M unit :=
  p ← get_pipeline self;
  emit [Codec (codec_send (pipeline_id_of p) data)];;
  c ← gets (fun w => RunspacePool.pool (pool w));
  lift (ClientPipeline.send c (Pipeline.pipeline p) data).

(** [try: self.pipeline.invoke()
     except MissingCipherError: exchange_key(); self.pipeline.invoke()]. *)
Definition start_with_retry (self : nat) : M unit :=
  try_except (pipeline_invoke self) "MissingCipherError"
    (exchange_key;; pipeline_invoke self).

(** The same around [self.pipeline.send(data)]. *)
Definition send_with_retry (self : nat) (data : value) : M unit :=
  try_except (pipeline_send self data) "MissingCipherError"
    (exchange_key;; pipeline_send self data).

(** The body of the loop over the input. *)
Definition send_input (self : nat) (buffer_input : bool) (data : value) : M unit :=
  send_with_retry self data;;
  emit [Conn (if buffer_input then conn_send true else conn_send_all)].

Fixpoint send_inputs (self : nat) (buffer_input : bool) (input_data : list value) : M unit :=
  match input_data with
  | [] => mret ()
  | data :: rest =>
      send_input self buffer_input data;;
      send_inputs self buffer_input rest
  end.

(** [invoke_async] after [_new_task]: the start, the command and the
    input. *)
Definition start_and_send (self : nat) (input_data : option (list value))
    (buffer_input : bool) : M unit :=
  start_with_retry self;;
  p ← get_pipeline self;
  modify_pool (fun pl => RunspacePool.set_pipeline_table
    (<[pipeline_id_of p := self]> (RunspacePool.pipeline_table pl)) pl);;
  emit [Conn (conn_command (pipeline_id_of p))];;
  emit [Conn conn_send_all];;
  match input_data with
  | Some input_data =>
      send_inputs self buffer_input input_data;;
      emit [Codec (codec_send_eof (pipeline_id_of p))];;
      emit [Conn conn_send_all]
  | None => mret ()
  end.

(** [Pipeline.invoke_async]. *)
Definition Pipeline_invoke_async (self : nat) (input_data : option (list value))
    (output_stream : option nat) (completed : option nat) (buffer_input : bool)
    : M PipelineTask :=
  task ← _new_task self output_stream completed false;
  start_and_send self input_data buffer_input;;
  mret task.

(** [PowerShell.invoke_async]. *)
Definition invoke_async (self : nat) (input_data : option (list value))
    (output_stream : option nat) (completed : option nat) (buffer_input : bool)
    : M PipelineTask :=
  modify_pipeline self (fun p =>
    Pipeline.set_pipeline
      (ClientPipeline.set_no_input (if input_data is None then true else false)
         (Pipeline.pipeline p))
      p);;
  Pipeline_invoke_async self input_data output_stream completed buffer_input.

(** [Pipeline.invoke]: [invoke_async(..).wait()]. *)
Definition invoke (self : nat) (input_data : option (list value))
    (output_stream : option nat) (buffer_input : bool) : M (option nat) :=
  task ← invoke_async self input_data output_stream None buffer_input;
  PipelineTask_wait event_wait task.

End host_calls.

Section builders.
Context (core : psrpcore).

(** [PowerShell.__init__]: the codec pipeline is made first, with the host
    info of [host]. *)
Definition PowerShell_init (pipeline_id : UUID) (host : option PSHost) : M nat :=
  host_info ← lift (host_info_of core host);
  new_pipeline
    (Pipeline.set_host host (Pipeline.new (ClientPipeline.new host_info pipeline_id))).

(** The methods of [PowerShell] that build the pipeline.  [None] is the
    [None] a Python function returns without a [return]. *)
Definition to_codec (self : nat) (c : BuilderCall) : M unit :=
  p ← get_pipeline self;
  pipeline ← lift (ClientPipeline.add_call core c (Pipeline.pipeline p));
  modify_pipeline self (Pipeline.set_pipeline pipeline).

Definition add_command (self : nat) (cmdlet : value) (use_local_scope : option bool)
    : M (option nat) :=
  to_codec self (add_command_call cmdlet use_local_scope);;
  mret None.

Definition add_script (self : nat) (script : string) (use_local_scope : option bool)
    : M (option nat) :=
  to_codec self (add_script_call script use_local_scope);;
  mret (Some self).

Definition add_statement (self : nat) : M (option nat) :=
  to_codec self add_statement_call;;
  mret (Some self).

(** [PowerShell] defines no other builder: the attribute lookup fails. *)
Definition no_attribute (name : string) : M (option nat) :=
  raise (Exn "AttributeError" ("'PowerShell' object has no attribute '" +:+ name +:+ "'")).

Definition add_argument (self : nat) (value : value) : M (option nat) :=
  no_attribute "add_argument".
Definition add_parameter (self : nat) (name : string) (value : value) : M (option nat) :=
  no_attribute "add_parameter".
Definition add_parameters (self : nat) (parameters : list (string * value))
    : M (option nat) :=
  no_attribute "add_parameters".

End builders.

(** *** More of [PSDataStream] *)

Definition StopIteration : exn := Exn "StopIteration" "".

(** [__next__]: [val = self.wait()], then [StopIteration] if the stream is
    complete, else [val].  [None] while [wait] blocks. *)
Definition __next__ (self : PSDataStream) : option (PSDataStream * result (option record)) :=
  match wait self with
  | None => None
  | Some (self', Raise e) => Some (self', Raise e)
  | Some (self', Ok val) =>
      if _complete self' then Some (self', Raise StopIteration) else Some (self', Ok val)
  end.

(** [for val in stream] ([__iter__] returns the stream itself): the
    stream afterwards, the values the loop saw, and how it ended:
    returned at [StopIteration], raised, or blocked in [wait].  Every
    [__next__] that gives a value takes an index from the queue, so the
    loop makes at most one call more than the queue is long. *)
Fixpoint iterate (calls : nat) (self : PSDataStream)
    : PSDataStream * list (option record) * outcome unit :=
  match calls with
  | O => (self, [], Pending)
  | S calls =>
      match __next__ self with
      | None => (self, [], Pending)
      | Some (self', Raise e) =>
          if isinstance_exn e "StopIteration" then (self', [], Returned ())
          else (self', [], Raised e)
      | Some (self', Ok val) =>
          let r := iterate calls self' in (r.1.1, val :: r.1.2, r.2)
      end
  end.

Definition for_each (self : PSDataStream) : PSDataStream * list (option record) * outcome unit :=
  iterate (S (length (_added_idx self))) self.

(** *** More of [RunspacePool] *)

(** [RunspacePool.disconnect].  The loop assigns to [pipeline.state],
    which [Pipeline] defines as a property with a getter only: the first
    assignment raises [AttributeError] (its text depends on the
    interpreter). *)
Definition disconnect : M unit :=
  modify_pool (fun pl => RunspacePool.set_pool
    (ClientRunspacePool.set_state RunspacePoolState.Disconnecting (RunspacePool.pool pl)) pl);;
  emit [Conn conn_disconnect];;
  modify_pool (fun pl => RunspacePool.set_pool
    (ClientRunspacePool.set_state RunspacePoolState.Disconnected (RunspacePool.pool pl)) pl);;
  table ← gets (fun w => RunspacePool.pipeline_table (pool w));
  match map_to_list table with
  | [] => mret ()
  | _ :: _ => raise (Exn "AttributeError" "can't set attribute 'state'")
  end.

End Sync.

Import Host.

(** * Properties of the facades

    First the vocabulary of the statements and the concrete situations they
    are tried on, then the proofs. *)

(** ** What a call leaves as it is *)

(** [m] takes every state to one related to it by [R]. *)
Definition frames {W A} (R : relation W) (m : St W A) : Prop :=
  forall w w' r, m w = (w', r) -> R w w'.

(** The codec pipeline still holds the same commands under the same id. *)
Definition same_commands (c c' : ClientPipeline.t) : Prop :=
  ClientPipeline.calls c' = ClientPipeline.calls c /\
  ClientPipeline.pipeline_id c' = ClientPipeline.pipeline_id c.

Definition a_cipher (w : Async.World) : bool :=
  ClientRunspacePool.cipher (Async.AsyncRunspacePool._pool (Async.pool w)).
Definition s_cipher (w : Sync.World) : bool :=
  ClientRunspacePool.cipher (Sync.RunspacePool.pool (Sync.pool w)).

(** The calls made on the codec pipeline, in order. *)
Definition a_codec_calls (es : list Async.Effect) : list CodecCall :=
  omap (fun e => match e with Async.Codec c => Some c | _ => None end) es.
Definition s_codec_calls (es : list Sync.Effect) : list CodecCall :=
  omap (fun e => match e with Sync.Codec c => Some c | _ => None end) es.


(** The messages the codec has queued. *)
Definition a_outbound (w : Async.World) : list OutboundMessage :=
  ClientRunspacePool.outbound (Async.AsyncRunspacePool._pool (Async.pool w)).
Definition s_outbound (w : Sync.World) : list OutboundMessage :=
  ClientRunspacePool.outbound (Sync.RunspacePool.pool (Sync.pool w)).

Definition is_fired (e : Async.Effect) : Prop :=
  match e with Async.Fired _ _ _ => True | _ => False end.

(** What a pipeline object keeps through every step of the facade: its
    commands, and the mark of an explicit output stream once it is set. *)
Definition kept_pipeline (p p' : Async.AsyncPipeline.t) : Prop :=
  same_commands (Async.AsyncPipeline._pipeline p) (Async.AsyncPipeline._pipeline p') /\
  (Async.AsyncPipeline._explicit_output p = true ->
   Async.AsyncPipeline._explicit_output p' = true).

(** What it keeps while an event is handled, before the waiters see it. *)
Definition same_pipeline (p p' : Async.AsyncPipeline.t) : Prop :=
  kept_pipeline p p' /\
  Async.AsyncPipeline._result_handler p' = Async.AsyncPipeline._result_handler p.

(** The handling of an event up to the loop over the waiters: the waiters,
    the pending lists and the cipher are as before, and only subscriber
    callbacks have run. *)
Record a_quiet (w w' : Async.World) : Prop := {
  quiet_cipher : a_cipher w = true -> a_cipher w' = true;
  quiet_pool_handlers :
    Async.AsyncRunspacePool._result_handler (Async.pool w') =
    Async.AsyncRunspacePool._result_handler (Async.pool w);
  quiet_table :
    Async.AsyncRunspacePool.pipeline_table (Async.pool w') =
    Async.AsyncRunspacePool.pipeline_table (Async.pool w);
  quiet_pipelines : forall r,
    option_Forall2 same_pipeline (Async.pipelines w !! r) (Async.pipelines w' !! r);
  quiet_waiters : Async.waiters w' = Async.waiters w;
  quiet_next_ref : Async.next_ref w' = Async.next_ref w;
  quiet_effects : exists es, Async.effects w' = Async.effects w ++ es /\ Forall is_fired es;
}.

(** The delivery of the event [e], seen from the waiter [h]: a negotiated
    key stays, no call is made on the codec pipeline, the pipelines stay,
    and [h] is as before or has been offered [e]. *)
Record a_keeps (e : PSRPEvent) (h : nat) (w w' : Async.World) : Prop := {
  keeps_cipher : a_cipher w = true -> a_cipher w' = true;
  keeps_codec_calls : a_codec_calls (Async.effects w') = a_codec_calls (Async.effects w);
  keeps_table :
    Async.AsyncRunspacePool.pipeline_table (Async.pool w') =
    Async.AsyncRunspacePool.pipeline_table (Async.pool w);
  keeps_pipelines : forall r p, Async.pipelines w !! r = Some p ->
      exists p', Async.pipelines w' !! r = Some p' /\ kept_pipeline p p';
  keeps_waiter : forall m, Async.waiters w !! h = Some m ->
      Async.waiters w' !! h = Some m \/ Async.waiters w' !! h = Some (Async.set m e).1;
}.

(** What every step of [invoke] keeps. *)
Record a_pres (w w' : Async.World) : Prop := {
  pres_cipher : a_cipher w = true -> a_cipher w' = true;
  pres_pipelines : forall r p, Async.pipelines w !! r = Some p ->
      exists p', Async.pipelines w' !! r = Some p' /\ kept_pipeline p p';
}.

(** What a wait keeps, whatever is delivered meanwhile. *)
Record a_waits (w w' : Async.World) : Prop := {
  waits_pres : a_pres w w';
  waits_codec_calls : a_codec_calls (Async.effects w') = a_codec_calls (Async.effects w);
  waits_table :
    Async.AsyncRunspacePool.pipeline_table (Async.pool w') =
    Async.AsyncRunspacePool.pipeline_table (Async.pool w);
}.

(** The same for the sync facade, where the listener thread can also call
    the connection. *)
Record s_keeps (w w' : Sync.World) : Prop := {
  s_keeps_cipher : s_cipher w = true -> s_cipher w' = true;
  s_keeps_codec_calls : s_codec_calls (Sync.effects w') = s_codec_calls (Sync.effects w);
  s_keeps_pipelines : forall r p, Sync.pipelines w !! r = Some p ->
      exists p', Sync.pipelines w' !! r = Some p' /\
        same_commands (Sync.Pipeline.pipeline p) (Sync.Pipeline.pipeline p');
}.

Record s_pres (w w' : Sync.World) : Prop := {
  s_pres_cipher : s_cipher w = true -> s_cipher w' = true;
  s_pres_pipelines : forall r p, Sync.pipelines w !! r = Some p ->
      exists p', Sync.pipelines w' !! r = Some p' /\
        same_commands (Sync.Pipeline.pipeline p) (Sync.Pipeline.pipeline p');
}.

(** A waiter for the encrypted session key: once it is set, the key is
    there. *)
Definition key_waiter (h : nat) (w : Async.World) : Prop :=
  exists m, Async.waiters w !! h = Some m /\
    Async._event_type m = EncryptedSessionKeyEvent_t /\
    (Async._event m = true -> a_cipher w = true).

(** Does the codec refuse for want of a key? *)
Definition a_will_raise_start (w : Async.World) (p : Async.AsyncPipeline.t) : bool :=
  existsb call_has_secure_string (ClientPipeline.calls (Async.AsyncPipeline._pipeline p))
  && negb (a_cipher w).
Definition a_will_raise_send (w : Async.World) (data : value) : bool :=
  has_secure_string data && negb (a_cipher w).
Definition s_will_raise_start (w : Sync.World) (p : Sync.Pipeline.t) : bool :=
  existsb call_has_secure_string (ClientPipeline.calls (Sync.Pipeline.pipeline p))
  && negb (s_cipher w).
Definition s_will_raise_send (w : Sync.World) (data : value) : bool :=
  has_secure_string data && negb (s_cipher w).

(** A computation on a live pipeline [self] that keeps it and never
    raises. *)
Definition a_safe (self : nat) {A} (m : St Async.World A) : Prop :=
  forall w w' r, is_Some (Async.pipelines w !! self) -> m w = (w', r) ->
    a_pres w w' /\ forall e, r <> Raised e.

(** What a computation can raise. *)
Definition raises {W A} (P : exn -> Prop) (m : St W A) : Prop :=
  forall w w' e, m w = (w', Raised e) -> P e.


(** ** Host calls *)

(** The state after [host_response] has queued a message. *)
Definition a_respond (ci : Z) (v : value) (er : option ErrorRecord) (w : Async.World)
    : Async.World :=
  Async.set_pool (Async.AsyncRunspacePool.set__pool
     (ClientRunspacePool.host_response (Async.AsyncRunspacePool._pool (Async.pool w)) ci v er)
     (Async.pool w)) w.

(** The state after [_append] of [r] on the error stream [es] of [o]. *)
Definition a_record_error (o : Async.owner) (es : Async.AsyncPSDataCollection ErrorRecord)
    (r : ErrorRecord) (w : Async.World) : Async.World :=
  let w1 := Async.set_stream_error o (Async._append es r).1.1 w in
  Async.set_effects (Async.effects w1 ++ Async.fired Async.arg_error (Async._append es r).1.2) w1.

Definition s_respond (ci : Z) (v : value) (er : option ErrorRecord) (w : Sync.World)
    : Sync.World :=
  let w1 := Sync.set_pool (Sync.RunspacePool.set_pool
     (ClientRunspacePool.host_response (Sync.RunspacePool.pool (Sync.pool w)) ci v er)
     (Sync.pool w)) w in
  Sync.set_effects (Sync.effects w1 ++ [Sync.Conn conn_send_all]) w1.

Definition s_record_error (self : nat) (s : Sync.PSDataStream) (r : ErrorRecord)
    (w : Sync.World) : Sync.World :=
  Sync.set_pipelines
    (alter (fun p => Sync.Pipeline.set_streams
              (<["error" := Sync.append s (Sync.rec_error r)]> (Sync.Pipeline.streams p)) p)
           self (Sync.pipelines w)) w.

(** [getattr(self, "host", None) or self.runspace_pool.host]. *)
Definition s_host (p : Sync.Pipeline.t) (w : Sync.World) : option Host.PSHost :=
  match Sync.Pipeline.host p with
  | Some h => Some h
  | None => Sync.RunspacePool.host (Sync.pool w)
  end.

Definition s_streams (self : nat) (w : Sync.World) : option (gmap string Sync.PSDataStream) :=
  Sync.Pipeline.streams <$> Sync.pipelines w !! self.

(** [stop] leaves the queue of the codec and the streams alone. *)
Record s_same (self : nat) (w w' : Sync.World) : Prop := {
  same_outbound : s_outbound w' = s_outbound w;
  same_streams : s_streams self w' = s_streams self w;
}.

(** The sub-object a host method lives on is missing. *)
Definition subtree_absent (host : Host.PSHost) (mi : HostMethodIdentifier.t) : bool :=
  match (Host.method_table mi).2 with
  | Host.on_host => false
  | Host.on_ui => if Host.ui host is None then true else false
  | Host.on_raw_ui =>
      match Host.ui host with
      | None => true
      | Some u => if Host.raw_ui u is None then true else false
      end
  end.

(** ** The waiters under the dispatcher *)

(** The number of [set] calls on waiter [h] that returned true. *)
Fixpoint accepted (h : nat) (es : list Async.Effect) : nat :=
  match es with
  | [] => 0
  | Async.SetCall h' _ true :: es' => (if bool_decide (h' = h) then 1 else 0) + accepted h es'
  | _ :: es' => accepted h es'
  end.

(** Every waiter is in at most one pending list, at most once, and is an
    object that has been made. *)
Record registered_once (w : Async.World) : Prop := {
  once_nodup : forall o, NoDup (Async.result_handler o w);
  once_disjoint : forall o o' h,
    h ∈ Async.result_handler o w -> h ∈ Async.result_handler o' w -> o = o';
  once_allocated : forall o h, h ∈ Async.result_handler o w -> (h < Async.next_ref w)%nat;
  once_called : forall h e b, Async.SetCall h e b ∈ Async.effects w -> (h < Async.next_ref w)%nat;
}.

(** [waiter = MessageResult(..)] followed by
    [self._result_handler.append(waiter)], as every operation that waits
    does it. *)
Definition register (o : Async.owner) (event_type : EventType)
    (condition : option (PSRPEvent -> bool)) : Async.M nat :=
  waiter ← Async.new_waiter event_type condition;
  Async.add_result_handler o waiter;;
  mret waiter.

(** What happens to the pending lists: an event is delivered, or a waiter
    is registered. *)
Inductive dispatch_step (core : psrpcore) : relation Async.World :=
| step_deliver e w : dispatch_step core w (Async.deliver core e w).1
| step_register o event_type condition w :
    dispatch_step core w (register o event_type condition w).1.

Definition pending (h : nat) (w : Async.World) : Prop :=
  exists o, h ∈ Async.result_handler o w.

Definition at_most_once (h : nat) (w : Async.World) : Prop :=
  registered_once w /\
  (accepted h (Async.effects w) <= 1)%nat /\
  (pending h w -> accepted h (Async.effects w) = 0%nat).

(** ** The end of [invoke] *)

(** The pipeline is in the table of its pool under its id. *)
Definition tabled (self : nat) (w : Async.World) : Prop :=
  exists p, Async.pipelines w !! self = Some p /\
    Async.AsyncRunspacePool.pipeline_table (Async.pool w) !! Async.pipeline_id_of p = Some self.

(** The pipeline has been given an output stream by a caller. *)
Definition marked (self : nat) (w : Async.World) : Prop :=
  exists p, Async.pipelines w !! self = Some p /\
    Async.AsyncPipeline._explicit_output p = true.

(** What awaiting the task is said to give, by the final state. *)
Definition translated (st : PSInvocationState.t) (reason : option ErrorRecord)
    (explicit_output : bool) (output : list value) : outcome (list value) :=
  match st with
  | PSInvocationState.Failed =>
      Raised (Exn "PipelineFailed"
                (from_option str_ErrorRecord "Unknown failure." reason))
  | PSInvocationState.Stopped =>
      Raised (Exn "PipelineStopped"
                (from_option str_ErrorRecord "The pipeline has been stopped." reason))
  | _ => Returned (if explicit_output then [] else output)
  end.


(** ** What a host call leaves behind *)

(** The async facade, for the method [md] found on the host, the owner [o]
    of the error stream [es], and the state [w] before: [res] is the state
    after and what [_invoke_host_call] returned. *)
Definition a_host_call_outcome (core : psrpcore) (ci : Z)
    (mi : HostMethodIdentifier.t) (md : MethodMetadata) (o : Async.owner)
    (es : Async.AsyncPSDataCollection ErrorRecord) (w : Async.World)
    (res : Async.World * outcome bool) : Prop :=
  match Async.call_func (invoke md), is_void md with
  | Ok v, false =>
      res.2 = Returned true /\
      a_outbound res.1 = a_outbound w ++ [HostResponse ci v None] /\
      Async.stream_error o res.1 = Some es
  | Raise e, false =>
      res.2 = Returned true /\
      a_outbound res.1 =
        a_outbound w ++ [HostResponse ci VNone (Some (Async.host_error_record core e mi))] /\
      Async.stream_error o res.1 = Some es
  | Ok v, true => res = (w, Returned false)
  | Raise e, true =>
      res.2 = Returned false /\
      a_outbound res.1 = a_outbound w /\
      exists es', Async.stream_error o res.1 = Some es' /\
        Async.items es' =
          if Async.completed es then Async.items es
          else Async.items es ++ [Async.host_error_record core e mi]
  end.

(** The sync facade, for the pipeline [self] with the streams [streams] and
    the error stream [s].  Of the void call that fails only the queue of
    the codec and the streams are described. *)
Definition s_host_call_outcome (core : psrpcore) (ci : Z)
    (mi : HostMethodIdentifier.t) (md : MethodMetadata) (self : nat)
    (streams : gmap string Sync.PSDataStream) (s : Sync.PSDataStream) (w : Sync.World)
    (res : Sync.World * outcome unit) : Prop :=
  match Sync.call_func (invoke md), is_void md with
  | Ok v, false =>
      res.2 = Returned () /\
      s_outbound res.1 = s_outbound w ++ [HostResponse ci v None] /\
      s_streams self res.1 = Some streams
  | Raise e, false =>
      res.2 = Returned () /\
      s_outbound res.1 =
        s_outbound w ++ [HostResponse ci VNone (Some (Sync.host_error_record core e mi))] /\
      s_streams self res.1 = Some streams
  | Ok v, true => res = (w, Returned ())
  | Raise e, true =>
      s_outbound res.1 = s_outbound w /\
      exists s', s_streams self res.1 = Some (<["error" := s']> streams) /\
        Sync.items s' =
          if Sync._complete s then Sync.items s
          else Sync.items s ++ [Sync.rec_error (Sync.host_error_record core e mi)]
  end.

(** What [get_host_method] gives for a method that is not found. *)
Definition not_implemented (mi : HostMethodIdentifier.t) : MethodMetadata :=
  {| is_void := (method_table mi).1.2; invoke := None |}.

(** ** The situations the statements are tried on *)

(** The value of a call that succeeds. *)
Definition the_ok {A} (r : result A) : is_ok r = true -> A :=
  match r with
  | Ok a => fun _ => a
  | Raise _ => fun H => False_rect A (Bool.diff_false_true H)
  end.

(** A [psrpcore]: every identifier prints alike, the constructors take
    what they are given, and a parameter or an argument is refused on a
    pipeline that has no command yet. *)
Definition is_command (c : BuilderCall) : bool :=
  match c with
  | add_command_call _ _ | add_script_call _ _ => true
  | _ => false
  end.
Definition command_required : exn :=
  Exn "ValueError" "A command is required to add a parameter/argument.".
Definition core_any : psrpcore :=
  {| str_mi := fun _ => "HostMethodIdentifier";
     ConsoleColor := fun v => Ok (VObj "ConsoleColor" [("value", v)]);
     Coordinates := fun x y => Ok (VObj "Coordinates" [("X", x); ("Y", y)]);
     Size := fun height width =>
       Ok (VObj "Size" [("Height", height); ("Width", width)]);
     HostDefaultData := fun fields => Ok (VObj "HostDefaultData" fields);
     builder_error := fun calls c =>
       match c with
       | add_argument_call _ | add_parameter_call _ _ =>
           if existsb is_command calls then None else Some command_required
       | add_parameters_call (_ :: _) =>
           if existsb is_command calls then None else Some command_required
       | _ => None
       end |}.

Definition ev (pid : option Z) (b : EventBody) : PSRPEvent :=
  {| pipeline_id := pid; body := b |}.

(** A host whose [ui] reads a line and fails to write one, and a host
    without a [ui]. *)
Definition ui_scripted : PSHostUI :=
  {| raw_ui := None;
     ui_methods := fun name =>
       if bool_decide (name = "read_line") then Some (fun _ => Ok (VStr "typed"))
       else if bool_decide (name = "write_line2")
            then Some (fun _ => Raise (Exn "OSError" "boom"))
            else None |}.
Definition host_scripted : PSHost :=
  {| ui := Some ui_scripted; host_methods := fun _ => None |}.
Definition host_bare : PSHost :=
  {| ui := None; host_methods := fun _ => None |}.

(** A pool of one to five runspaces with id 5, and the events the peer
    will send.  The hosts used below have no [raw_ui], so that the
    constructor returns; were it to raise, the pool made without a host
    stands in. *)
Definition async_pool (host : option PSHost) : Async.AsyncRunspacePool.t :=
  match Async.AsyncRunspacePool_init core_any 1 5 host 5 with
  | Ok p => p
  | Raise _ => the_ok (Async.AsyncRunspacePool_init core_any 1 5 None 5) eq_refl
  end.
Definition sync_pool (host : option PSHost) : Sync.RunspacePool.t :=
  match Sync.RunspacePool_init core_any 1 5 host 5 with
  | Ok p => p
  | Raise _ => the_ok (Sync.RunspacePool_init core_any 1 5 None 5) eq_refl
  end.
Definition async_world (host : option PSHost) (inbox : list PSRPEvent) : Async.World :=
  Async.world_of (async_pool host) inbox.
Definition sync_world (host : option PSHost) (inbox : list PSRPEvent) : Sync.World :=
  Sync.world_of (sync_pool host) inbox.

(** A script is invoked through the sync facade and the peer reports the
    state [Failed]. *)
Definition sync_failed : Sync.World * outcome (option nat) :=
  (ps ← Sync.PowerShell_init core_any 7 None;
   Sync.add_script core_any ps "throw 'x'" None;;
   Sync.invoke core_any ps None None true)
  (sync_world None [ev (Some 7) (PipelineStateEvent PSInvocationState.Failed None)]).

(** A script is invoked through the sync facade and the peer calls the
    void host method [WriteLine2], which fails. *)
Definition sync_void_failure : Sync.World * outcome (option nat) :=
  (ps ← Sync.PowerShell_init core_any 7 None;
   Sync.add_script core_any ps "Write-Host x" None;;
   Sync.invoke core_any ps None None true)
  (sync_world (Some host_scripted)
     [ev (Some 7) (PipelineHostCallEvent (-100) HostMethodIdentifier.WriteLine2 [VStr "x"])]).

(** The [error] stream of the first pipeline made in a world. *)
Definition sync_error_items (w : Sync.World) : option (list Sync.record) :=
  p ← Sync.pipelines w !! 0%nat;
  s ← Sync.Pipeline.streams p !! "error";
  Some (Sync.items s).
Definition sync_had_errors (w : Sync.World) : option bool :=
  Sync.had_errors <$> Sync.pipelines w !! 0%nat.
Definition sync_state (w : Sync.World) : option PSInvocationState.t :=
  Sync.state <$> Sync.pipelines w !! 0%nat.

(** A sync stream that has been written, ended and read to its end. *)
Definition sync_read_stream : option Sync.PSDataStream :=
  let s := Sync.finalize (Sync.append Sync.PSDataStream_new (Sync.rec_value (VInt 1))) in
  s1 ← Sync.wait s;
  s2 ← Sync.wait s1.1;
  Some s2.1.

(** After a script that read a line from the host (host call 1) has
    completed, the number of runspaces is changed and the codec gives the
    message the call id 1. *)
Definition sync_availability : Sync.World * outcome bool :=
  (ps ← Sync.PowerShell_init core_any 7 None;
   Sync.add_script core_any ps "Read-Host" None;;
   Sync.invoke core_any ps None None true;;
   Sync.set_runspace_availability core_any (fun p => (p, Some 1)))
  (sync_world (Some host_scripted)
     [ev (Some 7) (PipelineHostCallEvent 1 HostMethodIdentifier.ReadLine []);
      ev (Some 7) (PipelineStateEvent PSInvocationState.Completed None);
      ev None (SetRunspaceAvailabilityEvent 1 true)]).

(** The same change in the async facade. *)
Definition async_availability : Async.World * outcome bool :=
  (ps ← Async.AsyncPowerShell_init core_any 7 None;
   Async.add_script core_any ps "Read-Host" None;;
   Async.invoke core_any ps None None true;;
   Async.set_runspace_availability core_any (fun p => (p, Some 1)))
  (async_world (Some host_scripted)
     [ev (Some 7) (PipelineHostCallEvent 1 HostMethodIdentifier.ReadLine []);
      ev (Some 7) (PipelineStateEvent PSInvocationState.Completed None);
      ev None (SetRunspaceAvailabilityEvent 1 true)]).

(** The builders of the sync facade on a fresh [PowerShell]. *)
Definition sync_built (build : nat -> Sync.M (option nat)) : outcome (option nat) :=
  ((ps ← Sync.PowerShell_init core_any 7 None; build ps) (sync_world None [])).2.


Definition async_void_call (host : PSHost) (w : Async.World) : Async.World * outcome bool :=
  Async._invoke_host_call core_any host (-100) HostMethodIdentifier.WriteLine2 [VStr "x"]
    Async.the_pool w.

Definition async_pool_errors (w : Async.World) : list ErrorRecord :=
  Async.items (Async.AsyncRunspacePool.stream_error (Async.pool w)).

(** A pipeline with a script (reference 0, id 7) in a pool with the given
    host, and the events the peer will send. *)
Definition sync_pipeline_world (host : option PSHost) (inbox : list PSRPEvent)
    : Sync.World :=
  ((ps ← Sync.PowerShell_init core_any 7 None; Sync.add_script core_any ps "Write-Host x" None)
     (sync_world host inbox)).1.
Definition async_pipeline_world (host : option PSHost) (inbox : list PSRPEvent)
    : Async.World :=
  ((ps ← Async.AsyncPowerShell_init core_any 7 None; Async.add_script core_any ps "Write-Host x" None)
     (async_world host inbox)).1.


Definition sync_void_call (w : Sync.World) : Sync.World * outcome unit :=
  Sync._on_host_call core_any 0
    (ev (Some 7) (PipelineHostCallEvent (-100) HostMethodIdentifier.WriteLine2 [VStr "x"])) w.

(** A waiter for the state of a pipeline is registered on the pool, and the
    peer reports the same state twice. *)
Definition state_completed : PSRPEvent :=
  ev None (PipelineStateEvent PSInvocationState.Completed None).

Definition async_twice : Async.World :=
  let w1 := (register Async.the_pool PipelineStateEvent_t None (async_world None [])).1 in
  let w2 := (Async.deliver core_any state_completed w1).1 in
  (Async.deliver core_any state_completed w2).1.

(** The peer sends one object and reports the end of pipeline 7. *)
Definition output_then (st : PSInvocationState.t) : list PSRPEvent :=
  [ev (Some 7) (PipelineOutputEvent (VInt 1)); ev (Some 7) (PipelineStateEvent st None)].

(** ** More vocabulary *)

(** The host methods whose parameters [get_host_method] converts. *)
Definition converts_parameters (mi : HostMethodIdentifier.t) : bool :=
  match mi with
  | HostMethodIdentifier.SetForegroundColor | HostMethodIdentifier.SetBackgroundColor
  | HostMethodIdentifier.SetCursorPosition | HostMethodIdentifier.SetWindowPosition
  | HostMethodIdentifier.SetBufferSize | HostMethodIdentifier.SetWindowSize => true
  | _ => false
  end.

(** The method of the host that the table names for [mi], if it is there. *)
Definition found (host : PSHost) (mi : HostMethodIdentifier.t) : option method :=
  resolve host (method_table mi).1.1 (method_table mi).2.

(** An object with no attribute beyond the methods [names] of its class. *)
Definition of_class (names : list string) (methods : string -> option method) : Prop :=
  forall name, is_Some (methods name) -> name ∈ names.

(** A getter of the raw ui returns. *)
Definition getter_returns (r : PSHostRawUI) (fg : string * string) : Prop :=
  is_ok (call_method (raw_ui_methods r) "PSHostRawUI" fg.2 []) = true.

(** A [ui] that is a [PSHostUI] with [prompt_for_credential] done and
    nothing else, and a raw ui that knows its colours and the position of
    the cursor only. *)
Definition ui_prompting : PSHostUI :=
  {| raw_ui := None;
     ui_methods := fun name =>
       if bool_decide (name = "prompt_for_credential")
       then Some (fun _ => Ok (VObj "PSCredential" []))
       else if bool_decide (name ∈ PSHostUI_methods)
            then Some (fun _ => Raise (Exn "NotImplementedError" ""))
            else None |}.

Definition raw_ui_partial : PSHostRawUI :=
  {| raw_ui_methods := fun name =>
       if bool_decide (name ∈ ["get_foreground_color"; "get_background_color"])
       then Some (fun _ => Ok (VInt 7))
       else if bool_decide (name = "set_cursor_position") then Some (fun _ => Ok VNone)
       else if bool_decide (name ∈ PSHostRawUI_methods)
            then Some (fun _ => Raise (Exn "NotImplementedError" ""))
            else None |}.

Definition host_raw : PSHost :=
  {| ui := Some {| raw_ui := Some raw_ui_partial; ui_methods := fun _ => None |};
     host_methods := fun _ => None |}.

(** A raw ui whose getters all return the number 7, and a [psrpcore]
    whose [HostDefaultData] takes objects only and whose [ConsoleColor]
    takes the sixteen colours. *)
Definition raw_ui_numbers : PSHostRawUI :=
  {| raw_ui_methods := fun name =>
       if bool_decide (name ∈ PSHostRawUI_methods)
       then Some (fun _ => Ok (VInt 7))
       else None |}.
Definition host_numbers : PSHost :=
  {| ui := Some {| raw_ui := Some raw_ui_numbers; ui_methods := fun _ => None |};
     host_methods := fun _ => None |}.
Definition is_object (v : value) : bool :=
  match v with VObj _ _ => true | _ => false end.
Definition not_an_object : exn := Exn "TypeError" "an object is required".
Definition not_a_color : exn := Exn "ValueError" "not a valid ConsoleColor".
Definition psrpcore_typed : psrpcore :=
  {| str_mi := str_mi core_any;
     ConsoleColor := fun v =>
       match v with
       | VInt n =>
           if (0 <=? n) && (n <? 16) then ConsoleColor core_any v else Raise not_a_color
       | _ => Raise not_a_color
       end;
     Coordinates := Coordinates core_any;
     Size := Size core_any;
     HostDefaultData := fun fields =>
       if forallb (fun kv => is_object kv.2) fields
       then HostDefaultData core_any fields
       else Raise not_an_object;
     builder_error := builder_error core_any |}.

(** The records [vs] go through [_append] one after the other. *)
Definition append_all {T} (c : Async.AsyncPSDataCollection T) (vs : list T)
    : Async.AsyncPSDataCollection T :=
  foldl (fun c v => (Async._append c v).1.1) c vs.

(** The events [es] are offered to a waiter one after the other. *)
Definition set_all (m : Async.MessageResult) (es : list PSRPEvent) : Async.MessageResult :=
  foldl (fun m e => (Async.set m e).1) m es.

(** Does a waiter for [event_type] and [condition] take the event? *)
Definition takes (event_type : EventType) (condition : option (PSRPEvent -> bool))
    (e : PSRPEvent) : bool :=
  isinstance e event_type
  && match condition with Some condition => condition e | None => true end.

(** The chain [ps.add_..(..).add_..(..)]: every builder is called on what
    the one before returned. *)
Fixpoint build_all (core : psrpcore) (self : nat) (cs : list BuilderCall)
    : Async.M nat :=
  match cs with
  | [] => mret self
  | c :: cs => self' ← Async.builder core self c; build_all core self' cs
  end.

(** What the codec pipeline says to the chain [cs] of builder calls made
    after [calls]: [None] when it takes them all, else the number of calls
    it took and the exception of the one it refused. *)
Fixpoint chain_refused (core : psrpcore) (calls cs : list BuilderCall)
    : option (nat * exn) :=
  match cs with
  | [] => None
  | c :: cs =>
      match builder_error core calls c with
      | Some e => Some (0%nat, e)
      | None =>
          match chain_refused core (calls ++ [c]) cs with
          | Some (n, e) => Some (S n, e)
          | None => None
          end
      end
  end.

(** Will [close] of a pipeline with the id [pid] tell the connection?  It
    does when the table has a pipeline under the id and that pipeline is
    not disconnected. *)
Definition async_closes (pid : UUID) (w : Async.World) : bool :=
  match Async.AsyncRunspacePool.pipeline_table (Async.pool w) !! pid with
  | Some r =>
      match Async.pipelines w !! r with
      | Some q => bool_decide (Async.state q <> PSInvocationState.Disconnected)
      | None => false
      end
  | None => false
  end.

(** Every pipeline of the table is there. *)
Definition table_live (w : Async.World) : Prop :=
  forall key r, Async.AsyncRunspacePool.pipeline_table (Async.pool w) !! key = Some r ->
    is_Some (Async.pipelines w !! r).

(** The events that [AsyncRunspacePool._event_received] has no branch
    for: they only go to the waiters. *)
Definition for_waiters_only (e : PSRPEvent) : bool :=
  match body e with
  | SessionCapabilityEvent | RunspacePoolInitDataEvent | ApplicationPrivateDataEvent _
  | EncryptedSessionKeyEvent | GetRunspaceAvailabilityEvent _ _
  | SetRunspaceAvailabilityEvent _ _ => true
  | _ => false
  end.

(** The waiter [h] is new: registered with the pool and not yet set. *)
Definition waits_on_pool (h : nat) (event_type : EventType)
    (condition : option (PSRPEvent -> bool)) (w : Async.World) : Prop :=
  h ∈ Async.result_handler Async.the_pool w /\
  Async.waiters w !! h = Some (Async.MessageResult_new event_type condition).

(** The loop over the waiters changes the waiters, the pending lists and
    the trace, and nothing else of the pool and its pipelines. *)
Definition only_handlers (w w' : Async.World) : Prop :=
  (exists l, Async.pool w' = Async.AsyncRunspacePool.set__result_handler l (Async.pool w)) /\
  (forall r, option_Forall2
     (fun p p' => exists l, p' = Async.AsyncPipeline.set__result_handler l p)
     (Async.pipelines w !! r) (Async.pipelines w' !! r)) /\
  Async.inbox w' = Async.inbox w.

(** The pipeline [self] runs and collects: it is in the table under
    [pid], its output goes to a stream of its own that is open and holds
    [out], the mark of an explicit output stream is [explicit], and the
    waiter [h] of its task is pending and not set. *)
Definition collecting (self : nat) (pid : UUID) (h : nat) (explicit : bool)
    (out : list value) (w : Async.World) : Prop :=
  registered_once w /\
  Async.AsyncRunspacePool.pipeline_table (Async.pool w) !! pid = Some self /\
  Async.waiters w !! h =
    Some (Async.MessageResult_new PipelineStateEvent_t (Some Async.not_running)) /\
  exists p, Async.pipelines w !! self = Some p /\
    Async.pipeline_id_of p = pid /\
    Async.AsyncPipeline._explicit_output p = explicit /\
    Async.completed (Async.AsyncPipeline._stream_output p) = false /\
    Async.items (Async.AsyncPipeline._stream_output p) = out /\
    h ∈ Async.AsyncPipeline._result_handler p.

(** The output events of the pipeline [pid] for the objects [ds]. *)
Definition output_events (pid : UUID) (ds : list value) : list PSRPEvent :=
  map (fun d => ev (Some pid) (PipelineOutputEvent d)) ds.

(** The values [vs] are appended to a sync stream one after the other. *)
Definition s_append_all (s : Sync.PSDataStream) (vs : list Sync.record) : Sync.PSDataStream :=
  foldl Sync.append s vs.

(** The sync pipeline of the scenarios after [invoke_async]: it is
    running and in the table of its pool. *)
Definition sync_running_world (inbox : list PSRPEvent) : Sync.World :=
  (Sync.invoke_async core_any 0 None None None true (sync_pipeline_world None inbox)).1.

(** The sync pipeline [self] runs and collects: it is in the table under
    [pid], the event [c] of its task is not set, and its output stream
    [r] has been appended [out] and nothing else. *)
Definition s_collecting (self : nat) (pid : UUID) (r c : nat) (out : list Sync.record)
    (w : Sync.World) : Prop :=
  Sync.RunspacePool.pipeline_table (Sync.pool w) !! pid = Some self /\
  Sync.event_store w !! c = Some false /\
  Sync.stream_store w !! r = Some (s_append_all Sync.PSDataStream_new out) /\
  exists p, Sync.pipelines w !! self = Some p /\
    Sync.pipeline_id_of p = pid /\
    Sync.Pipeline._output_stream p = Some r /\
    Sync.Pipeline._completed p = Some c.

(** The async pipeline of the scenarios after [invoke_async]. *)
Definition async_running_world (inbox : list PSRPEvent) : Async.World :=
  (Async.invoke_async core_any 0 None None None true (async_pipeline_world None inbox)).1.

(** ** The monad and a preorder on states *)

Section frames.
Context {W : Type} (R : relation W) `{!PreOrder R}.

Lemma frames_ret {A} (a : A) : frames R (mret a).
Proof. intros w w' r [= <- _]. reflexivity. Qed.

Lemma frames_raise {A} e : frames R (raise e : St W A).
Proof. intros w w' r [= <- _]. reflexivity. Qed.

Lemma frames_gets {A} (f : W -> A) : frames R (gets f).
Proof. intros w w' r [= <- _]. reflexivity. Qed.

Lemma frames_lift {A} (x : result A) : frames R (lift x : St W A).
Proof. destruct x; intros w w' r [= <- _]; reflexivity. Qed.

Lemma frames_modify (f : W -> W) : (forall w, R w (f w)) -> frames R (modify f).
Proof. intros H w w' r [= <- _]. apply H. Qed.

Lemma frames_bind {A B} (m : St W A) (k : A -> St W B) :
  frames R m -> (forall a, frames R (k a)) -> frames R (m ≫= k).
Proof.
  intros Hm Hk w w' r. unfold mbind, St_mbind, St_bind.
  destruct (m w) as [w1 [a|e|]] eqn:E; intros H.
  - transitivity w1; [eapply Hm, E | eapply Hk, H].
  - injection H as <- _. eapply Hm, E.
  - injection H as <- _. eapply Hm, E.
Qed.

Lemma frames_try_except {A} (body handler : St W A) cls :
  frames R body -> frames R handler -> frames R (try_except body cls handler).
Proof.
  intros Hb Hh w w' r. unfold try_except.
  destruct (body w) as [w1 [a|e|]] eqn:E; intros H.
  - injection H as <- _. eapply Hb, E.
  - destruct (isinstance_exn e cls).
    + transitivity w1; [eapply Hb, E | eapply Hh, H].
    + injection H as <- _. eapply Hb, E.
  - injection H as <- _. eapply Hb, E.
Qed.

End frames.

Lemma frames_weaken {W A} (R R' : relation W) (m : St W A) :
  (forall w w', R w w' -> R' w w') -> frames R m -> frames R' m.
Proof. intros HR Hm w w' r H. eapply HR, Hm, H. Qed.

Ltac fbind :=
  lazymatch goal with
  | |- frames ?R (_ ≫= _) => apply (frames_bind R)
  end.

Ltac f_leaf :=
  lazymatch goal with
  | |- frames ?R _ =>
      first [ apply (frames_ret R) | apply (frames_raise R)
            | apply (frames_gets R) | apply (frames_lift R) ]
  end.





Lemma raises_raise {W A} (P : exn -> Prop) e : P e -> raises P (raise e : St W A).
Proof. intros He w w' x [= _ <-]. exact He. Qed.


(** ** The async facade: what the handling of an event keeps *)

#[local] Instance same_commands_preorder : PreOrder same_commands.
Proof.
  split.
  - intros c. split; reflexivity.
  - intros a b c [H1 H2] [H3 H4]. split; congruence.
Qed.

#[local] Instance kept_pipeline_preorder : PreOrder kept_pipeline.
Proof.
  split.
  - intros p. split; [reflexivity | done].
  - intros a b c [A1 A2] [B1 B2]. split; [by etrans | auto].
Qed.

#[local] Instance same_pipeline_preorder : PreOrder same_pipeline.
Proof.
  split.
  - intros p. split; [reflexivity | done].
  - intros a b c [A1 A2] [B1 B2]. split; [by etrans | congruence].
Qed.

#[local] Instance a_quiet_preorder : PreOrder a_quiet.
Proof.
  split.
  - intros w. split; auto.
    + intros r. destruct (_ !! r); constructor. reflexivity.
    + exists []. by rewrite app_nil_r.
  - intros a b c [A1 A2 A3 A4 A5 A6 A8] [B1 B2 B3 B4 B5 B6 B8].
    split; try congruence; auto.
    + intros r. specialize (A4 r). specialize (B4 r).
      destruct A4; inversion B4; subst; constructor. by etrans.
    + destruct A8 as (es1 & E1 & F1), B8 as (es2 & E2 & F2).
      exists (es1 ++ es2). rewrite E2, E1, app_assoc. split; [done | by apply Forall_app].
Qed.

Lemma quiet_refl_pipelines (ps : gmap nat Async.AsyncPipeline.t) r :
  option_Forall2 same_pipeline (ps !! r) (ps !! r).
Proof. destruct (ps !! r); constructor. reflexivity. Qed.

Lemma fired_is_fired {T} (f : T -> Async.CallbackArg) l : Forall is_fired (Async.fired f l).
Proof. induction l as [|[p c ev] l IH]; simpl; constructor; [exact I | exact IH]. Qed.

Lemma quiet_emit_fired {T} (f : T -> Async.CallbackArg) l :
  frames a_quiet (Async.emit (Async.fired f l)).
Proof.
  apply (frames_modify a_quiet). intros w. destruct w; split; simpl; auto.
  - intros r. apply quiet_refl_pipelines.
  - eexists. split; [reflexivity | apply fired_is_fired].
Qed.

Lemma quiet_modify_pool f :
  (forall p, ClientRunspacePool.cipher (Async.AsyncRunspacePool._pool (f p)) =
             ClientRunspacePool.cipher (Async.AsyncRunspacePool._pool p) /\
             Async.AsyncRunspacePool._result_handler (f p) =
             Async.AsyncRunspacePool._result_handler p /\
             Async.AsyncRunspacePool.pipeline_table (f p) =
             Async.AsyncRunspacePool.pipeline_table p) ->
  frames a_quiet (Async.modify_pool f).
Proof.
  intros Hf. apply (frames_modify a_quiet). intros w. destruct w as [pl ? ? ? ? ?].
  destruct (Hf pl) as (H1 & H2 & H3). split; simpl; auto.
  - unfold a_cipher. simpl. rewrite H1. done.
  - intros r. apply quiet_refl_pipelines.
  - exists []. by rewrite app_nil_r.
Qed.

Lemma quiet_alter f self (w : Async.World) :
  (forall p, same_pipeline p (f p)) ->
  a_quiet w (Async.set_pipelines (alter f self (Async.pipelines w)) w).
Proof.
  intros Hf. destruct w as [? ps ? ? ? ?]; split; simpl; auto.
  - intros r. destruct (decide (r = self)) as [->|Hne].
    + rewrite lookup_alter_eq. destruct (ps !! self); constructor. apply Hf.
    + rewrite lookup_alter_ne by done. apply quiet_refl_pipelines.
  - exists []. by rewrite app_nil_r.
Qed.

Lemma quiet_modify_pipeline self f :
  (forall p, same_pipeline p (f p)) -> frames a_quiet (Async.modify_pipeline self f).
Proof. intros Hf. apply (frames_modify a_quiet). intros w. by apply quiet_alter. Qed.

Lemma quiet_get_pipeline self : frames a_quiet (Async.get_pipeline self).
Proof.
  intros w w' r. unfold Async.get_pipeline. destruct (_ !! _); intros [= <- _]; reflexivity.
Qed.

Ltac q_step :=
  lazymatch goal with
  | |- frames ?R _ =>
      first
        [ apply (frames_ret R)
        | apply (frames_raise R)
        | apply (frames_gets R)
        | apply (frames_lift R)
        | apply quiet_emit_fired
        | apply quiet_get_pipeline
        | apply quiet_modify_pool; intros [? ? ? ? ? ? ? ? ? ? ? [] ?]; repeat split; reflexivity
        | apply quiet_modify_pipeline; intros []; repeat split; done
        | apply (frames_bind R); [| intros ?] ]
  end.

Ltac q_auto :=
  repeat first
    [ q_step
    | match goal with
      | |- frames _ (match ?x with _ => _ end) => destruct x
      end ].

Lemma quiet_append_record {X T} (f : T -> Async.CallbackArg) (x : X) get put record :
  (forall s, frames a_quiet (put s)) ->
  frames a_quiet (Async.append_record f x get put record).
Proof.
  intros Hput. unfold Async.append_record.
  fbind; [apply Hput | intros _]. q_auto.
Qed.

Lemma quiet_set_stream_error o s : frames a_quiet (modify (Async.set_stream_error o s)).
Proof.
  destruct o as [|self]; simpl.
  - apply (quiet_modify_pool (Async.AsyncRunspacePool.set_stream_error s)).
    intros []; repeat split; reflexivity.
  - apply (quiet_modify_pipeline self (Async.AsyncPipeline.set_stream_error s)).
    intros []; repeat split; done.
Qed.

Lemma quiet_append_error o record : frames a_quiet (Async.append_error o record).
Proof.
  unfold Async.append_error.
  fbind; [q_step | intros [es|]; [|q_step]].
  fbind; [apply quiet_set_stream_error | intros _]. q_auto.
Qed.

Lemma quiet_invoke_host_call core host ci mi mp o :
  frames a_quiet (Async._invoke_host_call core host ci mi mp o).
Proof.
  unfold Async._invoke_host_call.
  fbind; [q_step | intros md].
  destruct (Async.call_func _); destruct (is_void md); simpl;
    repeat first [ apply quiet_append_error | q_step ].
Qed.

Lemma quiet_pool_handle_event core ev : frames a_quiet (Async.pool_handle_event core ev).
Proof.
  unfold Async.pool_handle_event.
  fbind; [q_step | intros self].
  destruct (body ev); destruct (Async.AsyncRunspacePool.host self);
    repeat first
      [ apply quiet_invoke_host_call
      | apply quiet_append_record; intros ?; q_step
      | q_step ].
Qed.

Lemma quiet_pipeline_handle_event core self ev :
  frames a_quiet (Async.pipeline_handle_event core self ev).
Proof.
  unfold Async.pipeline_handle_event.
  fbind; [q_step | intros p].
  fbind; [q_step | intros pool_host].
  destruct (Async.AsyncPipeline.host p); [| destruct pool_host]; destruct (body ev);
    repeat first
      [ apply quiet_invoke_host_call
      | apply quiet_append_record; intros ?; q_step
      | q_step ].
Qed.

Lemma quiet_codec_receive e w : a_quiet w (Async.codec_receive e w).
Proof.
  unfold Async.codec_receive.
  set (w1 := Async.set_pool _ w).
  assert (H1 : a_quiet w w1).
  { subst w1. destruct w as [pl ? ? ? ? ?]. split; simpl; auto.
    - unfold a_cipher. simpl. destruct pl as [? ? ? ? ? ? ? ? ? ? ? c ?]. simpl.
      unfold ClientRunspacePool.receive. destruct (pipeline_id e), (body e), c; simpl; auto.
    - destruct pl; reflexivity.
    - destruct pl; reflexivity.
    - intros r. apply quiet_refl_pipelines.
    - exists []. by rewrite app_nil_r. }
  etrans; [exact H1|]. clear H1.
  destruct (_ ≫= _) as [self|]; [|reflexivity].
  apply quiet_alter. intros [c ? ? ? ? ? ? ? ? ? ? ?]. repeat split; simpl; try done.
  all: unfold ClientPipeline.receive; destruct (body e), c; reflexivity.
Qed.

(** ** The async facade: the delivery of an event *)

Lemma set_idempotent m e : (Async.set (Async.set m e).1 e).1 = (Async.set m e).1.
Proof.
  unfold Async.set.
  destruct (isinstance e (Async._event_type m) && _) eqn:E; simpl; rewrite E; reflexivity.
Qed.

Lemma kept_lookup_refl (ps : gmap nat Async.AsyncPipeline.t) r p :
  ps !! r = Some p -> exists p', ps !! r = Some p' /\ kept_pipeline p p'.
Proof. intros Hp. exists p. split; [done | reflexivity]. Qed.

#[local] Instance a_keeps_preorder e h : PreOrder (a_keeps e h).
Proof.
  split.
  - intros w. split; auto. intros r p. apply kept_lookup_refl.
  - intros a b c [A1 A2 A5 A3 A4] [B1 B2 B5 B3 B4]. split.
    + auto.
    + congruence.
    + congruence.
    + intros r p Hp. destruct (A3 r p Hp) as [p1 [Hp1 S1]].
      destruct (B3 r p1 Hp1) as [p2 [Hp2 S2]]. exists p2. split; [done | by etrans].
    + intros m Hm. destruct (A4 m Hm) as [H|H].
      * apply B4, H.
      * destruct (B4 _ H) as [H'|H']; [by right |]. right. by rewrite H', set_idempotent.
Qed.

#[local] Instance a_pres_preorder : PreOrder a_pres.
Proof.
  split.
  - intros w. split; auto. intros r p. apply kept_lookup_refl.
  - intros a b c [A1 A3] [B1 B3]. split; [auto|].
    intros r p Hp. destruct (A3 r p Hp) as [p1 [Hp1 S1]].
    destruct (B3 r p1 Hp1) as [p2 [Hp2 S2]]. exists p2. split; [done | by etrans].
Qed.

Lemma codec_calls_app es1 es2 :
  a_codec_calls (es1 ++ es2) = a_codec_calls es1 ++ a_codec_calls es2.
Proof. apply omap_app. Qed.

Lemma codec_calls_fired es : Forall is_fired es -> a_codec_calls es = [].
Proof. induction 1 as [|[] es Hx _ IH]; simpl in *; try done. Qed.

Lemma quiet_keeps e h w w' : a_quiet w w' -> a_keeps e h w w'.
Proof.
  intros [Q1 Q2 Q3 Q4 Q5 Q6 (es & Q7 & Q8)]. split; auto.
  - by rewrite Q7, codec_calls_app, (codec_calls_fired es), app_nil_r.
  - intros r p Hp. specialize (Q4 r). rewrite Hp in Q4. inversion Q4 as [? p' [K _] |]; subst.
    exists p'. split; [done | exact K].
  - intros m Hm. left. by rewrite Q5.
Qed.

Lemma keeps_pres e h w w' : a_keeps e h w w' -> a_pres w w'.
Proof. intros [A1 A2 A5 A3 A4]. split; auto. Qed.

Lemma keeps_emit_passive e h es :
  a_codec_calls es = [] -> frames (a_keeps e h) (Async.emit es).
Proof.
  intros Hes. apply (frames_modify (a_keeps e h)). intros w. destruct w; split; simpl; auto.
  - rewrite codec_calls_app, Hes, app_nil_r. done.
  - intros r p. apply kept_lookup_refl.
Qed.

Lemma keeps_set_result_handler e h o l :
  frames (a_keeps e h) (modify (Async.set_result_handler o l)).
Proof.
  apply (frames_modify (a_keeps e h)). intros w.
  destruct o as [|self]; destruct w as [pl ps ? ? ? ?].
  - destruct pl. split; simpl; auto. intros r p. apply kept_lookup_refl.
  - split; simpl; auto.
    intros r p Hp. destruct (decide (r = self)) as [->|Hne].
    + eexists. rewrite lookup_alter_eq, Hp. split; [done|]. destruct p; by repeat split.
    + rewrite lookup_alter_ne by done. by apply kept_lookup_refl.
Qed.

Lemma offer_cons o handler rest e w :
  Async.offer o (handler :: rest) e w =
    match Async.waiters w !! handler with
    | None => Async.offer o rest e w
    | Some self =>
        (Async.emit [Async.SetCall handler e (Async.set self e).2];;
         (if (Async.set self e).2 then
            hs ← gets (Async.result_handler o);
            match list_remove handler hs with
            | None => raise (Exn "ValueError" "list.remove(x): x not in list")
            | Some hs' => modify (Async.set_result_handler o hs')
            end
          else mret ());;
         Async.offer o rest e)
          (Async.set_waiters (<[handler := (Async.set self e).1]> (Async.waiters w)) w)
    end.
Proof.
  simpl. unfold mbind at 1, St_mbind, St_bind, gets. simpl.
  destruct (Async.waiters w !! handler); reflexivity.
Qed.

Lemma keeps_set_waiter e h handler self w :
  Async.waiters w !! handler = Some self ->
  a_keeps e h w (Async.set_waiters (<[handler := (Async.set self e).1]> (Async.waiters w)) w).
Proof.
  intros Hl. destruct w; split; simpl in *; auto.
  - intros r p. apply kept_lookup_refl.
  - intros m Hm. destruct (decide (handler = h)) as [->|Hne].
    + right. rewrite lookup_insert_eq. congruence.
    + left. by rewrite lookup_insert_ne.
Qed.

Lemma keeps_offer e h o snapshot :
  frames (a_keeps e h) (Async.offer o snapshot e).
Proof.
  induction snapshot as [|handler rest IH]; [f_leaf|].
  intros w w' r. rewrite offer_cons.
  destruct (Async.waiters w !! handler) as [self|] eqn:E; [|apply IH].
  intros H. etrans; [apply keeps_set_waiter, E|].
  revert H. generalize (Async.set_waiters (<[handler:=(Async.set self e).1]> (Async.waiters w)) w).
  intros w1. revert w1 w' r. change (frames (a_keeps e h)
    (Async.emit [Async.SetCall handler e (Async.set self e).2];;
         (if (Async.set self e).2 then
            hs ← gets (Async.result_handler o);
            match list_remove handler hs with
            | None => raise (Exn "ValueError" "list.remove(x): x not in list")
            | Some hs' => modify (Async.set_result_handler o hs')
            end
          else mret ());;
         Async.offer o rest e)).
  fbind; [apply keeps_emit_passive; reflexivity | intros _].
  fbind; [| intros _; apply IH].
  destruct (Async.set self e).2; [|f_leaf].
  fbind; [f_leaf | intros hs].
  destruct (list_remove handler hs);
    [apply keeps_set_result_handler | f_leaf].
Qed.

Lemma keeps_event_received core e h :
  frames (a_keeps e h) (Async._event_received core e).
Proof.
  unfold Async._event_received.
  fbind; [f_leaf | intros self].
  destruct (pipeline_id e) as [key|].
  - destruct (_ !! key) as [pipeline|]; [|f_leaf].
    unfold Async.pipeline_event_received.
    fbind; [eapply frames_weaken, quiet_pipeline_handle_event; apply quiet_keeps | intros q].
    fbind; [f_leaf | intros snapshot].
    fbind; [apply keeps_offer | intros _]. f_leaf.
  - fbind; [eapply frames_weaken, quiet_pool_handle_event; apply quiet_keeps | intros q].
    fbind; [f_leaf | intros snapshot].
    fbind; [apply keeps_offer | intros _]. f_leaf.
Qed.

Lemma codec_receive_cipher e w :
  body e = EncryptedSessionKeyEvent -> a_cipher (Async.codec_receive e w) = true.
Proof.
  intros Hb. unfold Async.codec_receive.
  destruct (_ ≫= _); destruct w as [[? ? ? ? ? ? ? ? ? ? ? [] ?] ? ? ? ? ?];
    unfold a_cipher; simpl; unfold ClientRunspacePool.receive; rewrite Hb;
    destruct (pipeline_id e); reflexivity.
Qed.

Lemma keeps_deliver core e h : frames (a_keeps e h) (Async.deliver core e).
Proof.
  unfold Async.deliver.
  fbind; [| intros _; apply keeps_event_received].
  apply (frames_modify (a_keeps e h)). intros w. apply quiet_keeps, quiet_codec_receive.
Qed.

Lemma deliver_cipher core e w w' r :
  body e = EncryptedSessionKeyEvent ->
  Async.deliver core e w = (w', r) -> a_cipher w' = true.
Proof.
  intros Hb. unfold Async.deliver, mbind, St_mbind, St_bind, modify. simpl.
  intros H. apply (keeps_event_received core e 0%nat) in H.
  apply (keeps_cipher _ _ _ _ H). by apply codec_receive_cipher.
Qed.

(** ** The async facade: waiting *)

#[local] Instance a_waits_preorder : PreOrder a_waits.
Proof.
  split.
  - intros w. split; [reflexivity | done | done].
  - intros a b c [A1 A2 A3] [B1 B2 B3]. split; [by etrans | congruence | congruence].
Qed.

Lemma keeps_waits e h w w' : a_keeps e h w w' -> a_waits w w'.
Proof. intros K. split; [eapply keeps_pres, K | apply K | apply K]. Qed.

Lemma set_inbox_waits l w : a_waits w (Async.set_inbox l w).
Proof. destruct w; split; [split|..]; simpl; auto. intros r p. apply kept_lookup_refl. Qed.

Lemma set_inbox_cipher l w : a_cipher (Async.set_inbox l w) = a_cipher w.
Proof. destruct w; reflexivity. Qed.

Lemma await_loop_waits core h events : forall w w' r,
  Async.await_loop core h events w = (w', r) ->
  a_waits w w' /\ forall e, r <> Raised e.
Proof.
  induction events as [|e rest IH]; intros w w' r; simpl.
  - destruct (_ ≫= _); intros [= <- <-]; (split; [apply set_inbox_waits | done]).
  - destruct (_ ≫= _); [intros [= <- <-]; (split; [apply set_inbox_waits | done])|].
    destruct (Async.deliver core e w) as [w1 [q|x|]] eqn:Ed;
      pose proof (keeps_waits _ _ _ _ (keeps_deliver core e h _ _ _ Ed)) as K.
    + intros H. destruct (IH _ _ _ H) as [P N]. split; [by etrans | done].
    + intros [= <- <-]. split; [etrans; [exact K | apply set_inbox_waits] | done].
    + intros [= <- <-]. split; [etrans; [exact K | apply set_inbox_waits] | done].
Qed.

Lemma await_waits core h : frames a_waits (Async.await core h).
Proof. intros w w' r H. eapply await_loop_waits, H. Qed.


Lemma isinstance_key e :
  isinstance e EncryptedSessionKeyEvent_t = true -> body e = EncryptedSessionKeyEvent.
Proof.
  unfold isinstance. intros H. apply bool_decide_eq_true in H.
  destruct (body e); simpl in H; try discriminate. reflexivity.
Qed.

Lemma key_waiter_deliver core e h w w' r :
  key_waiter h w -> Async.deliver core e w = (w', r) -> key_waiter h w'.
Proof.
  intros (m & Hm & Ht & Hc) H.
  pose proof (keeps_deliver core e h _ _ _ H) as K.
  destruct (keeps_waiter _ _ _ _ K m Hm) as [Hw|Hw].
  - exists m. split; [done|]. split; [done|]. intros He. apply (keeps_cipher _ _ _ _ K), Hc, He.
  - exists (Async.set m e).1. split; [done|].
    unfold Async.set. rewrite Ht.
    destruct (isinstance e EncryptedSessionKeyEvent_t) eqn:Ei; simpl.
    + destruct (match Async._condition m with Some c => c e | None => true end); simpl.
      * split; [done|]. intros _. eapply deliver_cipher; [by apply isinstance_key | exact H].
      * split; [done|]. intros He. apply (keeps_cipher _ _ _ _ K), Hc, He.
    + split; [done|]. intros He. apply (keeps_cipher _ _ _ _ K), Hc, He.
Qed.

(** When the wait for the key returns, the key is there. *)
Lemma await_key core h events : forall w w' ev,
  key_waiter h w -> Async.await_loop core h events w = (w', Returned ev) ->
  a_cipher w' = true.
Proof.
  induction events as [|e rest IH]; intros w w' ev HK; simpl.
  - destruct HK as (m & Hm & Ht & Hc). rewrite Hm. simpl. unfold Async.wait.
    destruct (Async._event m) eqn:Ee; [destruct (Async._result m)|]; simpl;
      intros [= <- <-]. rewrite set_inbox_cipher. auto.
  - pose proof HK as (m & Hm & Ht & Hc). rewrite Hm. simpl. unfold Async.wait.
    destruct (Async._event m) eqn:Ee; [destruct (Async._result m)|]; simpl.
    + intros [= <- <-]. rewrite set_inbox_cipher. auto.
    + destruct (Async.deliver core e w) as [w1 [q|x|]] eqn:Ed; try discriminate.
      apply IH. eapply key_waiter_deliver; [exact HK | exact Ed].
    + destruct (Async.deliver core e w) as [w1 [q|x|]] eqn:Ed; try discriminate.
      apply IH. eapply key_waiter_deliver; [exact HK | exact Ed].
Qed.

Lemma exchange_key_spec core w w' r :
  Async.exchange_key core w = (w', r) ->
  a_pres w w' /\
  a_codec_calls (Async.effects w') = a_codec_calls (Async.effects w) ++ [codec_exchange_key] /\
  Async.AsyncRunspacePool.pipeline_table (Async.pool w') =
    Async.AsyncRunspacePool.pipeline_table (Async.pool w) /\
  (r = Pending \/ r = Returned () /\ a_cipher w' = true).
Proof.
  unfold Async.exchange_key, Async.new_waiter, Async.add_result_handler, Async.emit,
    Async.await, mbind, St_mbind, St_bind, modify. simpl.
  match goal with |- context [Async.await_loop core ?h ?evs ?w4] =>
    set (W4 := w4); set (H := h) end.
  assert (HK : key_waiter H W4).
  { exists (Async.MessageResult_new EncryptedSessionKeyEvent_t None).
    split; [|split; [reflexivity | discriminate]].
    subst W4 H. destruct w; simpl. apply lookup_insert_eq. }
  assert (HP : a_pres w W4).
  { subst W4. destruct w as [[? ? ? ? ? ? ? ? ? ? ? ? ?] ? ? ? ? ?]; split; simpl; auto.
    intros r0 p. apply kept_lookup_refl. }
  assert (HC : a_codec_calls (Async.effects W4) =
               a_codec_calls (Async.effects w) ++ [codec_exchange_key]).
  { subst W4. destruct w as [[? ? ? ? ? ? ? ? ? ? ? ? ?] ? ? ? ? ?]; simpl.
    rewrite !codec_calls_app. simpl. by rewrite app_nil_r. }
  assert (HT : Async.AsyncRunspacePool.pipeline_table (Async.pool W4) =
               Async.AsyncRunspacePool.pipeline_table (Async.pool w)).
  { subst W4. destruct w as [[? ? ? ? ? ? ? ? ? ? ? ? ?] ? ? ? ? ?]; reflexivity. }
  destruct (Async.await_loop core H _ W4) as [w5 r5] eqn:E.
  destruct (await_loop_waits _ _ _ _ _ _ E) as ([P C T] & N).
  destruct r5 as [ev|x|]; simpl; intros [= <- <-].
  - split; [by etrans|]. split; [congruence|]. split; [congruence|]. right. split; [done|].
    eapply await_key; [exact HK | exact E].
  - by destruct (N x).
  - split; [by etrans|]. split; [congruence|]. split; [congruence | by left].
Qed.

(** ** The async facade: the start, the input and the retry *)

Lemma emit_pres es w : a_pres w (Async.set_effects (Async.effects w ++ es) w).
Proof. destruct w; split; simpl; auto. intros r p. apply kept_lookup_refl. Qed.

Lemma pres_alter self f w :
  (forall p, kept_pipeline p (f p)) ->
  a_pres w (Async.set_pipelines (alter f self (Async.pipelines w)) w).
Proof.
  intros Hf. destruct w; split; simpl; auto.
  intros r p Hp. destruct (decide (r = self)) as [->|Hne].
  - exists (f p). split; [|apply Hf]. rewrite lookup_alter_eq. by rewrite Hp.
  - rewrite lookup_alter_ne by done. by apply kept_lookup_refl.
Qed.

Lemma pipeline_start_eq self w p :
  Async.pipelines w !! self = Some p ->
  Async.pipeline_start self w =
    let w1 := Async.set_effects
                (Async.effects w ++ [Async.Codec (codec_start (Async.pipeline_id_of p))]) w in
    if a_will_raise_start w p then (w1, Raised MissingCipherError)
    else (Async.set_pipelines
            (alter (Async.AsyncPipeline.set__pipeline
                      (ClientPipeline.set_state PSInvocationState.Running
                         (Async.AsyncPipeline._pipeline p)))
                   self (Async.pipelines w1)) w1, Returned ()).
Proof.
  intros Hp. unfold Async.pipeline_start, Async.get_pipeline, mbind, St_mbind, St_bind.
  rewrite Hp. unfold Async.emit, modify, gets. simpl.
  unfold a_will_raise_start, ClientPipeline.start, a_cipher.
  destruct w as [pl ? ? ? ? ?]; simpl.
  destruct (existsb _ _ && negb _); reflexivity.
Qed.



Lemma start_ok_pres self w p :
  Async.pipelines w !! self = Some p ->
  let w1 := Async.set_effects
              (Async.effects w ++ [Async.Codec (codec_start (Async.pipeline_id_of p))]) w in
  a_pres w (Async.set_pipelines
            (alter (Async.AsyncPipeline.set__pipeline
                      (ClientPipeline.set_state PSInvocationState.Running
                         (Async.AsyncPipeline._pipeline p)))
                   self (Async.pipelines w1)) w1).
Proof.
  intros Hp. destruct w as [pl ps ? ? ? ?]; split; simpl in *; auto.
  intros r q Hq. destruct (decide (r = self)) as [->|Hne].
  - eexists. rewrite lookup_alter_eq, Hq. simpl. split; [done|].
    assert (q = p) as -> by congruence.
    destruct p as [[] ? ? ? ? ? ? ? ? ? ? ?]; by repeat split.
  - rewrite lookup_alter_ne by done. by apply kept_lookup_refl.
Qed.

Lemma start_ok_table self w p :
  let w1 := Async.set_effects
              (Async.effects w ++ [Async.Codec (codec_start (Async.pipeline_id_of p))]) w in
  Async.AsyncRunspacePool.pipeline_table (Async.pool (Async.set_pipelines
            (alter (Async.AsyncPipeline.set__pipeline
                      (ClientPipeline.set_state PSInvocationState.Running
                         (Async.AsyncPipeline._pipeline p)))
                   self (Async.pipelines w1)) w1)) =
  Async.AsyncRunspacePool.pipeline_table (Async.pool w).
Proof. destruct w; reflexivity. Qed.

(** The retry block around [start]. *)
Lemma start_with_retry_spec core self w p w' r :
  Async.pipelines w !! self = Some p ->
  Async.start_with_retry core self w = (w', r) ->
  a_pres w w' /\
  (r = Returned () \/ r = Pending) /\
  a_codec_calls (Async.effects w') =
    a_codec_calls (Async.effects w) ++
      codec_start (Async.pipeline_id_of p) ::
      (if a_will_raise_start w p
       then codec_exchange_key ::
              (if r is Returned _ then [codec_start (Async.pipeline_id_of p)] else [])
       else []) /\
  (a_will_raise_start w p = false -> r = Returned ()).
Proof.
  intros Hp. unfold Async.start_with_retry, try_except.
  rewrite (pipeline_start_eq _ _ _ Hp). simpl.
  destruct (a_will_raise_start w p) eqn:Ew.
  - change (isinstance_exn MissingCipherError "MissingCipherError") with true. simpl.
    set (w1 := Async.set_effects _ w).
    unfold mbind, St_mbind, St_bind.
    destruct (Async.exchange_key core w1) as [w2 r2] eqn:E.
    destruct (exchange_key_spec _ _ _ _ E) as (P & C & _ & R).
    assert (P1 : a_pres w w1) by apply emit_pres.
    assert (C1 : a_codec_calls (Async.effects w1) =
                 a_codec_calls (Async.effects w) ++ [codec_start (Async.pipeline_id_of p)]).
    { subst w1. destruct w; simpl. by rewrite codec_calls_app. }
    destruct R as [->|[-> Hc]].
    + intros [= <- <-]. split; [by etrans|]. split; [by right|].
      split; [|done]. rewrite C, C1, <- app_assoc. reflexivity.
    + destruct (pres_pipelines _ _ (transitivity P1 P) _ _ Hp) as (p2 & Hp2 & [S1 S2] & _).
      rewrite (pipeline_start_eq _ _ _ Hp2). simpl.
      assert (Ew2 : a_will_raise_start w2 p2 = false).
      { unfold a_will_raise_start. rewrite Hc. apply andb_false_r. }
      rewrite Ew2. intros [= <- <-].
      split; [etrans; [exact P1|]; etrans; [exact P|]; by apply start_ok_pres|].
      split; [by left|]. split; [|done].
      destruct w2; simpl in *. rewrite codec_calls_app. simpl.
      rewrite C, C1, <- !app_assoc. simpl. unfold Async.pipeline_id_of. by rewrite S2.
  - intros [= <- <-]. split; [by apply start_ok_pres|]. split; [by left|].
    split; [|done]. destruct w; simpl. by rewrite codec_calls_app.
Qed.

Lemma pipeline_send_eq self data w p :
  Async.pipelines w !! self = Some p ->
  Async.pipeline_send self data w =
    let w1 := Async.set_effects
                (Async.effects w ++ [Async.Codec (codec_send (Async.pipeline_id_of p) data)]) w in
    if a_will_raise_send w data then (w1, Raised MissingCipherError) else (w1, Returned ()).
Proof.
  intros Hp. unfold Async.pipeline_send, Async.get_pipeline, mbind, St_mbind, St_bind.
  rewrite Hp. unfold Async.emit, modify, gets. simpl.
  unfold a_will_raise_send, ClientPipeline.send, a_cipher.
  destruct w as [pl ? ? ? ? ?]; simpl.
  destruct (has_secure_string _ && negb _); reflexivity.
Qed.

(** The retry block around [send]. *)
Lemma send_with_retry_spec core self data w p w' r :
  Async.pipelines w !! self = Some p ->
  Async.send_with_retry core self data w = (w', r) ->
  a_pres w w' /\
  (r = Returned () \/ r = Pending) /\
  a_codec_calls (Async.effects w') =
    a_codec_calls (Async.effects w) ++
      codec_send (Async.pipeline_id_of p) data ::
      (if a_will_raise_send w data
       then codec_exchange_key ::
              (if r is Returned _ then [codec_send (Async.pipeline_id_of p) data] else [])
       else []) /\
  (a_will_raise_send w data = false -> r = Returned ()) /\
  Async.AsyncRunspacePool.pipeline_table (Async.pool w') =
    Async.AsyncRunspacePool.pipeline_table (Async.pool w).
Proof.
  intros Hp. unfold Async.send_with_retry, try_except.
  rewrite (pipeline_send_eq _ _ _ _ Hp). simpl.
  destruct (a_will_raise_send w data) eqn:Ew.
  - change (isinstance_exn MissingCipherError "MissingCipherError") with true. simpl.
    set (w1 := Async.set_effects _ w).
    unfold mbind, St_mbind, St_bind.
    destruct (Async.exchange_key core w1) as [w2 r2] eqn:E.
    destruct (exchange_key_spec _ _ _ _ E) as (P & C & T & R).
    assert (P1 : a_pres w w1) by apply emit_pres.
    assert (C1 : a_codec_calls (Async.effects w1) =
                 a_codec_calls (Async.effects w) ++ [codec_send (Async.pipeline_id_of p) data]).
    { subst w1. destruct w; simpl. by rewrite codec_calls_app. }
    assert (T1 : Async.AsyncRunspacePool.pipeline_table (Async.pool w1) =
                 Async.AsyncRunspacePool.pipeline_table (Async.pool w)).
    { subst w1. destruct w; reflexivity. }
    destruct R as [->|[-> Hc]].
    + intros [= <- <-]. split; [by etrans|]. split; [by right|].
      split; [|split; [done | congruence]]. rewrite C, C1, <- app_assoc. reflexivity.
    + destruct (pres_pipelines _ _ (transitivity P1 P) _ _ Hp) as (p2 & Hp2 & [S1 S2] & _).
      rewrite (pipeline_send_eq _ _ _ _ Hp2). simpl.
      assert (Ew2 : a_will_raise_send w2 data = false).
      { unfold a_will_raise_send. rewrite Hc. apply andb_false_r. }
      rewrite Ew2. intros [= <- <-].
      split; [etrans; [exact P1|]; etrans; [exact P|]; by apply emit_pres|].
      split; [by left|]. split; [|split; [done | destruct w2; simpl in *; congruence]].
      destruct w2; simpl in *. rewrite codec_calls_app. simpl.
      rewrite C, C1, <- !app_assoc. simpl. unfold Async.pipeline_id_of. by rewrite S2.
  - intros [= <- <-]. split; [by apply emit_pres|]. split; [by left|].
    split; [|split; [done | by destruct w]]. destruct w; simpl. by rewrite codec_calls_app.
Qed.

(** *** Computations that keep the pipeline and never raise *)

Lemma a_pres_some self w w' :
  a_pres w w' -> is_Some (Async.pipelines w !! self) -> is_Some (Async.pipelines w' !! self).
Proof. intros P [p Hp]. destruct (pres_pipelines _ _ P _ _ Hp) as (p' & Hp' & _). eauto. Qed.

Lemma safe_bind self {A B} (m : St Async.World A) (k : A -> St Async.World B) :
  a_safe self m -> (forall a, a_safe self (k a)) -> a_safe self (m ≫= k).
Proof.
  intros Hm Hk w w' r Hs. unfold mbind, St_mbind, St_bind.
  destruct (m w) as [w1 [a|e|]] eqn:E; intros H.
  - destruct (Hm _ _ _ Hs E) as [P _].
    destruct (Hk a _ _ _ (a_pres_some _ _ _ P Hs) H) as [P' N]. split; [by etrans | done].
  - destruct (Hm _ _ _ Hs E) as [_ N]. by destruct (N e).
  - injection H as <- <-. destruct (Hm _ _ _ Hs E) as [P _]. split; [done | discriminate].
Qed.

Lemma safe_ret self {A} (a : A) : a_safe self (mret a).
Proof. intros w w' r _ [= <- <-]. split; [reflexivity | discriminate]. Qed.

Lemma safe_modify self f : (forall w, a_pres w (f w)) -> a_safe self (modify f).
Proof. intros Hf w w' r _ [= <- <-]. split; [apply Hf | discriminate]. Qed.

Lemma safe_emit self es : a_safe self (Async.emit es).
Proof. apply safe_modify. intros w. apply emit_pres. Qed.

Lemma safe_get_pipeline self : a_safe self (Async.get_pipeline self).
Proof.
  intros w w' r [p Hp]. unfold Async.get_pipeline. rewrite Hp.
  intros [= <- <-]. split; [reflexivity | discriminate].
Qed.

Lemma safe_modify_pipeline self r f :
  (forall p, kept_pipeline p (f p)) -> a_safe self (Async.modify_pipeline r f).
Proof. intros Hf. apply safe_modify. intros w. by apply pres_alter. Qed.

Lemma safe_modify_pool self f :
  (forall p, ClientRunspacePool.cipher (Async.AsyncRunspacePool._pool (f p)) =
             ClientRunspacePool.cipher (Async.AsyncRunspacePool._pool p)) ->
  a_safe self (Async.modify_pool f).
Proof.
  intros Hf. apply safe_modify. intros w. destruct w; split; simpl; auto.
  - unfold a_cipher. simpl. by rewrite Hf.
  - intros r p. apply kept_lookup_refl.
Qed.

Lemma safe_start_with_retry core self : a_safe self (Async.start_with_retry core self).
Proof.
  intros w w' r [p Hp] H.
  destruct (start_with_retry_spec _ _ _ _ _ _ Hp H) as (P & [->| ->] & _); split; done.
Qed.

Lemma safe_send_with_retry core self data : a_safe self (Async.send_with_retry core self data).
Proof.
  intros w w' r [p Hp] H.
  destruct (send_with_retry_spec _ _ _ _ _ _ _ Hp H) as (P & [->| ->] & _); split; done.
Qed.

Lemma safe_send_inputs core self buffer_input input :
  a_safe self (Async.send_inputs core self buffer_input input).
Proof.
  induction input as [|data rest IH]; simpl; [apply safe_ret|].
  apply safe_bind; [|intros _; apply IH].
  unfold Async.send_input. apply safe_bind; [apply safe_send_with_retry | intros _; apply safe_emit].
Qed.

Lemma safe_pipelines_task_start self completed :
  a_safe self (Async._pipelines_task_start self completed).
Proof.
  unfold Async._pipelines_task_start.
  apply safe_bind; [| intros event; apply safe_bind; [| intros _; apply safe_ret]].
  - intros w w' r _. unfold Async.new_waiter. intros [= <- <-]. split; [|discriminate].
    destruct w; split; simpl; auto. intros r p. apply kept_lookup_refl.
  - unfold Async.add_result_handler. apply safe_modify. intros w. simpl.
    apply pres_alter. intros []; by repeat split.
Qed.

Lemma safe_set_output_stream self output_stream :
  a_safe self (Async.set_output_stream self output_stream).
Proof.
  destruct output_stream; apply safe_modify_pipeline; intros []; by repeat split.
Qed.

Lemma safe_start_and_send core self input_data buffer_input :
  a_safe self (Async.start_and_send core self input_data buffer_input).
Proof.
  unfold Async.start_and_send.
  apply safe_bind; [apply safe_start_with_retry | intros _].
  apply safe_bind; [apply safe_get_pipeline | intros p].
  apply safe_bind; [apply safe_modify_pool; intros []; reflexivity | intros _].
  apply safe_bind; [apply safe_emit | intros _].
  apply safe_bind; [apply safe_emit | intros _].
  destruct input_data; [|apply safe_ret].
  apply safe_bind; [apply safe_send_inputs | intros _].
  apply safe_bind; [apply safe_emit | intros _; apply safe_emit].
Qed.


Lemma safe_set_no_input self b :
  a_safe self (Async.modify_pipeline self (fun p =>
    Async.AsyncPipeline.set__pipeline
      (ClientPipeline.set_no_input b (Async.AsyncPipeline._pipeline p)) p)).
Proof. apply safe_modify_pipeline. intros [[] ? ? ? ? ? ? ? ? ? ? ?]; by repeat split. Qed.


(** ** The async facade: the task of [invoke] *)

Lemma bind_returned {W A B} (m : St W A) (k : A -> St W B) w w' b :
  (m ≫= k) w = (w', Returned b) ->
  exists w1 a, m w = (w1, Returned a) /\ k a w1 = (w', Returned b).
Proof.
  unfold mbind, St_mbind, St_bind. destruct (m w) as [w1 [a|e|]]; try discriminate. eauto.
Qed.

Lemma pres_marked self w w' : a_pres w w' -> marked self w -> marked self w'.
Proof.
  intros P (p & Hp & He). destruct (pres_pipelines _ _ P _ _ Hp) as (p' & Hp' & _ & K).
  exists p'. auto.
Qed.

Lemma tabled_keeps self w w' :
  a_pres w w' ->
  Async.AsyncRunspacePool.pipeline_table (Async.pool w') =
    Async.AsyncRunspacePool.pipeline_table (Async.pool w) ->
  tabled self w -> tabled self w'.
Proof.
  intros P T (p & Hp & Ht). destruct (pres_pipelines _ _ P _ _ Hp) as (p' & Hp' & [_ Hi] & _).
  exists p'. split; [done|]. unfold Async.pipeline_id_of. by rewrite T, Hi.
Qed.

Lemma send_inputs_table core self buffer_input input : forall w w' r,
  is_Some (Async.pipelines w !! self) ->
  Async.send_inputs core self buffer_input input w = (w', r) ->
  Async.AsyncRunspacePool.pipeline_table (Async.pool w') =
    Async.AsyncRunspacePool.pipeline_table (Async.pool w).
Proof.
  induction input as [|data rest IH]; intros w w' r Hs; simpl; [by intros [= <- _]|].
  unfold Async.send_input, Async.emit, modify, mbind, St_mbind, St_bind.
  destruct (Async.send_with_retry core self data w) as [w1 r1] eqn:E.
  pose proof Hs as [p Hp].
  destruct (send_with_retry_spec _ _ _ _ _ _ _ Hp E) as (P & _ & _ & _ & T).
  destruct r1 as [[]|e|]; simpl; [| by intros [= <- _] ..].
  intros H. apply IH in H.
  - rewrite H. destruct w1; simpl in *. exact T.
  - destruct w1; simpl. apply (a_pres_some _ _ _ P Hs).
Qed.

(** A start that returns leaves the pipeline in the table. *)
Lemma start_and_send_tabled core self input_data buffer_input w w' :
  is_Some (Async.pipelines w !! self) ->
  Async.start_and_send core self input_data buffer_input w = (w', Returned ()) ->
  tabled self w'.
Proof.
  intros Hs H. unfold Async.start_and_send in H.
  apply bind_returned in H as (w1 & [] & H1 & H).
  destruct (safe_start_with_retry core self _ _ _ Hs H1) as [P1 _].
  destruct (a_pres_some _ _ _ P1 Hs) as [p1 Hp1].
  apply bind_returned in H as (w2 & p & H2 & H).
  unfold Async.get_pipeline in H2. rewrite Hp1 in H2. injection H2 as <- <-.
  apply bind_returned in H as (w3 & [] & H3 & H). injection H3 as <-.
  apply bind_returned in H as (w4 & [] & H4 & H). injection H4 as <-.
  apply bind_returned in H as (w5 & [] & H5 & H). injection H5 as <-.
  match type of H with _ ?W = _ => set (w5 := W) in * end.
  assert (T5 : tabled self w5).
  { exists p1. subst w5. destruct w1 as [[] ? ? ? ? ?]; simpl in *.
    split; [done | apply lookup_insert_eq]. }
  destruct input_data as [input|]; [|by injection H as <-].
  apply bind_returned in H as (w6 & [] & H6 & H).
  assert (S5 : is_Some (Async.pipelines w5 !! self)) by (destruct T5 as (? & ? & _); eauto).
  destruct (safe_send_inputs core self buffer_input input _ _ _ S5 H6) as [P6 _].
  pose proof (send_inputs_table _ _ _ _ _ _ _ S5 H6) as T6.
  pose proof (tabled_keeps _ _ _ P6 T6 T5) as (p6 & Hp6 & Ht6).
  apply bind_returned in H as (w7 & [] & H7 & H). injection H7 as <-. injection H as <-.
  exists p6. destruct w6; simpl in *. done.
Qed.

(** What [invoke_async] hands to the wait when it returns. *)
Lemma invoke_async_returned core self input_data output_stream completed buffer_input w w' task :
  is_Some (Async.pipelines w !! self) ->
  Async.invoke_async core self input_data output_stream completed buffer_input w
    = (w', Returned task) ->
  Async.task_self task = self /\ Async.task_completed task = completed /\
  tabled self w' /\ (is_Some output_stream -> marked self w').
Proof.
  intros Hs H. unfold Async.invoke_async in H.
  apply bind_returned in H as (w1 & [] & H1 & H).
  assert (S1 : is_Some (Async.pipelines w1 !! self)).
  { eapply a_pres_some; [|exact Hs]. eapply safe_set_no_input; [exact Hs | exact H1]. }
  clear H1 Hs. unfold Async.AsyncPipeline_invoke_async in H.
  apply bind_returned in H as (w2 & [] & H2 & H).
  destruct (safe_set_output_stream self output_stream _ _ _ S1 H2) as [P2 _].
  assert (M2 : is_Some output_stream -> marked self w2).
  { intros [s ->]. injection H2 as <-. destruct S1 as [p Hp].
    exists (Async.AsyncPipeline.set__stream_output s
              (Async.AsyncPipeline.set__explicit_output true p)).
    split; [|by destruct p]. destruct w1; simpl in *.
    by rewrite lookup_alter_eq, Hp. }
  pose proof (a_pres_some _ _ _ P2 S1) as S2.
  apply bind_returned in H as (w3 & t & H3 & H).
  destruct (safe_pipelines_task_start self completed _ _ _ S2 H3) as [P3 _].
  pose proof (a_pres_some _ _ _ P3 S2) as S3.
  assert (t = {| Async.task_self := self; Async.task_event := Async.next_ref w2;
                 Async.task_completed := completed |}) as ->.
  { unfold Async._pipelines_task_start, Async.new_waiter, Async.add_result_handler,
      mbind, St_mbind, St_bind, modify in H3. simpl in H3. by injection H3. }
  apply bind_returned in H as (w4 & [] & H4 & H). injection H as <- <-.
  destruct (safe_start_and_send core self input_data buffer_input _ _ _ S3 H4) as [P4 _].
  split; [done|]. split; [done|].
  split; [eapply start_and_send_tabled; [exact S3 | exact H4]|].
  intros Ho. eapply pres_marked; [exact P4|]. eapply pres_marked; [exact P3|]. auto.
Qed.

Lemma close_tabled self w :
  tabled self w ->
  exists w', Async.close self w = (w', Returned ()) /\ Async.pipelines w' = Async.pipelines w.
Proof.
  intros (p & Hp & Ht).
  unfold Async.close, Async.get_pipeline, Async.emit, Async.modify_pool, modify, gets,
    mbind, St_mbind, St_bind.
  rewrite Hp. simpl. rewrite Ht, Hp.
  destruct (decide _); eexists; (split; [reflexivity|]); by destruct w.
Qed.

(** The end of the task, once the wait has returned [state]. *)
Lemma pipelines_task_finish_eq core task w w1 state p :
  Async.task_completed task = None ->
  Async.await core (Async.task_event task) w = (w1, Returned state) ->
  tabled (Async.task_self task) w1 ->
  Async.pipelines w1 !! Async.task_self task = Some p ->
  (Async._pipelines_task_finish core task w).2 =
    match Async.translate_state state (Async.AsyncPipeline._explicit_output p)
            (Async.items (Async.AsyncPipeline._stream_output p)) with
    | Ok out => Returned out
    | Raise e => Raised e
    end.
Proof.
  intros Hc Ha Ht Hp. unfold Async._pipelines_task_finish.
  unfold mbind at 1, St_mbind, St_bind. rewrite Ha, Hc.
  unfold mbind at 1, St_mbind, St_bind. simpl.
  destruct (close_tabled _ _ Ht) as (w2 & Hcl & Hps).
  unfold mbind at 1, St_mbind, St_bind. rewrite Hcl.
  unfold Async.get_pipeline, mbind, St_mbind, St_bind. rewrite Hps, Hp.
  by destruct (Async.translate_state _ _ _).
Qed.

Lemma translate_state_translated ev st reason explicit_output output :
  body ev = PipelineStateEvent st reason ->
  match Async.translate_state ev explicit_output output with
  | Ok out => Returned out
  | Raise e => Raised e
  end = translated st reason explicit_output output.
Proof.
  intros Hb. unfold Async.translate_state. rewrite Hb.
  destruct st, reason; reflexivity.
Qed.



(** ** The sync facade: what the listener keeps *)


#[local] Instance s_keeps_preorder : PreOrder s_keeps.
Proof.
  split.
  - intros w. split; auto. intros r p Hp. exists p. split; [done | reflexivity].
  - intros a b c [A1 A2 A3] [B1 B2 B3]. split; [auto | congruence |].
    intros r p Hp. destruct (A3 r p Hp) as [p1 [Hp1 S1]].
    destruct (B3 r p1 Hp1) as [p2 [Hp2 S2]]. exists p2. split; [done | by etrans].
Qed.



























(** ** The sync facade: the start, the input and the retry *)






#[local] Instance s_pres_preorder : PreOrder s_pres.
Proof.
  split.
  - intros w. split; auto. intros r p Hp. exists p. split; [done | reflexivity].
  - intros a b c [A1 A3] [B1 B3]. split; [auto|].
    intros r p Hp. destruct (A3 r p Hp) as [p1 [Hp1 S1]].
    destruct (B3 r p1 Hp1) as [p2 [Hp2 S2]]. exists p2. split; [done | by etrans].
Qed.




Lemma s_pipeline_invoke_eq self w p :
  Sync.pipelines w !! self = Some p ->
  Sync.pipeline_invoke self w =
    let w1 := Sync.set_effects (Sync.effects w ++ [Sync.Codec (codec_start (Sync.pipeline_id_of p))]) w in
    if s_will_raise_start w p then (w1, Raised MissingCipherError)
    else (Sync.set_pipelines
            (alter (Sync.Pipeline.set_pipeline
                      (ClientPipeline.set_state PSInvocationState.Running (Sync.Pipeline.pipeline p)))
                   self (Sync.pipelines w1)) w1, Returned ()).
Proof.
  intros Hp. unfold Sync.pipeline_invoke, Sync.get_pipeline, mbind, St_mbind, St_bind.
  rewrite Hp. unfold Sync.emit, modify, gets. simpl.
  unfold s_will_raise_start, ClientPipeline.start, s_cipher.
  destruct w as [pl ? ? ? ? ? ?]; simpl.
  destruct (existsb _ _ && negb _); reflexivity.
Qed.

Lemma s_pipeline_send_eq self data w p :
  Sync.pipelines w !! self = Some p ->
  Sync.pipeline_send self data w =
    let w1 := Sync.set_effects
                (Sync.effects w ++ [Sync.Codec (codec_send (Sync.pipeline_id_of p) data)]) w in
    if s_will_raise_send w data then (w1, Raised MissingCipherError) else (w1, Returned ()).
Proof.
  intros Hp. unfold Sync.pipeline_send, Sync.get_pipeline, mbind, St_mbind, St_bind.
  rewrite Hp. unfold Sync.emit, modify, gets. simpl.
  unfold s_will_raise_send, ClientPipeline.send, s_cipher.
  destruct w as [pl ? ? ? ? ? ?]; simpl.
  destruct (has_secure_string _ && negb _); reflexivity.
Qed.





















(** ** The sync facade: the wait of [invoke] *)




(** [invoke] returns what the task holds as its output stream. *)
Lemma sync_invoke_returned core self input_data output_stream buffer_input w w' out :
  Sync.invoke core self input_data output_stream buffer_input w = (w', Returned out) ->
  exists w0 task,
    Sync.invoke_async core self input_data output_stream None buffer_input w
      = (w0, Returned task) /\
    out = Sync.task_output_stream task.
Proof.
  intros H. unfold Sync.invoke in H.
  apply bind_returned in H as (w0 & task & H0 & H).
  exists w0, task. split; [done|].
  unfold Sync.PipelineTask_wait in H.
  apply bind_returned in H as (w1 & [] & _ & H). by injection H.
Qed.

(** ** Host calls *)


Lemma _append_never_raises {T} (c : Async.AsyncPSDataCollection T) v :
  (Async._append c v).2 = None.
Proof.
  unfold Async._append, Async.append. destruct (Async.completed c) eqn:E; simpl; auto.
Qed.

Lemma _append_items {T} (c : Async.AsyncPSDataCollection T) v :
  Async.items (Async._append c v).1.1 =
    if Async.completed c then Async.items c else Async.items c ++ [v].
Proof.
  unfold Async._append, Async.append. destruct (Async.completed c) eqn:E; simpl; auto.
Qed.

Lemma invoke_host_call_eq core host ci mi mp o w md es :
  get_host_method core host mi mp = Ok md ->
  Async.stream_error o w = Some es ->
  Async._invoke_host_call core host ci mi mp o w =
    match Async.call_func (invoke md) with
    | Ok v => if is_void md then (w, Returned false)
              else (a_respond ci v None w, Returned true)
    | Raise e =>
        if is_void md
        then (a_record_error o es (Async.host_error_record core e mi) w, Returned false)
        else (a_respond ci VNone (Some (Async.host_error_record core e mi)) w, Returned true)
    end.
Proof.
  intros Hm Hs. unfold Async._invoke_host_call. rewrite Hm. simpl.
  unfold mbind, St_mbind, St_bind. simpl.
  destruct (Async.call_func (invoke md)) as [v|e]; destruct (is_void md); simpl; try reflexivity.
  unfold Async.append_error, mbind, St_mbind, St_bind, gets. rewrite Hs. simpl.
  rewrite _append_never_raises. reflexivity.
Qed.

Lemma a_respond_outbound ci v er w :
  a_outbound (a_respond ci v er w) = a_outbound w ++ [HostResponse ci v er].
Proof. destruct w as [[? ? ? ? ? ? ? ? ? ? ? [] ?] ? ? ? ? ?]. reflexivity. Qed.

Lemma a_respond_stream_error ci v er o w :
  Async.stream_error o (a_respond ci v er w) = Async.stream_error o w.
Proof. destruct o, w as [[? ? ? ? ? ? ? ? ? ? ? [] ?] ? ? ? ? ?]; reflexivity. Qed.

Lemma a_record_error_outbound o es r w :
  a_outbound (a_record_error o es r w) = a_outbound w.
Proof. destruct o, w as [[? ? ? ? ? ? ? ? ? ? ? [] ?] ? ? ? ? ?]; reflexivity. Qed.

Lemma a_record_error_stream o es r w :
  Async.stream_error o w = Some es ->
  Async.stream_error o (a_record_error o es r w) = Some (Async._append es r).1.1.
Proof.
  destruct o as [|self], w as [[? ? ? ? ? ? ? ? ? ? ? [] ?] ps ? ? ? ?]; simpl; [reflexivity|].
  destruct (ps !! self) as [p|] eqn:Hp; [|discriminate]. intros _.
  rewrite lookup_alter_eq, Hp. simpl. destruct p; reflexivity.
Qed.

Lemma on_host_call_eq core self pid ci mi mp w p md s :
  Sync.pipelines w !! self = Some p ->
  Sync.get_host_method_of core (s_host p w) mi mp = Ok md ->
  Sync.Pipeline.streams p !! "error" = Some s ->
  Sync._on_host_call core self {| pipeline_id := pid; body := PipelineHostCallEvent ci mi mp |} w =
    match Sync.call_func (invoke md) with
    | Ok v => if is_void md then (w, Returned ())
              else (s_respond ci v None w, Returned ())
    | Raise e =>
        if is_void md
        then Sync.stop_with Sync.event_wait_here self
               (s_record_error self s (Sync.host_error_record core e mi) w)
        else (s_respond ci VNone (Some (Sync.host_error_record core e mi)) w, Returned ())
    end.
Proof.
  intros Hp Hm Hs. unfold Sync._on_host_call, Sync.get_pipeline. simpl.
  unfold mbind at 1, St_mbind, St_bind. rewrite Hp.
  unfold mbind at 1, St_mbind, St_bind, gets.
  fold (s_host p w). rewrite Hm. simpl.
  unfold mbind at 1, St_mbind, St_bind.
  destruct (Sync.call_func (invoke md)) as [v|e]; destruct (is_void md); simpl; try reflexivity.
  rewrite Hs. reflexivity.
Qed.

Lemma s_respond_outbound ci v er w :
  s_outbound (s_respond ci v er w) = s_outbound w ++ [HostResponse ci v er].
Proof. destruct w as [[[] ? ? ? ?] ? ? ? ? ? ?]. reflexivity. Qed.

Lemma s_respond_streams ci v er self w :
  s_streams self (s_respond ci v er w) = s_streams self w.
Proof. destruct w as [[[] ? ? ? ?] ? ? ? ? ? ?]. reflexivity. Qed.

#[local] Instance s_same_preorder self : PreOrder (s_same self).
Proof.
  split.
  - intros w. split; reflexivity.
  - intros a b c [A1 A2] [B1 B2]. split; congruence.
Qed.

Lemma s_same_stop self : frames (s_same self) (Sync.stop_with Sync.event_wait_here self).
Proof.
  assert (Hother : forall f,
    (forall w, Sync.pool (f w) = Sync.pool w /\ Sync.pipelines (f w) = Sync.pipelines w) ->
    forall w, s_same self w (f w)).
  { intros f Hf w. destruct (Hf w) as [H1 H2]. split.
    - unfold s_outbound. by rewrite H1.
    - unfold s_streams. by rewrite H2. }
  assert (Hpipe : forall r f, (forall p, Sync.Pipeline.streams (f p) = Sync.Pipeline.streams p) ->
    frames (s_same self) (Sync.modify_pipeline r f)).
  { intros r f Hf. apply (frames_modify (s_same self)). intros w. split.
    - destruct w; reflexivity.
    - unfold s_streams. destruct w as [? ps ? ? ? ? ?]; simpl.
      destruct (decide (self = r)) as [->|Hne].
      + rewrite lookup_alter_eq. destruct (ps !! r); simpl; [by rewrite Hf | done].
      + by rewrite lookup_alter_ne. }
  unfold Sync.stop_with, Sync.stop_async, Sync.PipelineTask_wait, Sync._new_task.
  repeat first
    [ apply (frames_ret (s_same self))
    | apply (frames_gets (s_same self))
    | apply Hpipe; intros []; reflexivity
    | (intros w w' r [= <- _]; apply (Hother (fun w => Sync.set_next_ref _ (Sync.set_stream_store _ w))); intros []; auto)
    | (intros w w' r [= <- _]; apply (Hother (fun w => Sync.set_next_ref _ (Sync.set_event_store _ w))); intros []; auto)
    | (apply (frames_modify (s_same self)); apply (Hother (fun w => Sync.set_effects _ w)); intros []; auto)
    | (intros w w' r; unfold Sync.get_pipeline; destruct (_ !! _); intros [= <- _]; reflexivity)
    | (intros w w' r; unfold Sync.event_wait_here; destruct (_ !! _) as [[]|]; intros [= <- _]; reflexivity)
    | apply (frames_bind (s_same self)); [| intros ?] ].
Qed.

Lemma s_record_error_outbound self s r w :
  s_outbound (s_record_error self s r w) = s_outbound w.
Proof. destruct w; reflexivity. Qed.

Lemma s_record_error_streams self s r w p :
  Sync.pipelines w !! self = Some p ->
  s_streams self (s_record_error self s r w) =
    Some (<["error" := Sync.append s (Sync.rec_error r)]> (Sync.Pipeline.streams p)).
Proof.
  intros Hp. unfold s_streams, s_record_error. destruct w as [? ps ? ? ? ? ?]; simpl in *.
  rewrite lookup_alter_eq, Hp. simpl. destruct p; reflexivity.
Qed.

Lemma sync_append_items s x :
  Sync.items (Sync.append s x) = if Sync._complete s then Sync.items s else Sync.items s ++ [x].
Proof. unfold Sync.append. destruct (Sync._complete s); reflexivity. Qed.

(** ** The waiters under the dispatcher *)

Local Open Scope nat_scope.

Lemma accepted_app h es1 es2 : accepted h (es1 ++ es2) = accepted h es1 + accepted h es2.
Proof.
  induction es1 as [|[| | |h' e []] es1 IH]; simpl; auto. rewrite IH. lia.
Qed.

Lemma accepted_fired h es : Forall is_fired es -> accepted h es = 0.
Proof.
  induction 1 as [|[] es Hx _ IH]; simpl; auto; destruct Hx.
Qed.

Lemma accepted_none h es :
  (forall e b, Async.SetCall h e b ∉ es) -> accepted h es = 0.
Proof.
  induction es as [|x es IH]; intros Hn; simpl; auto.
  assert (IH' : accepted h es = 0).
  { apply IH. intros e b Hin. apply (Hn e b). by right. }
  destruct x as [| | |h' e []]; auto.
  case_bool_decide; [|lia]. subst. exfalso. apply (Hn e true). by left.
Qed.

Lemma list_remove_spec (h : nat) l :
  h ∈ l -> NoDup l ->
  exists l', list_remove h l = Some l' /\ NoDup l' /\ (forall x, x ∈ l' <-> x ∈ l /\ x <> h).
Proof.
  induction l as [|y l IH]; intros Hin Hnd; [by apply elem_of_nil in Hin|].
  apply NoDup_cons in Hnd as [Hy Hnd]. simpl. case_bool_decide as Hd.
  - subst y. exists l. split; [done|]. split; [done|]. intros x. rewrite elem_of_cons.
    split; [intros Hx; split; [by right | by intros ->] | intros [[->|Hx] Hne]; done].
  - apply elem_of_cons in Hin as [->|Hin]; [done|].
    destruct (IH Hin Hnd) as (l' & -> & Hnd' & Hl'). exists (y :: l'). split; [done|].
    split.
    + apply NoDup_cons. split; [|done]. rewrite Hl'. tauto.
    + intros x. rewrite !elem_of_cons, Hl'. split.
      * intros [->|[Hx Hne]]; [split; [by left | congruence] | split; [by right | done]].
      * intros [[->|Hx] Hne]; [by left | right; done].
Qed.

Lemma result_handler_set o l w :
  (match o with Async.the_pool => True
   | Async.the_pipeline self => is_Some (Async.pipelines w !! self) end) ->
  Async.result_handler o (Async.set_result_handler o l w) = l.
Proof.
  destruct o as [|self], w as [[] ps ? ? ? ?]; simpl; [done|].
  intros [p Hp]. rewrite lookup_alter_eq, Hp. by destruct p.
Qed.

Lemma result_handler_set_ne o o' l w :
  o' <> o -> Async.result_handler o' (Async.set_result_handler o l w) = Async.result_handler o' w.
Proof.
  destruct o as [|self], o' as [|self'], w as [[] ps ? ? ? ?]; simpl; try done.
  intros Hne. rewrite lookup_alter_ne; [done | congruence].
Qed.

Lemma result_handler_some o h w :
  h ∈ Async.result_handler o w ->
  match o with Async.the_pool => True
  | Async.the_pipeline self => is_Some (Async.pipelines w !! self) end.
Proof.
  destruct o as [|self]; [done|]. simpl. destruct (_ !! self); [eauto|].
  intros H. by apply elem_of_nil in H.
Qed.

(** One pass of the loop over the waiters. *)
Lemma offer_sound o e : forall snapshot w,
  NoDup snapshot -> NoDup (Async.result_handler o w) ->
  (forall h, h ∈ snapshot -> h ∈ Async.result_handler o w) ->
  exists w' es,
    Async.offer o snapshot e w = (w', Returned ()) /\
    NoDup (Async.result_handler o w') /\
    (forall h, h ∈ Async.result_handler o w' -> h ∈ Async.result_handler o w) /\
    (forall o', o' <> o -> Async.result_handler o' w' = Async.result_handler o' w) /\
    Async.next_ref w' = Async.next_ref w /\
    Async.effects w' = Async.effects w ++ es /\
    (forall h x b, Async.SetCall h x b ∈ es -> h ∈ snapshot) /\
    (forall h, h ∉ Async.result_handler o w -> accepted h es = 0) /\
    (forall h, accepted h es <= 1) /\
    (forall h, accepted h es = 1 -> h ∉ Async.result_handler o w').
Proof.
  induction snapshot as [|h rest IH]; intros w Hsnap Hlive Hsub.
  { exists w, []. simpl. rewrite app_nil_r. repeat split; auto.
    - intros h x b Hin. by apply elem_of_nil in Hin.
    - intros h Hh. discriminate. }
  apply NoDup_cons in Hsnap as [Hh Hrest].
  assert (Hhl : h ∈ Async.result_handler o w) by (apply Hsub; by left).
  assert (Hrl : forall x, x ∈ rest -> x ∈ Async.result_handler o w) by (intros x Hx; apply Hsub; by right).
  simpl. unfold mbind at 1, St_mbind, St_bind, gets. simpl.
  destruct (Async.waiters w !! h) as [m|] eqn:Em.
  2:{ destruct (IH w Hrest Hlive Hrl) as (w' & es & E & H1 & H2 & H3 & H4 & H5 & H6 & H7 & H8 & H9).
      exists w', es. repeat split; auto. intros h' x b Hin. right. eauto. }
  unfold mbind at 1, St_mbind, St_bind, modify. simpl.
  unfold mbind at 1, St_mbind, St_bind, Async.emit, modify. simpl.
  set (w1 := Async.set_effects _ (Async.set_waiters _ w)).
  assert (Hw1 : forall o', Async.result_handler o' w1 = Async.result_handler o' w).
  { intros o'. unfold w1. destruct o', w; reflexivity. }
  assert (Hn1 : Async.next_ref w1 = Async.next_ref w) by (unfold w1; destruct w; reflexivity).
  assert (He1 : Async.effects w1 = Async.effects w ++ [Async.SetCall h e (Async.set m e).2]).
  { unfold w1. destruct w; reflexivity. }
  destruct (Async.set m e).2 eqn:Eb.
  - unfold mbind at 1, St_mbind, St_bind. unfold mbind at 1, St_mbind, St_bind, gets.
    rewrite Hw1.
    destruct (list_remove_spec h _ Hhl Hlive) as (l' & El & Hnd' & Hl').
    rewrite El. unfold modify.
    set (w2 := Async.set_result_handler o l' w1).
    assert (Hw2 : Async.result_handler o w2 = l').
    { unfold w2. apply result_handler_set. rewrite <- (Hw1 o) in Hhl.
      by eapply result_handler_some. }
    assert (Hw2' : forall o', o' <> o -> Async.result_handler o' w2 = Async.result_handler o' w).
    { intros o' Hne. unfold w2. rewrite result_handler_set_ne by done. apply Hw1. }
    assert (Hn2 : Async.next_ref w2 = Async.next_ref w).
    { unfold w2. rewrite <- Hn1. destruct o, w1 as [[] ? ? ? ? ?]; reflexivity. }
    assert (He2 : Async.effects w2 = Async.effects w1).
    { unfold w2. destruct o, w1 as [[] ? ? ? ? ?]; reflexivity. }
    destruct (IH w2 Hrest) as (w' & es & E & H1 & H2 & H3 & H4 & H5 & H6 & H7 & H8 & H9).
    { by rewrite Hw2. }
    { intros x Hx. rewrite Hw2, Hl'. split; [by apply Hrl | by intros ->]. }
    exists w', (Async.SetCall h e true :: es). rewrite E.
    assert (Hes : accepted h es = 0).
    { apply accepted_none. intros x b Hin. apply Hh. eauto. }
    repeat split; auto.
    + intros x Hx. apply H2 in Hx. rewrite Hw2, Hl' in Hx. tauto.
    + intros o' Hne. rewrite H3 by done. by apply Hw2'.
    + congruence.
    + rewrite H5, He2, He1, <- app_assoc. reflexivity.
    + intros h' x b Hin. apply elem_of_cons in Hin as [[= -> _ _]|Hin]; [by left | right; eauto].
    + intros h' Hh'. simpl. case_bool_decide; [subst h'; done|]. simpl. apply H7.
      rewrite Hw2, Hl'. tauto.
    + intros h'. simpl. case_bool_decide; [subst h'; lia | simpl; apply H8].
    + intros h'. simpl. case_bool_decide.
      * subst h'. intros _ Hin. apply H2 in Hin. rewrite Hw2, Hl' in Hin. tauto.
      * simpl. apply H9.
  - unfold mbind at 1, St_mbind, St_bind. simpl.
    destruct (IH w1 Hrest) as (w' & es & E & H1 & H2 & H3 & H4 & H5 & H6 & H7 & H8 & H9).
    { by rewrite Hw1. }
    { intros x Hx. rewrite Hw1. by apply Hrl. }
    exists w', (Async.SetCall h e false :: es). rewrite E.
    repeat split; auto.
    + intros x Hx. apply H2 in Hx. by rewrite Hw1 in Hx.
    + intros o' Hne. rewrite H3 by done. apply Hw1.
    + congruence.
    + rewrite H5, He1, <- app_assoc. reflexivity.
    + intros h' x b Hin. apply elem_of_cons in Hin as [[= -> _ _]|Hin]; [by left | right; eauto].
    + intros h' Hh'. simpl. apply H7. by rewrite Hw1.
Qed.

Lemma quiet_handlers w w' o :
  a_quiet w w' -> Async.result_handler o w' = Async.result_handler o w.
Proof.
  intros Q. destruct o as [|self]; simpl; [apply (quiet_pool_handlers _ _ Q)|].
  pose proof (quiet_pipelines _ _ Q self) as H.
  destruct H as [p p' [_ H]|]; done.
Qed.

Lemma not_fired_setcall h e b es : Forall is_fired es -> Async.SetCall h e b ∉ es.
Proof.
  intros HF Hin. rewrite Forall_forall in HF. apply (HF _ Hin).
Qed.

Lemma quiet_once h w w' : a_quiet w w' -> at_most_once h w -> at_most_once h w'.
Proof.
  intros Q ([N D A C] & H1 & H2).
  destruct (quiet_effects _ _ Q) as (es & Ee & Fe).
  assert (Hacc : accepted h (Async.effects w') = accepted h (Async.effects w)).
  { rewrite Ee, accepted_app, (accepted_fired _ _ Fe). lia. }
  split; [split|].
  - intros o. rewrite (quiet_handlers _ _ _ Q). apply N.
  - intros o o' x. rewrite !(quiet_handlers _ _ _ Q). apply D.
  - intros o x. rewrite (quiet_handlers _ _ _ Q), (quiet_next_ref _ _ Q). apply A.
  - intros x e b. rewrite Ee, (quiet_next_ref _ _ Q), elem_of_app.
    intros [Hin|Hin]; [by eapply C | by apply not_fired_setcall in Hin].
  - rewrite Hacc. split; [done|]. intros [o Ho]. apply H2. exists o.
    by rewrite <- (quiet_handlers _ _ _ Q).
Qed.

Lemma offer_once h o e w w' r :
  at_most_once h w ->
  Async.offer o (Async.result_handler o w) e w = (w', r) ->
  at_most_once h w'.
Proof.
  intros ([N D A C] & H1 & H2) E.
  destruct (offer_sound o e _ w (N o) (N o) (fun _ H => H))
    as (w'' & es & E' & O1 & O2 & O3 & O4 & O5 & O6 & O7 & O8 & O9).
  rewrite E in E'. injection E' as <- _.
  assert (Hsub : forall o' x, x ∈ Async.result_handler o' w' -> x ∈ Async.result_handler o' w).
  { intros o' x. destruct (decide (o' = o)) as [->|Hne]; [apply O2 | by rewrite O3]. }
  split; [split|].
  - intros o'. destruct (decide (o' = o)) as [->|Hne]; [done | rewrite O3 by done; apply N].
  - intros o1 o2 x Hx1 Hx2. eapply D; eauto.
  - intros o' x Hx. rewrite O4. eapply A; eauto.
  - intros x ev b. rewrite O5, O4, elem_of_app. intros [Hin|Hin]; [by eapply C|].
    eapply A, O6, Hin.
  - rewrite O5, accepted_app.
    destruct (decide (h ∈ Async.result_handler o w)) as [Hin|Hnin].
    + assert (H0 : accepted h (Async.effects w) = 0) by (apply H2; by exists o).
      rewrite H0. split; [apply O8|].
      intros [o' Ho']. pose proof (O8 h) as Hle.
      destruct (decide (accepted h es = 1)) as [H1'|]; [|lia].
      exfalso. assert (o' = o) as -> by (eapply D; eauto).
      by apply (O9 h H1').
    + rewrite (O7 h Hnin). split; [lia|]. intros [o' Ho'].
      rewrite Nat.add_0_r. apply H2. exists o'. eauto.
Qed.

Lemma deliver_cases core e w w' r :
  Async.deliver core e w = (w', r) ->
  a_quiet w w' \/
  exists w2 o, a_quiet w w2 /\
    exists r', Async.offer o (Async.result_handler o w2) e w2 = (w', r').
Proof.
  unfold Async.deliver, mbind at 1, St_mbind, St_bind, modify. simpl.
  pose proof (quiet_codec_receive e w) as Q1.
  revert Q1. generalize (Async.codec_receive e w). intros w1 Q1.
  unfold Async._event_received, mbind at 1, St_mbind, St_bind, gets.
  destruct (pipeline_id e) as [key|].
  - destruct (_ !! key) as [self|]; [|intros [= <- _]; by left].
    unfold Async.pipeline_event_received, mbind at 1, St_mbind, St_bind.
    destruct (Async.pipeline_handle_event core self e w1) as [w2 [q|x|]] eqn:Eh;
      pose proof (quiet_pipeline_handle_event _ _ _ _ _ _ Eh) as Q2.
    + unfold mbind at 1, St_mbind, St_bind, gets.
      unfold mbind at 1, St_mbind, St_bind.
      destruct (Async.offer _ _ e w2) as [w3 r3] eqn:Eo.
      intros H. right. exists w2, (Async.the_pipeline self). split; [by etrans|].
      exists r3. rewrite Eo. f_equal. destruct r3; by injection H.
    + intros [= <- _]. left. by etrans.
    + intros [= <- _]. left. by etrans.
  - unfold mbind at 1, St_mbind, St_bind.
    destruct (Async.pool_handle_event core e w1) as [w2 [q|x|]] eqn:Eh;
      pose proof (quiet_pool_handle_event _ _ _ _ _ Eh) as Q2.
    + unfold mbind at 1, St_mbind, St_bind, gets.
      unfold mbind at 1, St_mbind, St_bind.
      destruct (Async.offer _ _ e w2) as [w3 r3] eqn:Eo.
      intros H. right. exists w2, Async.the_pool. split; [by etrans|].
      exists r3. rewrite Eo. f_equal. destruct r3; by injection H.
    + intros [= <- _]. left. by etrans.
    + intros [= <- _]. left. by etrans.
Qed.

Lemma deliver_once core h e w :
  at_most_once h w -> at_most_once h (Async.deliver core e w).1.
Proof.
  intros H. destruct (Async.deliver core e w) as [w' r] eqn:E. simpl.
  destruct (deliver_cases _ _ _ _ _ E) as [Q|(w2 & o & Q & r' & Eo)].
  - by eapply quiet_once.
  - eapply offer_once; [eapply quiet_once; eauto | exact Eo].
Qed.

Lemma register_once h o event_type condition w :
  at_most_once h w -> at_most_once h (register o event_type condition w).1.
Proof.
  intros ([N D A C] & H1 & H2).
  unfold register, Async.new_waiter, Async.add_result_handler, mbind, St_mbind, St_bind, modify.
  simpl.
  set (w1 := Async.set_next_ref _ _).
  assert (Hw1 : forall o', Async.result_handler o' w1 = Async.result_handler o' w).
  { intros o'. unfold w1. destruct o', w; reflexivity. }
  assert (Hn1 : Async.next_ref w1 = S (Async.next_ref w)) by (unfold w1; destruct w; reflexivity).
  assert (He1 : Async.effects w1 = Async.effects w) by (unfold w1; destruct w; reflexivity).
  set (w2 := Async.set_result_handler o _ w1).
  assert (He2 : Async.effects w2 = Async.effects w).
  { rewrite <- He1. unfold w2. destruct o, w1 as [[] ? ? ? ? ?]; reflexivity. }
  assert (Hn2 : Async.next_ref w2 = S (Async.next_ref w)).
  { rewrite <- Hn1. unfold w2. destruct o, w1 as [[] ? ? ? ? ?]; reflexivity. }
  assert (Hne : forall o', o' <> o -> Async.result_handler o' w2 = Async.result_handler o' w).
  { intros o' Hne. unfold w2. rewrite result_handler_set_ne by done. apply Hw1. }
  assert (Ho : Async.result_handler o w2 = Async.result_handler o w ++ [Async.next_ref w] \/
               Async.result_handler o w2 = Async.result_handler o w).
  { unfold w2. destruct o as [|self].
    - left. rewrite result_handler_set by done. by rewrite Hw1.
    - destruct (Async.pipelines w1 !! self) as [p|] eqn:Ep.
      + left. rewrite result_handler_set by eauto. by rewrite Hw1.
      + right. rewrite <- (Hw1 (Async.the_pipeline self)).
        destruct w1 as [? ps ? ? ? ?]; simpl in *. rewrite lookup_alter_eq, Ep. done. }
  assert (Hfresh : forall o', Async.next_ref w ∉ Async.result_handler o' w).
  { intros o' Hin. apply A in Hin. lia. }
  assert (Hmem : forall o' x, x ∈ Async.result_handler o' w2 ->
            x ∈ Async.result_handler o' w \/ (o' = o /\ x = Async.next_ref w)).
  { intros o' x. destruct (decide (o' = o)) as [->|Hd]; [|rewrite Hne by done; auto].
    destruct Ho as [-> | ->]; [|auto]. rewrite elem_of_app, list_elem_of_singleton.
    intros [?|?]; auto. }
  split; [split|].
  - intros o'. destruct (decide (o' = o)) as [->|Hd]; [|rewrite Hne by done; apply N].
    destruct Ho as [-> | ->]; [|apply N]. apply NoDup_app. split; [apply N|].
    split; [|apply NoDup_singleton]. intros x Hx. rewrite list_elem_of_singleton.
    intros ->. by apply (Hfresh o).
  - intros o1 o2 x Hx1 Hx2.
    destruct (Hmem _ _ Hx1) as [H1'|[-> ->]], (Hmem _ _ Hx2) as [H2'|[-> Hx]]; try done.
    + eapply D; eauto.
    + subst x. by apply Hfresh in H1'.
    + by apply Hfresh in H2'.
  - intros o' x Hx. rewrite Hn2. destruct (Hmem _ _ Hx) as [Hx'|[_ ->]]; [|lia].
    apply A in Hx'. lia.
  - intros x ev b. rewrite He2, Hn2. intros Hin. apply C in Hin. lia.
  - rewrite He2. split; [done|]. intros [o' Ho'].
    destruct (Hmem _ _ Ho') as [Hx|[-> ->]]; [apply H2; by exists o'|].
    apply accepted_none. intros ev b Hin. apply C in Hin. lia.
Qed.


Local Close Scope nat_scope.

(** * The claims *)

(** ** C1: [had_errors] *)

Lemma async_had_errors_iff (p : Async.AsyncPipeline.t) :
  Async.had_errors p = true <->
  Async.items (Async.AsyncPipeline.stream_error p) <> [].
Proof.
  unfold Async.had_errors, Async.len. rewrite bool_decide_eq_true.
  destruct (Async.items _); simpl; split; try done; lia.
Qed.

Lemma sync_had_errors_iff (p : Sync.Pipeline.t) :
  Sync.had_errors p = true <-> Sync.state p = PSInvocationState.Failed.
Proof. unfold Sync.had_errors. apply bool_decide_eq_true. Qed.

(** C1.  In the sync facade [had_errors] is read from the state of the
    pipeline, not from its error stream: after a pipeline has failed with
    nothing on its error stream [had_errors] is true, and while a record
    sits on the error stream of a running pipeline it is false. *)
Theorem sync_had_errors_reads_state :
  sync_had_errors sync_failed.1 = Some true /\
  sync_error_items sync_failed.1 = Some [] /\
  sync_had_errors sync_void_failure.1 = Some false /\
  sync_state sync_void_failure.1 = Some PSInvocationState.Running /\
  sync_error_items sync_void_failure.1 =
    Some [Sync.rec_error (Sync.host_error_record core_any (Exn "OSError" "boom")
                            HostMethodIdentifier.WriteLine2)].
Proof. vm_compute. repeat split. Qed.

(** ** C2: the outcomes of a host call *)


Lemma async_host_call_outcome core host ci mi mp o w md es :
  get_host_method core host mi mp = Ok md ->
  Async.stream_error o w = Some es ->
  a_host_call_outcome core ci mi md o es w (Async._invoke_host_call core host ci mi mp o w).
Proof.
  intros Hm Hs. rewrite (invoke_host_call_eq _ _ _ _ _ _ _ _ _ Hm Hs).
  unfold a_host_call_outcome.
  destruct (Async.call_func (invoke md)) as [v|e]; destruct (is_void md); simpl.
  - reflexivity.
  - by rewrite a_respond_outbound, a_respond_stream_error.
  - rewrite a_record_error_outbound, (a_record_error_stream _ _ _ _ Hs).
    split; [done|]. split; [done|]. eexists. split; [reflexivity|]. apply _append_items.
  - by rewrite a_respond_outbound, a_respond_stream_error.
Qed.

Lemma sync_host_call_outcome core self pid ci mi mp w p md s :
  Sync.pipelines w !! self = Some p ->
  Sync.get_host_method_of core (s_host p w) mi mp = Ok md ->
  Sync.Pipeline.streams p !! "error" = Some s ->
  s_host_call_outcome core ci mi md self (Sync.Pipeline.streams p) s w
    (Sync._on_host_call core self
       {| pipeline_id := pid; body := PipelineHostCallEvent ci mi mp |} w).
Proof.
  intros Hp Hm Hs. rewrite (on_host_call_eq _ _ _ _ _ _ _ _ _ _ Hp Hm Hs).
  unfold s_host_call_outcome.
  assert (Hst : s_streams self w = Some (Sync.Pipeline.streams p)).
  { unfold s_streams. by rewrite Hp. }
  destruct (Sync.call_func (invoke md)) as [v|e]; destruct (is_void md); simpl.
  - reflexivity.
  - by rewrite s_respond_outbound, s_respond_streams.
  - destruct (Sync.stop_with _ _ _) as [w' r] eqn:E. simpl.
    destruct (s_same_stop _ _ _ _ E) as [O S].
    rewrite O, S, s_record_error_outbound, (s_record_error_streams _ _ _ _ _ Hp).
    split; [done|]. eexists. split; [reflexivity|]. apply sync_append_items.
  - by rewrite s_respond_outbound, s_respond_streams.
Qed.




(** ** C3: the waiters *)

Lemma set_accepts m e :
  (Async.set m e).2 =
    isinstance e (Async._event_type m)
    && match Async._condition m with Some condition => condition e | None => true end.
Proof. unfold Async.set. by destruct (_ && _). Qed.

(** A waiter without a condition takes the same event twice: both calls
    of [set] return true. *)
Lemma set_accepts_twice :
  ~ (forall m e1 e2,
       (Async.set m e1).2 = true -> (Async.set (Async.set m e1).1 e2).2 = false).
Proof.
  intros H.
  specialize (H (Async.MessageResult_new PipelineStateEvent_t None)
                state_completed state_completed eq_refl).
  discriminate H.
Qed.

Lemma async_pool_result_handler host :
  Async.AsyncRunspacePool._result_handler (async_pool host) = [].
Proof.
  unfold async_pool, Async.AsyncRunspacePool_init. simpl.
  by destruct (host_info_of core_any host).
Qed.

(** For a host without a raw ui, and without a host, the pools of the
    scenarios are what the constructors return. *)
Lemma scenario_pools_are_constructed (host : option PSHost) :
  (forall h u, host = Some h -> ui h = Some u -> raw_ui u = None) ->
  Async.AsyncRunspacePool_init core_any 1 5 host 5 = Ok (async_pool host) /\
  Sync.RunspacePool_init core_any 1 5 host 5 = Ok (sync_pool host).
Proof.
  intros H. unfold async_pool, sync_pool.
  assert (E : is_ok (host_info_of core_any host) = true).
  { destruct host as [h|]; [|reflexivity]. unfold host_info_of, get_host_info. simpl.
    destruct (ui h) as [u|] eqn:Eu; [|reflexivity].
    by rewrite (H h u eq_refl Eu). }
  unfold Async.AsyncRunspacePool_init, Sync.RunspacePool_init. simpl.
  by destruct (host_info_of core_any host).
Qed.

Lemma registered_once_fresh host inbox : registered_once (async_world host inbox).
Proof.
  assert (E : forall o, Async.result_handler o (async_world host inbox) = []).
  { intros [|self]; [apply async_pool_result_handler|]. simpl. by rewrite lookup_empty. }
  split.
  - intros o. rewrite E. apply NoDup_nil_2.
  - intros o o' h. rewrite E. intros Hin. by apply elem_of_nil in Hin.
  - intros o h. rewrite E. intros Hin. by apply elem_of_nil in Hin.
  - intros h e b Hin. by apply elem_of_nil in Hin.
Qed.

(** C3, amended.  [set] returns true for every event of the declared kind
    that meets the condition, also after it has returned true.  It is the
    dispatcher that makes a waiter one-shot: it takes the waiter off the
    pending list at the first call that returns true.  From a state where
    every waiter is registered once, whatever events are delivered and
    whatever waiters are registered, at most one call of [set] on a given
    waiter returns true. *)
Theorem waiters_resolve_once core h w w' :
  registered_once w ->
  accepted h (Async.effects w) = 0%nat ->
  rtc (dispatch_step core) w w' ->
  (accepted h (Async.effects w') <= 1)%nat.
Proof.
  intros Hr H0 Hsteps.
  assert (Hi : at_most_once h w) by (split; [done | split; [lia | done]]).
  clear Hr H0. induction Hsteps as [w|w w1 w2 Hstep _ IH]; [apply Hi|].
  apply IH. destruct Hstep; [by apply deliver_once | by apply register_once].
Qed.

Lemma waiters_resolve_once_witness :
  registered_once (async_world None []) /\
  accepted 0 (Async.effects (async_world None [])) = 0%nat /\
  (accepted 0 (Async.effects async_twice) <= 1)%nat /\
  Async.effects async_twice = [Async.SetCall 0 state_completed true].
Proof.
  split; [apply registered_once_fresh|]. split; [reflexivity|]. split; [|reflexivity].
  apply (waiters_resolve_once core_any 0%nat (async_world None [])).
  - apply registered_once_fresh.
  - reflexivity.
  - eapply rtc_l; [apply (step_register _ Async.the_pool PipelineStateEvent_t None)|].
    eapply rtc_l; [apply (step_deliver _ state_completed)|].
    eapply rtc_l; [apply (step_deliver _ state_completed)|].
    apply rtc_refl.
Defined.

(** ** C4: a completed collection *)

(** On a completed async collection the append of the dispatcher changes
    nothing and calls no subscriber, and the append and the insert of the
    application raise the closed-buffer error. *)
Lemma async_completed_collection_drops_or_refuses {T}
    (c : Async.AsyncPSDataCollection T) (v : T) (index : Z) :
  Async.completed c = true ->
  Async._append c v = (c, [], None) /\
  Async.len (Async._append c v).1.1 = Async.len c /\
  Async.append c v = Raise Async.closed_buffer /\
  Async.insert c index v = Raise Async.closed_buffer.
Proof.
  intros Hc. unfold Async._append, Async.append, Async.insert. rewrite Hc. done.
Qed.

(** [finalize] of a sync stream that has not been read to its end only
    queues the end marker: an append after it still adds the value. *)
Lemma sync_append_after_finalize (s : Sync.PSDataStream) (r : Sync.record) :
  Sync._complete s = false ->
  Sync._complete (Sync.finalize s) = false /\
  Sync.items (Sync.append (Sync.finalize s) r) = Sync.items s ++ [r].
Proof.
  intros Hc. unfold Sync.finalize. rewrite Hc. simpl. split; [done|].
  unfold Sync.append. simpl. reflexivity.
Qed.

(** C4.  The sync stream does not keep to this.  After [finalize] an
    append still adds the value: the stream with the value 1 holds 1 and 2.
    Only after the stream has been read to its end is an append dropped,
    and then without an error, whoever makes it; an insert puts the value
    in even then.  The async collection that has been completed with the
    same value refuses the append and the insert of the application and
    drops the append of the dispatcher. *)
Theorem sync_stream_takes_appends_after_finalize :
  let one := Sync.rec_value (VInt 1) in
  let two := Sync.rec_value (VInt 2) in
  let s := Sync.finalize (Sync.append Sync.PSDataStream_new one) in
  let c := (Async.complete (Async.AsyncPSDataCollection_new [VInt 1] false)).1 in
  Sync.items (Sync.append s two) = [one; two] /\
  (exists s', sync_read_stream = Some s' /\
     Sync._complete s' = true /\
     Sync.append s' two = s' /\
     Sync.items (Sync.insert s' 0 two) = two :: Sync.items s') /\
  Async.completed c = true /\
  Async._append c (VInt 2) = (c, [], None) /\
  Async.append c (VInt 2) = Raise Async.closed_buffer /\
  Async.insert c 0 (VInt 2) = Raise Async.closed_buffer.
Proof.
  intros one two s c. split; [reflexivity|]. split.
  - eexists. split; [reflexivity|]. vm_compute. repeat split.
  - split; [reflexivity|].
    destruct (async_completed_collection_drops_or_refuses c (VInt 2) 0 eq_refl)
      as (H1 & _ & H2 & H3).
    by repeat split.
Qed.

(** ** C5: the end of [invoke] *)

(** In the async facade, awaiting the task of [invoke] translates the
    state that ended the wait: [Failed] raises [PipelineFailed] and
    [Stopped] raises [PipelineStopped], with the reason of the peer or the
    fixed text, and any other state returns the collected output, which is
    empty when the caller gave an output stream. *)
Lemma async_invoke_translates_final_state core self input_data output_stream buffer_input
    w p w0 task w1 state st reason :
  Async.pipelines w !! self = Some p ->
  Async.invoke_async core self input_data output_stream None buffer_input w
    = (w0, Returned task) ->
  Async.await core (Async.task_event task) w0 = (w1, Returned state) ->
  body state = PipelineStateEvent st reason ->
  exists p1,
    Async.pipelines w1 !! self = Some p1 /\
    (Async.invoke core self input_data output_stream buffer_input w).2 =
      translated st reason (Async.AsyncPipeline._explicit_output p1)
        (Async.items (Async.AsyncPipeline._stream_output p1)) /\
    (is_Some output_stream -> Async.AsyncPipeline._explicit_output p1 = true).
Proof.
  intros Hp Hi Ha Hb.
  destruct (invoke_async_returned _ _ _ _ _ _ _ _ _ (mk_is_Some _ _ Hp) Hi)
    as (Hself & Hcompleted & Ht & Hm).
  pose proof (await_waits _ _ _ _ _ Ha) as [P _ T].
  pose proof (tabled_keeps _ _ _ P T Ht) as Ht1.
  pose proof Ht1 as (p1 & Hp1 & _). exists p1. split; [done|]. split.
  - unfold Async.invoke, mbind, St_mbind, St_bind. rewrite Hi.
    rewrite <- Hself in Ht1, Hp1.
    rewrite (pipelines_task_finish_eq _ _ _ _ _ _ Hcompleted Ha Ht1 Hp1).
    by apply translate_state_translated.
  - intros Ho. destruct (pres_marked _ _ _ P (Hm Ho)) as (p1' & Hp1' & He). congruence.
Qed.

(** C5.  The sync [invoke] does not translate the final state.  A script
    is invoked and the peer reports the state [Failed], or [Stopped] with a
    reason: the sync [invoke] returns the output stream (the object 1) and
    the pipeline is in that state, where the async [invoke] of the same
    pipeline raises [PipelineFailed] with the fixed text, or
    [PipelineStopped] with the reason. *)
Theorem sync_invoke_returns_after_failure :
  let failed := [ev (Some 7) (PipelineStateEvent PSInvocationState.Failed None)] in
  let reason :=
    {| Exception := {| Message := "stopped by the user" |};
       FullyQualifiedErrorId := "PipelineStopped";
       CategoryInfo := {| Reason := "PipelineStoppedException" |} |} in
  let stopped :=
    [ev (Some 7) (PipelineStateEvent PSInvocationState.Stopped (Some reason))] in
  let sync_invoke inbox :=
    Sync.invoke core_any 0 None None true (sync_pipeline_world None inbox) in
  let async_invoke inbox :=
    Async.invoke core_any 0 None None true (async_pipeline_world None inbox) in
  (sync_invoke failed).2 = Returned (Some 1%nat) /\
  sync_state (sync_invoke failed).1 = Some PSInvocationState.Failed /\
  (async_invoke failed).2 = Raised (Exn "PipelineFailed" "Unknown failure.") /\
  (sync_invoke stopped).2 = Returned (Some 1%nat) /\
  sync_state (sync_invoke stopped).1 = Some PSInvocationState.Stopped /\
  (async_invoke stopped).2 = Raised (Exn "PipelineStopped" "stopped by the user").
Proof.
  intros failed reason stopped sync_invoke async_invoke.
  split; [vm_compute; reflexivity|].
  split; [vm_compute; reflexivity|].
  split; [vm_compute; reflexivity|].
  split; [vm_compute; reflexivity|].
  split; vm_compute; reflexivity.
Qed.

(** ** C6: the bounds of a pool *)

Lemma async_pool_init_refuses core min_runspaces max_runspaces host runspace_pool_id :
  min_runspaces < 1 \/ max_runspaces < min_runspaces ->
  Async.AsyncRunspacePool_init core min_runspaces max_runspaces host runspace_pool_id =
    Raise Async.config_invalid.
Proof.
  intros H. unfold Async.AsyncRunspacePool_init.
  destruct (Z.ltb_spec min_runspaces 1), (Z.ltb_spec max_runspaces min_runspaces);
    simpl; try done; lia.
Qed.

(** Within the bounds the async constructor does what
    [host.get_host_info()] does: it returns a pool with the bounds, or it
    raises what the host raised. *)
Lemma async_pool_init_accepts core min_runspaces max_runspaces host runspace_pool_id :
  1 <= min_runspaces <= max_runspaces ->
  match host_info_of core host with
  | Ok host_info =>
      exists p,
        Async.AsyncRunspacePool_init core min_runspaces max_runspaces host
          runspace_pool_id = Ok p /\
        Async.min_runspaces p = min_runspaces /\ Async.max_runspaces p = max_runspaces
  | Raise e =>
      Async.AsyncRunspacePool_init core min_runspaces max_runspaces host
        runspace_pool_id = Raise e
  end.
Proof.
  intros H. unfold Async.AsyncRunspacePool_init.
  destruct (Z.ltb_spec min_runspaces 1), (Z.ltb_spec max_runspaces min_runspaces);
    simpl; try lia.
  destruct (host_info_of core host); simpl; [|reflexivity].
  eexists. split; [reflexivity|]. done.
Qed.

(** C6.  The constructor of the sync pool checks no bounds.  Whatever the
    bounds are, it does what [host.get_host_info()] does: when that
    returns (or there is no host) it returns a pool with the bounds it was
    given, and when that raises it raises the same.  So without a host it
    returns a pool with [min_runspaces = 0] and [max_runspaces = -1],
    where the constructor of the async pool raises [ValueError], for every
    host and before it asks the host for anything. *)
Theorem sync_pool_init_takes_any_bounds core min_runspaces max_runspaces host
    runspace_pool_id :
  match host_info_of core host with
  | Ok host_info =>
      exists p,
        Sync.RunspacePool_init core min_runspaces max_runspaces host runspace_pool_id
          = Ok p /\
        Sync.min_runspaces p = min_runspaces /\ Sync.max_runspaces p = max_runspaces /\
        ClientRunspacePool.host (Sync.RunspacePool.pool p) = host_info
  | Raise e =>
      Sync.RunspacePool_init core min_runspaces max_runspaces host runspace_pool_id
        = Raise e
  end /\
  (exists p, Sync.RunspacePool_init core 0 (-1) None runspace_pool_id = Ok p /\
     Sync.min_runspaces p = 0 /\ Sync.max_runspaces p = -1) /\
  Async.AsyncRunspacePool_init core 0 (-1) host runspace_pool_id =
    Raise Async.config_invalid /\
  Async.AsyncRunspacePool_init core 0 (-1) None runspace_pool_id =
    Raise Async.config_invalid.
Proof.
  split; [|split; [|split]].
  - unfold Sync.RunspacePool_init.
    destruct (host_info_of core host); simpl; [|reflexivity].
    eexists. split; [reflexivity|]. done.
  - eexists. split; [reflexivity|]. done.
  - reflexivity.
  - reflexivity.
Qed.

(** ** C8: a host without the sub-object of the method *)

Lemma get_host_method_absent core host mi mp :
  subtree_absent host mi = true ->
  get_host_method core host mi mp = Ok (not_implemented mi).
Proof.
  unfold subtree_absent, get_host_method, not_implemented, resolve.
  destruct (method_table mi) as [[name void] []]; simpl; [done|..].
  - by destruct (ui host).
  - destruct (ui host) as [u|]; [|done]. by destruct (raw_ui u).
Qed.

(** The void method [WriteLine2] is called on a host without [ui]: the
    error stream of the pool is not as it was. *)
Lemma void_call_without_ui_leaves_a_record :
  ~ (forall core host ci mi mp o w,
       subtree_absent host mi = true ->
       (method_table mi).1.2 = true ->
       Async.stream_error o (Async._invoke_host_call core host ci mi mp o w).1 =
         Async.stream_error o w).
Proof.
  intros H.
  specialize (H core_any host_bare (-100) HostMethodIdentifier.WriteLine2 [VStr "x"]
                Async.the_pool (async_world (Some host_bare) []) eq_refl eq_refl).
  vm_compute in H. discriminate H.
Qed.

(** C8, amended.  A host call that the async facade hands to
    [_invoke_host_call], for the pool or for a pipeline, or that a pipeline
    of the sync facade hands to [_on_host_call]: when the sub-object of the
    method is missing on the host, the method is taken as not found and the
    call of it fails inside the handler ([TypeError] in the async facade,
    [NotImplementedError] in the sync facade).  For a method that returns a
    value one response with the error record is queued.  For a void method
    no response is queued and the error record is appended to the error
    stream, unless the stream is completed.  (The pool of the sync facade
    has no handler for a host call; the statement does not speak of it.) *)
Theorem absent_subtree_is_reported core ci mi mp host o wa es self pid ws p s :
  subtree_absent host mi = true ->
  Async.stream_error o wa = Some es ->
  Sync.pipelines ws !! self = Some p ->
  s_host p ws = Some host ->
  Sync.Pipeline.streams p !! "error" = Some s ->
  let ra := Async.host_error_record core
              (Exn "TypeError" "'NoneType' object is not callable") mi in
  let rs := Sync.host_error_record core (Exn "NotImplementedError" "") mi in
  let resa := Async._invoke_host_call core host ci mi mp o wa in
  let ress := Sync._on_host_call core self
                {| pipeline_id := pid; body := PipelineHostCallEvent ci mi mp |} ws in
  get_host_method core host mi mp = Ok (not_implemented mi) /\
  if (method_table mi).1.2 then
    (resa.2 = Returned false /\ a_outbound resa.1 = a_outbound wa /\
     exists es', Async.stream_error o resa.1 = Some es' /\
       Async.items es' =
         if Async.completed es then Async.items es else Async.items es ++ [ra]) /\
    (s_outbound ress.1 = s_outbound ws /\
     exists s', s_streams self ress.1 = Some (<["error" := s']> (Sync.Pipeline.streams p)) /\
       Sync.items s' =
         if Sync._complete s then Sync.items s else Sync.items s ++ [Sync.rec_error rs])
  else
    (resa.2 = Returned true /\
     a_outbound resa.1 = a_outbound wa ++ [HostResponse ci VNone (Some ra)]) /\
    (ress.2 = Returned () /\
     s_outbound ress.1 = s_outbound ws ++ [HostResponse ci VNone (Some rs)]).
Proof.
  intros Ha Hes Hp Hh Hs ra rs resa ress.
  pose proof (get_host_method_absent core _ _ mp Ha) as Hm. split; [exact Hm|].
  pose proof (async_host_call_outcome core _ ci _ _ _ _ _ _ Hm Hes) as Oa.
  assert (Hms : Sync.get_host_method_of core (s_host p ws) mi mp = Ok (not_implemented mi)).
  { rewrite Hh. exact Hm. }
  pose proof (sync_host_call_outcome core _ pid ci _ _ _ _ _ _ Hp Hms Hs) as Os.
  unfold a_host_call_outcome in Oa. unfold s_host_call_outcome in Os.
  simpl in Oa, Os. fold resa in Oa. fold ress in Os. fold ra in Oa. fold rs in Os.
  destruct (method_table mi).1.2.
  - split; [exact Oa | exact Os].
  - destruct Oa as (A1 & A2 & _), Os as (S1 & S2 & _). done.
Qed.

Lemma absent_subtree_is_reported_witness :
  let wa := async_world (Some host_bare) [] in
  let ws := sync_pipeline_world (Some host_bare) [] in
  subtree_absent host_bare HostMethodIdentifier.WriteLine2 = true /\
  (async_void_call host_bare wa).2 = Returned false /\
  a_outbound (async_void_call host_bare wa).1 = [] /\
  async_pool_errors (async_void_call host_bare wa).1 =
    [Async.host_error_record core_any (Exn "TypeError" "'NoneType' object is not callable")
       HostMethodIdentifier.WriteLine2] /\
  s_outbound (sync_void_call ws).1 = [] /\
  sync_error_items (sync_void_call ws).1 =
    Some [Sync.rec_error
            (Sync.host_error_record core_any (Exn "NotImplementedError" "")
               HostMethodIdentifier.WriteLine2)].
Proof.
  intros wa ws. split; [reflexivity|].
  epose proof (absent_subtree_is_reported core_any (-100) HostMethodIdentifier.WriteLine2
                 [VStr "x"] host_bare Async.the_pool wa _ 0%nat (Some 7) ws _ _
                 eq_refl eq_refl eq_refl eq_refl eq_refl) as [_ H].
  change ((method_table HostMethodIdentifier.WriteLine2).1.2) with true in H.
  cbv beta iota zeta in H.
  destruct H as [(Hr & Ho & es' & He & Hi') (Hso & s' & Hst & Hsi)].
  split; [exact Hr|]. split; [exact Ho|]. split.
  - unfold async_pool_errors. change (Async.stream_error Async.the_pool ?w)
      with (Some (Async.AsyncRunspacePool.stream_error (Async.pool w))) in He.
    injection He as <-. exact Hi'.
  - split; [exact Hso|]. unfold sync_error_items, sync_void_call, ev.
    unfold s_streams in Hst.
    destruct (Sync.pipelines _ !! 0%nat) as [p'|]; [|discriminate Hst].
    injection Hst as Hst. simpl. rewrite Hst, lookup_insert_eq. simpl.
    by rewrite Hsi.
Defined.

(** ** C9: the availability operations *)

Lemma async_availability_short_circuit core codec_call w :
  (codec_call (Async.AsyncRunspacePool._pool (Async.pool w))).2 = None ->
  exists w',
    Async.set_runspace_availability core codec_call w = (w', Returned true) /\
    Async.effects w' = Async.effects w /\ Async.waiters w' = Async.waiters w.
Proof.
  intros H. unfold Async.set_runspace_availability, mbind, St_mbind, St_bind, gets. simpl.
  rewrite H. simpl. eexists. split; [reflexivity|]. by destruct w.
Qed.

Lemma sync_availability_short_circuit core codec_call w :
  (codec_call (Sync.RunspacePool.pool (Sync.pool w))).2 = None ->
  exists w',
    Sync.set_runspace_availability core codec_call w = (w', Returned true) /\
    Sync.effects w' = Sync.effects w.
Proof.
  intros H. unfold Sync.set_runspace_availability, mbind, St_mbind, St_bind, gets. simpl.
  rewrite H. simpl. eexists. split; [reflexivity|]. by destruct w.
Qed.

(** C9.  In the sync facade the wait of an availability operation ends on
    any event stored under the call id.  After host call 1 of an earlier
    pipeline, the operation with call id 1 does not wait for the answer of
    the peer, which stays unread, and fails on the stored host call; the
    async facade waits for the answer and returns its flag. *)
Theorem sync_availability_takes_stale_host_call :
  sync_availability.2 = Raised (Exn "AttributeError" "success") /\
  Sync.inbox sync_availability.1 = [ev None (SetRunspaceAvailabilityEvent 1 true)] /\
  async_availability.2 = Returned true /\
  Async.inbox async_availability.1 = [].
Proof. vm_compute. repeat split. Qed.

(** ** C10: the fluent builders *)

(** In the async facade a builder returns the instance, unless the codec
    pipeline refuses the call. *)
Lemma async_builder_returns_self core self c w p :
  Async.pipelines w !! self = Some p ->
  (Async.builder core self c w).2 =
    match builder_error core (ClientPipeline.calls (Async.AsyncPipeline._pipeline p)) c with
    | Some e => Raised e
    | None => Returned self
    end.
Proof.
  intros Hp.
  unfold Async.builder, Async.get_pipeline, ClientPipeline.add_call,
    mbind, St_mbind, St_bind, lift.
  rewrite Hp. simpl.
  destruct (builder_error core _ c); [reflexivity|].
  by destruct (Async.AsyncPipeline._pipeline p).
Qed.

(** C10.  In the sync facade [add_command] returns [None], and
    [add_argument], [add_parameter] and [add_parameters] are not defined;
    [add_script] and [add_statement] return the instance. *)
Theorem sync_add_command_returns_none :
  sync_built (fun ps => Sync.add_command core_any ps (VStr "Get-Item") None) = Returned None /\
  sync_built (fun ps => Sync.add_script core_any ps "Get-Item" None) = Returned (Some 0%nat) /\
  sync_built (fun ps => Sync.add_statement core_any ps) = Returned (Some 0%nat) /\
  sync_built (fun ps => Sync.add_argument ps (VInt 1)) =
    Raised (Exn "AttributeError" "'PowerShell' object has no attribute 'add_argument'") /\
  sync_built (fun ps => Sync.add_parameter ps "Path" (VStr ".")) =
    Raised (Exn "AttributeError" "'PowerShell' object has no attribute 'add_parameter'") /\
  sync_built (fun ps => Sync.add_parameters ps [("Path", VStr ".")]) =
    Raised (Exn "AttributeError" "'PowerShell' object has no attribute 'add_parameters'").
Proof. vm_compute. repeat split. Qed.

(** * More of the three files *)

(** ** [psrp/_host.py] *)

Lemma adapt_parameters_raises core mi mp e :
  adapt_parameters core mi mp = Raise e -> converts_parameters mi = true.
Proof. destruct mi; simpl; try discriminate; reflexivity. Qed.

Lemma get_host_method_not_found core host mi mp :
  found host mi = None ->
  get_host_method core host mi mp = Ok {| is_void := (method_table mi).1.2; invoke := None |}.
Proof.
  unfold found, get_host_method. destruct (method_table mi) as [[name void] ht]. simpl.
  by intros ->.
Qed.

(** [get_host_method] raises only while it converts the parameters: the
    method is one of the six setters whose parameters are converted, it is
    found on the host, and the conversion raises.  A method that is not
    found gives metadata without a callable whatever the parameters are. *)
Theorem get_host_method_raises_in_conversion core host mi mp e :
  get_host_method core host mi mp = Raise e ->
  converts_parameters mi = true /\
  is_Some (found host mi) /\
  adapt_parameters core mi mp = Raise e.
Proof.
  unfold found, get_host_method. destruct (method_table mi) as [[name void] ht]. simpl.
  destruct (resolve host name ht) as [f|]; [|discriminate].
  destruct (adapt_parameters core mi mp) as [mp'|e'] eqn:E; [discriminate|].
  intros [= <-]. split; [by eapply adapt_parameters_raises | by split].
Qed.

Lemma get_host_method_raises_in_conversion_witness :
  get_host_method core_any host_raw HostMethodIdentifier.SetCursorPosition [] =
    Raise (Exn "IndexError" "list index out of range") /\
  converts_parameters HostMethodIdentifier.SetCursorPosition = true /\
  is_Some (found host_raw HostMethodIdentifier.SetCursorPosition).
Proof.
  split; [reflexivity|].
  destruct (get_host_method_raises_in_conversion core_any host_raw
              HostMethodIdentifier.SetCursorPosition [] _ eq_refl) as (H1 & H2 & _).
  by split.
Defined.

(** Every name in the table of [get_host_method] is a method of the class
    of its host object, but for [PromptForCredential1]: the table has
    [prompt_for_credential1] and [PSHostUI] defines
    [prompt_for_credential]. *)
Theorem table_names_are_class_methods mi :
  bool_decide ((method_table mi).1.1 ∈ class_methods (method_table mi).2) =
  negb (bool_decide (mi = HostMethodIdentifier.PromptForCredential1)).
Proof. destruct mi; vm_compute; reflexivity. Qed.

(** On a host whose [ui] has the methods of [PSHostUI] and no other, the
    host call [PromptForCredential1] is never found, whether or not
    [prompt_for_credential] is implemented, and the async facade answers
    the peer with the error record of the failed call. *)
Theorem prompt_for_credential1_is_not_found core host u ci mp o w es :
  ui host = Some u ->
  of_class PSHostUI_methods (ui_methods u) ->
  Async.stream_error o w = Some es ->
  let res := Async._invoke_host_call core host ci
               HostMethodIdentifier.PromptForCredential1 mp o w in
  get_host_method core host HostMethodIdentifier.PromptForCredential1 mp =
    Ok {| is_void := false; invoke := None |} /\
  res.2 = Returned true /\
  a_outbound res.1 =
    a_outbound w ++
      [HostResponse ci VNone
         (Some (Async.host_error_record core
                  (Exn "TypeError" "'NoneType' object is not callable")
                  HostMethodIdentifier.PromptForCredential1))].
Proof.
  intros Hu Hc Hes res.
  assert (Hm : get_host_method core host HostMethodIdentifier.PromptForCredential1 mp =
               Ok {| is_void := false; invoke := None |}).
  { unfold get_host_method. simpl. rewrite Hu.
    destruct (ui_methods u "prompt_for_credential1") as [f|] eqn:E; [|done].
    exfalso. specialize (Hc _ (mk_is_Some _ _ E)).
    revert Hc. apply (bool_decide_eq_false_1 _). reflexivity. }
  split; [exact Hm|].
  pose proof (async_host_call_outcome core _ ci _ _ _ _ _ _ Hm Hes) as O.
  unfold a_host_call_outcome in O. simpl in O. fold res in O.
  destruct O as (O1 & O2 & _). by split.
Qed.

Lemma prompt_for_credential1_is_not_found_witness :
  let host := {| ui := Some ui_prompting; host_methods := fun _ => None |} in
  let w := async_world (Some host) [] in
  is_Some (ui_methods ui_prompting "prompt_for_credential") /\
  get_host_method core_any host HostMethodIdentifier.PromptForCredential1 [] =
    Ok {| is_void := false; invoke := None |} /\
  (Async._invoke_host_call core_any host 1 HostMethodIdentifier.PromptForCredential1 []
     Async.the_pool w).2 = Returned true.
Proof.
  intros host w. split; [by eexists|].
  assert (Hc : of_class PSHostUI_methods (ui_methods ui_prompting)).
  { intros name [f Hf]. unfold ui_prompting in Hf. simpl in Hf.
    destruct (bool_decide (name = "prompt_for_credential")) eqn:E1.
    - apply bool_decide_eq_true in E1 as ->. by apply (bool_decide_eq_true_1 _).
    - destruct (bool_decide (name ∈ PSHostUI_methods)) eqn:E2; [|discriminate].
      by apply bool_decide_eq_true in E2. }
  destruct (prompt_for_credential1_is_not_found core_any host ui_prompting 1 []
              Async.the_pool w _ eq_refl Hc eq_refl) as (H1 & H2 & _).
  by split.
Defined.

Lemma call_getters_raises r fields e :
  call_getters r fields = Raise e <->
  exists pre field getter post,
    fields = pre ++ (field, getter) :: post /\
    Forall (getter_returns r) pre /\
    call_method (raw_ui_methods r) "PSHostRawUI" getter [] = Raise e.
Proof.
  induction fields as [|[f g] rest IH]; simpl.
  - split; [discriminate|]. intros (pre & ? & ? & ? & H & _). by destruct pre.
  - destruct (call_method (raw_ui_methods r) "PSHostRawUI" g []) as [v|e'] eqn:E; simpl.
    + destruct (call_getters r rest) as [vs|e'] eqn:Er; simpl.
      * split; [discriminate|]. intros (pre & f' & g' & post & H & Hp & Hg).
        destruct pre as [|x pre]; simpl in H.
        -- injection H as -> -> ->. congruence.
        -- injection H as <- ->. apply Forall_cons in Hp as [_ Hp].
           assert (Ok vs = Raise (A := list (string * value)) e) by
             (apply IH; eauto 10). discriminate.
      * split.
        -- intros [= ->]. destruct (proj1 IH eq_refl) as (pre & f' & g' & post & -> & Hp & Hg).
           exists ((f, g) :: pre), f', g', post. split; [done|]. split; [|done].
           apply Forall_cons. split; [|done]. unfold getter_returns. simpl. by rewrite E.
        -- intros (pre & f' & g' & post & H & Hp & Hg).
           destruct pre as [|x pre]; simpl in H.
           ++ injection H as -> -> ->. congruence.
           ++ injection H as <- ->. apply Forall_cons in Hp as [_ Hp].
              apply IH. eauto 10.
    + split.
      * intros [= ->]. exists [], f, g, rest. split; [done|]. split; [constructor | done].
      * intros (pre & f' & g' & post & H & Hp & Hg).
        destruct pre as [|x pre]; simpl in H.
        -- injection H as -> -> ->. congruence.
        -- injection H as <- ->. apply Forall_cons in Hp as [Hx _].
           unfold getter_returns in Hx. simpl in Hx. by rewrite E in Hx.
Qed.

(** [get_host_info] fails exactly when the host has a raw ui and either
    one of the ten getters of the host default data fails, or they all
    return and [HostDefaultData] refuses what they returned.  In the first
    case the exception is that of the first getter, in the order of the
    fields, that fails; in the second it is that of the constructor.  A
    host without a raw ui always gets its host info. *)
Theorem get_host_info_fails_in_getter_or_constructor core host e :
  get_host_info core host = Raise e <->
  exists u r,
    ui host = Some u /\ raw_ui u = Some r /\
    ((exists pre field getter post,
        host_default_data_fields = pre ++ (field, getter) :: post /\
        Forall (getter_returns r) pre /\
        call_method (raw_ui_methods r) "PSHostRawUI" getter [] = Raise e) \/
     (exists fields,
        call_getters r host_default_data_fields = Ok fields /\
        HostDefaultData core fields = Raise e)).
Proof.
  assert (Hi : get_host_info core host =
    match ui host with
    | Some u =>
        match raw_ui u with
        | Some r =>
            match call_getters r host_default_data_fields with
            | Ok vs =>
                match HostDefaultData core vs with
                | Ok d =>
                    Ok (VObj "HostInfo"
                          [("IsHostNull", VBool false); ("IsHostUINull", VBool false);
                           ("IsHostRawUINull", VBool false);
                           ("UseRunspaceHost", VBool false);
                           ("HostDefaultData", d)])
                | Raise e' => Raise e'
                end
            | Raise e' => Raise e'
            end
        | None =>
            Ok (VObj "HostInfo"
                  [("IsHostNull", VBool false); ("IsHostUINull", VBool false);
                   ("IsHostRawUINull", VBool true); ("UseRunspaceHost", VBool false);
                   ("HostDefaultData", VNone)])
        end
    | None =>
        Ok (VObj "HostInfo"
              [("IsHostNull", VBool false); ("IsHostUINull", VBool true);
               ("IsHostRawUINull", VBool true); ("UseRunspaceHost", VBool false);
               ("HostDefaultData", VNone)])
    end).
  { unfold get_host_info, get_host_default_data.
    destruct (ui host) as [u|]; [destruct (raw_ui u) as [r|]|]; try reflexivity.
    destruct (call_getters r host_default_data_fields) as [vs|]; [|reflexivity].
    simpl. by destruct (HostDefaultData core vs). }
  rewrite Hi. clear Hi.
  destruct (ui host) as [u|] eqn:Eu; [destruct (raw_ui u) as [r|] eqn:Er|].
  - destruct (call_getters r host_default_data_fields) as [vs|e'] eqn:E.
    + destruct (HostDefaultData core vs) as [d|e'] eqn:Ed.
      * split; [discriminate|]. intros (u' & r' & Hu & Hr & H).
        injection Hu as <-. rewrite Er in Hr. injection Hr as <-.
        destruct H as [(pre & f & g & post & H) | (vs' & Hvs & Hd)].
        -- assert (Raise (A := list (string * value)) e = Ok vs); [|discriminate].
           rewrite <- E. symmetry. apply call_getters_raises. eauto 10.
        -- rewrite E in Hvs. injection Hvs as <-. congruence.
      * split.
        -- intros [= ->]. exists u, r. split; [done|]. split; [done|]. right. eauto.
        -- intros (u' & r' & Hu & Hr & H).
           injection Hu as <-. rewrite Er in Hr. injection Hr as <-.
           destruct H as [(pre & f & g & post & H) | (vs' & Hvs & Hd)].
           ++ assert (Raise (A := list (string * value)) e = Ok vs); [|discriminate].
              rewrite <- E. symmetry. apply call_getters_raises. eauto 10.
           ++ rewrite E in Hvs. injection Hvs as <-. congruence.
    + split.
      * intros [= ->]. apply call_getters_raises in E as (pre & f & g & post & H).
        exists u, r. split; [done|]. split; [done|]. left.
        exists pre, f, g, post. by repeat split; try apply H.
      * intros (u' & r' & Hu & Hr & H).
        injection Hu as <-. rewrite Er in Hr. injection Hr as <-.
        destruct H as [(pre & f & g & post & H) | (vs' & Hvs & Hd)]; [|congruence].
        f_equal. assert (Raise (A := list (string * value)) e' = Raise e); [|congruence].
        rewrite <- E. apply call_getters_raises. eauto 10.
  - split; [discriminate|]. intros (u' & r' & Hu & Hr & _).
    injection Hu as <-. congruence.
  - split; [discriminate|]. intros (u' & r' & ? & _). discriminate.
Qed.

Lemma get_host_info_fails_in_getter_or_constructor_witness :
  get_host_info core_any host_raw = Raise (Exn "NotImplementedError" "") /\
  get_host_info psrpcore_typed host_numbers = Raise not_an_object /\
  get_host_info core_any host_bare =
    Ok (VObj "HostInfo"
          [("IsHostNull", VBool false); ("IsHostUINull", VBool true);
           ("IsHostRawUINull", VBool true); ("UseRunspaceHost", VBool false);
           ("HostDefaultData", VNone)]).
Proof.
  split; [|split]; [| |reflexivity].
  - apply get_host_info_fails_in_getter_or_constructor.
    eexists _, raw_ui_partial. split; [reflexivity|]. split; [reflexivity|]. left.
    eexists
      [("ForegroundColor", "get_foreground_color");
       ("BackgroundColor", "get_background_color")],
      "CursorPosition", "get_cursor_position", _.
    split; [reflexivity|]. split; [|reflexivity]. by repeat constructor.
  - apply get_host_info_fails_in_getter_or_constructor.
    eexists _, raw_ui_numbers. split; [reflexivity|]. split; [reflexivity|]. right.
    eexists. split; reflexivity.
Defined.

(** ** [psrp/_async.py]: the event handler, the collection and the waiter *)

Lemma list_remove_app_fresh (c : nat) l :
  c ∉ l -> list_remove c (l ++ [c]) = Some l.
Proof.
  induction l as [|y l IH]; intros Hn; simpl.
  - by rewrite bool_decide_eq_true_2.
  - apply not_elem_of_cons in Hn as [Hc Hn]. rewrite bool_decide_eq_false_2 by done.
    by rewrite IH.
Qed.

Lemma list_remove_Permutation (c : nat) l l' :
  list_remove c l = Some l' -> l ≡ₚ c :: l'.
Proof.
  revert l'. induction l as [|y l IH]; intros l'; simpl; [discriminate|].
  case_bool_decide as Hd.
  - intros [= <-]. by subst.
  - destruct (list_remove c l) as [l1|]; [|discriminate]. simpl. intros [= <-].
    rewrite (IH l1 eq_refl). apply Permutation_swap.
Qed.

Lemma list_remove_None (c : nat) l : list_remove c l = None <-> c ∉ l.
Proof.
  induction l as [|y l IH]; simpl.
  - split; [intros _; apply not_elem_of_nil | done].
  - case_bool_decide as Hd.
    + split; [discriminate|]. intros Hn. exfalso. apply Hn. subst. by left.
    + destruct (list_remove c l) as [l1|]; simpl.
      * split; [discriminate|]. intros Hn. apply not_elem_of_cons in Hn as [_ Hn].
        by apply IH in Hn.
      * split; [|done]. intros _. apply not_elem_of_cons. split; [done|]. by apply IH.
Qed.

(** A callback that is subscribed and then unsubscribed leaves the handler
    with the subscriptions it had: the same list when the callback was not
    subscribed before, and else the same callbacks with that one called
    last, since [remove] takes the first.  Unsubscribing fails with
    [ValueError] exactly when the callback is not subscribed. *)
Theorem subscribe_unsubscribe (h : Async.AsyncEventHandler) (c : nat) :
  (exists l,
     Async.unsubscribe (Async.subscribe h c) c =
       Ok {| Async._callbacks := l; Async._purpose := Async._purpose h |} /\
     l ≡ₚ Async._callbacks h /\
     (c ∉ Async._callbacks h -> l = Async._callbacks h)) /\
  (Async.unsubscribe h c = Raise (Exn "ValueError" "list.remove(x): x not in list") <->
   c ∉ Async._callbacks h).
Proof.
  split.
  - unfold Async.unsubscribe, Async.subscribe. simpl.
    destruct (list_remove c (Async._callbacks h ++ [c])) as [l|] eqn:E.
    + exists l. split; [done|]. split.
      * apply list_remove_Permutation in E.
        rewrite <- Permutation_cons_append in E. by apply Permutation_cons_inv in E.
      * intros Hn. rewrite (list_remove_app_fresh _ _ Hn) in E. by injection E.
    + apply list_remove_None in E. exfalso. apply E, elem_of_app. right. by left.
  - unfold Async.unsubscribe. rewrite <- list_remove_None.
    destruct (list_remove c (Async._callbacks h)); split; done.
Qed.

Lemma subscribe_unsubscribe_witness :
  let h := Async.subscribe (Async.subscribe (Async.AsyncEventHandler_new "p") 1) 2 in
  Async.unsubscribe (Async.subscribe h 3) 3 = Ok h /\
  Async.unsubscribe (Async.subscribe h 1) 1 =
    Ok {| Async._callbacks := [2; 1]%nat; Async._purpose := "p" |} /\
  Async.unsubscribe h 3 = Raise (Exn "ValueError" "list.remove(x): x not in list").
Proof.
  intros h. split; [reflexivity|]. split; [reflexivity|].
  apply (subscribe_unsubscribe h 3). by apply (bool_decide_eq_false_1 _).
Defined.

Lemma append_all_completed {T} (c : Async.AsyncPSDataCollection T) vs :
  Async.completed c = true -> append_all c vs = c.
Proof.
  intros Hc. induction vs as [|v vs IH]; [done|].
  unfold append_all in *. simpl. unfold Async._append at 2. by rewrite Hc.
Qed.

Lemma append_all_open {T} (vs : list T) : forall c,
  Async.completed c = false ->
  append_all c vs = Async.with_items c (Async.items c ++ vs).
Proof.
  induction vs as [|v vs IH]; intros c Hc.
  - unfold append_all. simpl. rewrite app_nil_r. by destruct c.
  - unfold append_all in *. simpl.
    assert (E : (Async._append c v).1.1 = Async.with_items c (Async.items c ++ [v])).
    { unfold Async._append, Async.append. by rewrite Hc. }
    rewrite E, IH by done. simpl. by rewrite <- app_assoc.
Qed.

(** The records that the dispatcher appends to a collection that is not
    completed are in the collection in the order of their arrival, after
    what was there, and the iterator yields them in this order: it ends
    after the last one when the collection does not block or has been
    completed meanwhile, and waits for more otherwise.  Every append calls
    the subscribers of [data_adding] and then those of [data_added]. *)
Theorem appended_records_are_iterated_in_order {T} (c : Async.AsyncPSDataCollection T)
    (vs : list T) :
  Async.completed c = false ->
  Async.items (append_all c vs) = Async.items c ++ vs /\
  Async._aiter_next (append_all c vs) 0 =
    (if Async.blocking_iterator c then inr else inl) (Async.items c ++ vs) /\
  Async._aiter_next (Async.complete (append_all c vs)).1 0 = inl (Async.items c ++ vs) /\
  (forall v, (Async._append c v).1.2 =
     Async.call (Async.data_adding c) v ++ Async.call (Async.data_added c) v).
Proof.
  intros Hc. rewrite (append_all_open _ _ Hc).
  unfold Async._aiter_next, Async._append, Async.append. simpl. rewrite Hc. simpl.
  repeat split. by destruct (Async.blocking_iterator c).
Qed.

Lemma appended_records_are_iterated_in_order_witness :
  let c := Async.AsyncPSDataCollection_new [VInt 1] true in
  Async.items (append_all c [VInt 2; VInt 3]) = [VInt 1; VInt 2; VInt 3] /\
  Async._aiter_next (append_all c [VInt 2; VInt 3]) 0 = inr [VInt 1; VInt 2; VInt 3] /\
  append_all (Async.complete c).1 [VInt 2] = (Async.complete c).1.
Proof.
  intros c.
  destruct (appended_records_are_iterated_in_order c [VInt 2; VInt 3] eq_refl)
    as (H1 & H2 & _).
  split; [exact H1|]. split; [exact H2 | reflexivity].
Defined.

Lemma set_all_fields es : forall m,
  Async._event_type (set_all m es) = Async._event_type m /\
  Async._condition (set_all m es) = Async._condition m.
Proof.
  induction es as [|e es IH]; intros m; [done|].
  unfold set_all in *. simpl. destruct (IH (Async.set m e).1) as [-> ->].
  unfold Async.set. by destruct (_ && _).
Qed.

Lemma set_all_wait es : forall m,
  Async.wait (set_all m es) =
    match last (filter (fun e => takes (Async._event_type m) (Async._condition m) e = true) es)
    with
    | Some e => Some e
    | None => Async.wait m
    end.
Proof.
  induction es as [|e es IH]; intros m; [done|].
  change (set_all m (e :: es)) with (set_all (Async.set m e).1 es).
  rewrite IH. clear IH.
  assert (Hf : Async._event_type (Async.set m e).1 = Async._event_type m /\
               Async._condition (Async.set m e).1 = Async._condition m).
  { unfold Async.set. by destruct (_ && _). }
  destruct Hf as [-> ->].
  rewrite filter_cons. unfold Async.set. fold (takes (Async._event_type m) (Async._condition m) e).
  destruct (takes (Async._event_type m) (Async._condition m) e) eqn:Et.
  - rewrite decide_True by done. simpl.
    destruct (filter _ es) as [|x l] eqn:Ef; [reflexivity|].
    rewrite last_cons_cons. destruct (last (x :: l)) eqn:El; [done|].
    by apply last_None in El.
  - rewrite decide_False by (by intros ?). done.
Qed.

(** A waiter gives the last event it has taken: of the events offered to a
    new waiter, [wait] returns the last one that is of the declared kind
    and meets the condition, and the caller stays suspended if there is
    none. *)
Theorem waiter_gives_last_taken_event event_type condition es :
  Async.wait (set_all (Async.MessageResult_new event_type condition) es) =
    last (filter (fun e => takes event_type condition e = true) es).
Proof.
  rewrite set_all_wait. simpl. by destruct (last _).
Qed.
(** ** [psrp/_async.py]: building, closing and disconnecting *)

(** The builders compose, as far as the codec pipeline takes the calls.  A
    chain that it takes whole returns the pipeline it began with, and the
    codec pipeline has the calls in the order of the chain after those it
    had.  A chain with a call that it refuses raises the exception of the
    first such call; the calls before it have been made and none after it.
    In both cases nothing is sent. *)
Theorem builders_accumulate_until_refused core (cs : list BuilderCall) :
  forall self w p,
  Async.pipelines w !! self = Some p ->
  let calls := ClientPipeline.calls (Async.AsyncPipeline._pipeline p) in
  exists w' p',
    build_all core self cs w =
      (w', match chain_refused core calls cs with
           | None => Returned self
           | Some (_, e) => Raised e
           end) /\
    Async.pipelines w' !! self = Some p' /\
    ClientPipeline.calls (Async.AsyncPipeline._pipeline p') =
      calls ++ match chain_refused core calls cs with
               | None => cs
               | Some (n, _) => take n cs
               end /\
    Async.effects w' = Async.effects w.
Proof.
  induction cs as [|c cs IH]; intros self w p Hp calls; simpl.
  - exists w, p. by rewrite app_nil_r.
  - unfold mbind at 1, St_mbind, St_bind.
    unfold Async.builder, Async.get_pipeline, Async.modify_pipeline, modify,
      ClientPipeline.add_call, lift, mbind, St_mbind, St_bind. rewrite Hp. simpl.
    fold calls. destruct (builder_error core calls c) as [e|] eqn:Eb.
    { exists w, p. simpl. by rewrite app_nil_r. }
    set (q := Async.AsyncPipeline._pipeline p).
    assert (Eq : exists q', (let 'ClientPipeline.Build_t a b c' d e := q in
                   Ok (ClientPipeline.Build_t a b c' (d ++ [c]) e)) = Ok q' /\
                 ClientPipeline.calls q' = calls ++ [c]).
    { subst calls q. destruct (Async.AsyncPipeline._pipeline p). by eexists. }
    destruct Eq as (q' & -> & Hq'). simpl.
    set (p1 := Async.AsyncPipeline.set__pipeline q' p).
    set (w1 := Async.set_pipelines _ w).
    assert (Hp1 : Async.pipelines w1 !! self = Some p1).
    { subst w1. destruct w; simpl in *. by rewrite lookup_alter_eq, Hp. }
    assert (Hc1 : ClientPipeline.calls (Async.AsyncPipeline._pipeline p1) = calls ++ [c]).
    { subst p1. rewrite <- Hq'. by destruct p. }
    destruct (IH self w1 p1 Hp1) as (w' & p' & Hb & Hp' & Hc & He).
    rewrite Hc1 in Hb, Hc.
    exists w', p'. split; [|split; [exact Hp'|split]].
    + rewrite Hb. by destruct (chain_refused core (calls ++ [c]) cs) as [[n e]|].
    + rewrite Hc, <- app_assoc.
      by destruct (chain_refused core (calls ++ [c]) cs) as [[n e]|].
    + rewrite He. subst w1. by destruct w.
Qed.

Lemma builders_accumulate_until_refused_witness :
  let w := async_pipeline_world None [] in
  let fresh := (Async.AsyncPowerShell_init core_any 7 None (async_world None [])).1 in
  (exists w' p',
     (self ← Async.add_command core_any 0 (VStr "Get-Item") None;
      self ← Async.add_parameter core_any self "Path" (VStr ".");
      Async.add_statement core_any self) w = (w', Returned 0%nat) /\
     Async.pipelines w' !! 0%nat = Some p' /\
     ClientPipeline.calls (Async.AsyncPipeline._pipeline p') =
       [add_script_call "Write-Host x" None; add_command_call (VStr "Get-Item") None;
        add_parameter_call "Path" (VStr "."); add_statement_call]) /\
  (exists w' p',
     (self ← Async.add_statement core_any 0;
      self ← Async.add_parameter core_any self "Path" (VStr ".");
      Async.add_command core_any self (VStr "Get-Item") None) fresh =
       (w', Raised command_required) /\
     Async.pipelines w' !! 0%nat = Some p' /\
     ClientPipeline.calls (Async.AsyncPipeline._pipeline p') = [add_statement_call]).
Proof.
  intros w fresh. split.
  - epose proof (builders_accumulate_until_refused core_any
                   [add_command_call (VStr "Get-Item") None;
                    add_parameter_call "Path" (VStr "."); add_statement_call]
                   0%nat w _ eq_refl) as H.
    cbv zeta in H. change (chain_refused _ _ _) with (@None (nat * exn)) in H.
    destruct H as (w' & p' & Hb & Hp' & Hc & _).
    exists w', p'. split; [|by split].
    rewrite <- Hb. reflexivity.
  - epose proof (builders_accumulate_until_refused core_any
                   [add_statement_call; add_parameter_call "Path" (VStr ".");
                    add_command_call (VStr "Get-Item") None]
                   0%nat fresh _ eq_refl) as H.
    cbv zeta in H. change (chain_refused _ _ _) with (Some (1%nat, command_required)) in H.
    destruct H as (w' & p' & Hb & Hp' & Hc & _).
    exists w', p'. split; [|by split].
    rewrite <- Hb. reflexivity.
Defined.

Lemma async_close_eq self w p :
  Async.pipelines w !! self = Some p ->
  table_live w ->
  Async.close self w =
    (if async_closes (Async.pipeline_id_of p) w
     then Async.set_pool
            (Async.AsyncRunspacePool.set_pipeline_table
               (delete (Async.pipeline_id_of p)
                  (Async.AsyncRunspacePool.pipeline_table (Async.pool w)))
               (Async.pool w))
            (Async.set_effects
               (Async.effects w ++ [Async.Conn (conn_close (Some (Async.pipeline_id_of p)))]) w)
     else w,
     Returned ()).
Proof.
  intros Hp Hl.
  unfold Async.close, Async.get_pipeline, Async.emit, Async.modify_pool, modify, gets,
    mbind, St_mbind, St_bind, async_closes.
  rewrite Hp. simpl.
  destruct (_ !! Async.pipeline_id_of p) as [r|] eqn:Et; [|done].
  destruct (Hl _ _ Et) as [q Hq]. rewrite Hq.
  destruct (decide _) as [Hd|Hd].
  - by rewrite bool_decide_eq_false_2 by (by intros ?).
  - rewrite bool_decide_eq_true_2 by done. by destruct w.
Qed.

(** [close] of a pipeline tells the connection once: when the table has a
    pipeline under its id that is not disconnected, the connection is told
    and the entry is deleted, and a second [close] does nothing; otherwise
    the first does nothing either. *)
Theorem async_close_twice self w p :
  Async.pipelines w !! self = Some p ->
  table_live w ->
  exists w1,
    Async.close self w = (w1, Returned ()) /\
    Async.effects w1 =
      Async.effects w ++
        (if async_closes (Async.pipeline_id_of p) w
         then [Async.Conn (conn_close (Some (Async.pipeline_id_of p)))] else []) /\
    Async.AsyncRunspacePool.pipeline_table (Async.pool w1) =
      (if async_closes (Async.pipeline_id_of p) w
       then delete (Async.pipeline_id_of p)
              (Async.AsyncRunspacePool.pipeline_table (Async.pool w))
       else Async.AsyncRunspacePool.pipeline_table (Async.pool w)) /\
    Async.pipelines w1 = Async.pipelines w /\
    Async.close self w1 = (w1, Returned ()).
Proof.
  intros Hp Hl. rewrite (async_close_eq _ _ _ Hp Hl).
  destruct (async_closes (Async.pipeline_id_of p) w) eqn:Ec.
  - eexists. split; [reflexivity|].
    set (w1 := Async.set_pool _ _).
    assert (Hps : Async.pipelines w1 = Async.pipelines w) by (subst w1; by destruct w).
    assert (Ht : Async.AsyncRunspacePool.pipeline_table (Async.pool w1) =
                 delete (Async.pipeline_id_of p)
                   (Async.AsyncRunspacePool.pipeline_table (Async.pool w))).
    { subst w1. by destruct w as [[] ? ? ? ? ?]. }
    split; [subst w1; by destruct w|]. split; [exact Ht|]. split; [exact Hps|].
    rewrite (async_close_eq self w1 p).
    + unfold async_closes. by rewrite Ht, lookup_delete_eq.
    + by rewrite Hps.
    + intros key r. rewrite Ht, Hps. intros Hk.
      apply lookup_delete_Some in Hk as [_ Hk]. by eapply Hl.
  - exists w. rewrite app_nil_r. repeat split; try done.
    by rewrite (async_close_eq _ _ _ Hp Hl), Ec.
Qed.

Lemma async_close_twice_witness :
  let w := (Async.invoke_async core_any 0 None None None true
              (async_pipeline_world None [])).1 in
  exists w1,
    Async.close 0 w = (w1, Returned ()) /\
    Async.effects w1 = Async.effects w ++ [Async.Conn (conn_close (Some 7))] /\
    Async.close 0 w1 = (w1, Returned ()).
Proof.
  intros w.
  assert (Hl : table_live w).
  { intros key r Hk. destruct (decide (key = 7)) as [->|Hne].
    - vm_compute in Hk. injection Hk as <-. by eexists.
    - exfalso. revert Hk. subst w.
      change (Async.AsyncRunspacePool.pipeline_table _) with (<[7 := 0%nat]> (∅ : gmap Z nat)).
      rewrite lookup_insert_ne by done. by rewrite lookup_empty. }
  edestruct (async_close_twice 0%nat w _ eq_refl Hl) as (w1 & H1 & H2 & _ & _ & H3).
  exists w1. split; [exact H1|]. split; [exact H2 | exact H3].
Defined.

Lemma foldr_alter_lookup {A} (f : A -> A) (l : list nat) (ps : gmap nat A) r :
  (forall a, f (f a) = f a) ->
  foldr (fun x ps => alter f x ps) ps l !! r =
    if bool_decide (r ∈ l) then f <$> ps !! r else ps !! r.
Proof.
  intros Hf. induction l as [|x l IH]; simpl; [done|].
  destruct (decide (r = x)) as [->|Hne].
  - rewrite lookup_alter_eq, IH.
    rewrite (bool_decide_eq_true_2 (x ∈ x :: l)) by (by left).
    case_bool_decide; [|done]. destruct (ps !! x); simpl; by rewrite ?Hf.
  - rewrite lookup_alter_ne, IH by done.
    case_bool_decide as H1; case_bool_decide as H2; try done.
    + exfalso. apply H2. by right.
    + apply elem_of_cons in H2 as [?|?]; done.
Qed.

Lemma elem_of_table_values (table : gmap Z nat) r :
  r ∈ (map_to_list table).*2 <-> exists key, table !! key = Some r.
Proof.
  rewrite list_elem_of_fmap. split.
  - intros ([key r'] & -> & Hin). exists key. by apply elem_of_map_to_list.
  - intros [key Hk]. exists (key, r). split; [done|]. by apply elem_of_map_to_list.
Qed.

(** [disconnect] tells the connection once and leaves the pool and every
    pipeline of its table disconnected, the table as it was; after it the
    [close] of a pipeline tells the connection nothing and keeps the
    table, so that the pipelines can be taken up again. *)
Theorem async_disconnect_then_close w :
  exists w',
    Async.disconnect w = (w', Returned ()) /\
    ClientRunspacePool.state (Async.AsyncRunspacePool._pool (Async.pool w')) =
      RunspacePoolState.Disconnected /\
    Async.effects w' = Async.effects w ++ [Async.Conn conn_disconnect] /\
    Async.AsyncRunspacePool.pipeline_table (Async.pool w') =
      Async.AsyncRunspacePool.pipeline_table (Async.pool w) /\
    (forall key r q,
       Async.AsyncRunspacePool.pipeline_table (Async.pool w) !! key = Some r ->
       Async.pipelines w' !! r = Some q ->
       Async.state q = PSInvocationState.Disconnected) /\
    (forall self p,
       Async.pipelines w' !! self = Some p -> table_live w ->
       Async.close self w' = (w', Returned ())).
Proof.
  unfold Async.disconnect, Async.modify_pool, Async.emit, modify, gets,
    mbind, St_mbind, St_bind. simpl.
  eexists. split; [reflexivity|].
  set (f := fun p => Async.AsyncPipeline.set__pipeline
                (ClientPipeline.set_state PSInvocationState.Disconnected
                   (Async.AsyncPipeline._pipeline p)) p).
  assert (Hf : forall a, f (f a) = f a) by (by intros [[] ? ? ? ? ? ? ? ? ? ? ?]).
  assert (Hs : forall a, Async.state (f a) = PSInvocationState.Disconnected)
    by (by intros [[] ? ? ? ? ? ? ? ? ? ? ?]).
  destruct w as [[h table sc ue s1 s2 s3 s4 s5 s6 nc [] rh] ps ws nr es ib]. simpl.
  assert (Hd : forall key r q, table !! key = Some r ->
            foldr (fun x ps => alter f x ps) ps (map_to_list table).*2 !! r = Some q ->
            Async.state q = PSInvocationState.Disconnected).
  { intros key r q Hk. rewrite (foldr_alter_lookup f _ _ _ Hf).
    rewrite bool_decide_eq_true_2 by (apply elem_of_table_values; eauto).
    destruct (ps !! r); [|discriminate]. intros [= <-]. apply Hs. }
  split; [done|]. split; [done|]. split; [done|]. split; [exact Hd|].
  intros self p Hp Hl.
  match goal with |- Async.close self ?W = _ => set (w' := W) end.
  assert (Hl' : table_live w').
  { intros key r Hk. simpl in Hk. destruct (Hl key r Hk) as [q Hq]. simpl in Hq.
    subst w'. simpl. rewrite (foldr_alter_lookup f _ _ _ Hf), Hq.
    case_bool_decide; by eexists. }
  rewrite (async_close_eq self w' p Hp Hl').
  replace (async_closes (Async.pipeline_id_of p) w') with false; [done|].
  unfold async_closes. subst w'. simpl.
  destruct (table !! Async.pipeline_id_of p) as [r|] eqn:Ek; [|done].
  destruct (foldr _ _ _ !! r) as [q|] eqn:Eq; [|done].
  by rewrite (Hd _ _ _ Ek Eq), bool_decide_eq_false_2 by (by intros ?).
Qed.

Lemma async_disconnect_then_close_witness :
  let w := (Async.invoke_async core_any 0 None None None true
              (async_pipeline_world None [])).1 in
  exists w',
    Async.disconnect w = (w', Returned ()) /\
    (Async.state <$> Async.pipelines w' !! 0%nat) = Some PSInvocationState.Disconnected /\
    Async.close 0 w' = (w', Returned ()).
Proof.
  intros w.
  assert (Hl : table_live w).
  { intros key r Hk. destruct (decide (key = 7)) as [->|Hne].
    - vm_compute in Hk. injection Hk as <-. by eexists.
    - exfalso. revert Hk. subst w.
      change (Async.AsyncRunspacePool.pipeline_table _) with (<[7 := 0%nat]> (∅ : gmap Z nat)).
      rewrite lookup_insert_ne by done. by rewrite lookup_empty. }
  destruct (async_disconnect_then_close w) as (w' & H1 & _ & _ & _ & H2 & H3).
  exists w'. split; [exact H1|].
  assert (Hp : is_Some (Async.pipelines w' !! 0%nat)).
  { injection H1 as <-. by eexists. }
  destruct Hp as [q Hq]. rewrite Hq. simpl. split.
  - f_equal. apply (H2 7 0%nat q); [reflexivity | exact Hq].
  - by apply (H3 0%nat q).
Defined.

(** ** [psrp/_async.py]: the operations that wait for an answer *)

Lemma registered_once_ext w w' :
  (forall o, Async.result_handler o w' = Async.result_handler o w) ->
  Async.next_ref w' = Async.next_ref w ->
  (forall h e b, Async.SetCall h e b ∈ Async.effects w' ->
                 Async.SetCall h e b ∈ Async.effects w) ->
  registered_once w -> registered_once w'.
Proof.
  intros Hr Hn He [N D A C]. split.
  - intros o. rewrite Hr. apply N.
  - intros o o' h. rewrite !Hr. apply D.
  - intros o h. rewrite Hr, Hn. apply A.
  - intros h e b Hin. rewrite Hn. eapply C, He, Hin.
Qed.

Lemma quiet_registered w w' : a_quiet w w' -> registered_once w -> registered_once w'.
Proof.
  intros Q. apply registered_once_ext.
  - intros o. by apply quiet_handlers.
  - apply Q.
  - intros h e b. destruct (quiet_effects _ _ Q) as (es & -> & Fe).
    rewrite elem_of_app. intros [Hin|Hin]; [done|]. by apply not_fired_setcall in Hin.
Qed.

Lemma register_registered o event_type condition w :
  registered_once w -> registered_once (register o event_type condition w).1.
Proof.
  intros Hr.
  assert (Hi : at_most_once (Async.next_ref w) w).
  { assert (H0 : accepted (Async.next_ref w) (Async.effects w) = 0%nat).
    { apply accepted_none. intros e b Hin. apply (once_called _ Hr) in Hin. lia. }
    split; [done|]. split; [lia | done]. }
  apply (register_once _ o event_type condition) in Hi. apply Hi.
Qed.

Lemma register_waits event_type condition w :
  registered_once w ->
  waits_on_pool (Async.next_ref w) event_type condition
    (register Async.the_pool event_type condition w).1 /\
  (register Async.the_pool event_type condition w).2 = Returned (Async.next_ref w) /\
  Async.inbox (register Async.the_pool event_type condition w).1 = Async.inbox w /\
  Async.AsyncRunspacePool._pool (Async.pool (register Async.the_pool event_type condition w).1)
    = Async.AsyncRunspacePool._pool (Async.pool w).
Proof.
  intros Hr. unfold register, Async.new_waiter, Async.add_result_handler,
    mbind, St_mbind, St_bind, modify, waits_on_pool. simpl.
  destruct w as [[] ? ? ? ? ?]; simpl. repeat split.
  - apply elem_of_app. right. by left.
  - apply lookup_insert_eq.
Qed.

(** The waiters after a pass of the loop that came to its end: those of
    the snapshot have been offered the event. *)
Lemma offer_waiters o e : forall snapshot w w',
  NoDup snapshot ->
  Async.offer o snapshot e w = (w', Returned ()) ->
  forall h, Async.waiters w' !! h =
    if bool_decide (h ∈ snapshot) then (fun m => (Async.set m e).1) <$> Async.waiters w !! h
    else Async.waiters w !! h.
Proof.
  induction snapshot as [|x rest IH]; intros w w' Hnd H h.
  - injection H as <-. done.
  - apply NoDup_cons in Hnd as [Hx Hnd]. rewrite offer_cons in H.
    destruct (Async.waiters w !! x) as [m|] eqn:Em.
    + apply bind_returned in H as (w1 & [] & H1 & H).
      apply bind_returned in H as (w2 & [] & H2 & H).
      assert (Hw2 : Async.waiters w2 = <[x := (Async.set m e).1]> (Async.waiters w)).
      { injection H1 as <-.
        destruct (Async.set m e).2.
        - apply bind_returned in H2 as (w3 & hs & H3 & H2). injection H3 as <- <-.
          destruct (list_remove x _); [|discriminate]. injection H2 as <-.
          destruct o, w as [[] ? ? ? ? ?]; reflexivity.
        - injection H2 as <-. by destruct w. }
      rewrite (IH _ _ Hnd H h), Hw2.
      destruct (decide (h = x)) as [->|Hne].
      * rewrite lookup_insert_eq, Em, bool_decide_eq_false_2 by done.
        by rewrite bool_decide_eq_true_2 by (by left).
      * rewrite lookup_insert_ne by done.
        case_bool_decide as H3; case_bool_decide as H4; try done.
        -- exfalso. apply H4. by right.
        -- apply elem_of_cons in H4 as [?|?]; done.
    + rewrite (IH _ _ Hnd H h).
      destruct (decide (h = x)) as [->|Hne].
      * rewrite Em, bool_decide_eq_false_2 by done. by case_bool_decide.
      * case_bool_decide as H3; case_bool_decide as H4; try done.
        -- exfalso. apply H4. by right.
        -- apply elem_of_cons in H4 as [?|?]; done.
Qed.

Lemma pool_handle_event_silent core e w :
  for_waiters_only e = true -> Async.pool_handle_event core e w = (w, Returned false).
Proof.
  unfold for_waiters_only, Async.pool_handle_event, mbind, St_mbind, St_bind, gets.
  destruct (body e); try discriminate; intros _;
    by destruct (Async.AsyncRunspacePool.host (Async.pool w)).
Qed.

(** The event that a new waiter of the pool takes comes next: the wait
    returns it and the events after it stay unread. *)
Lemma await_next core h event_type condition e rest w :
  registered_once w ->
  waits_on_pool h event_type condition w ->
  Async.inbox w = e :: rest ->
  pipeline_id e = None ->
  for_waiters_only e = true ->
  takes event_type condition e = true ->
  exists w',
    Async.await core h w = (w', Returned e) /\
    Async.inbox w' = rest /\
    a_waits w w' /\
    (body e = EncryptedSessionKeyEvent -> a_cipher w' = true).
Proof.
  intros Hr [Hh Hm] Hi Hp Hs Ht. unfold Async.await. rewrite Hi. simpl.
  rewrite Hm. simpl.
  destruct (Async.deliver core e w) as [w1 r1] eqn:Ed.
  pose proof (keeps_waits _ _ _ _ (keeps_deliver core e h _ _ _ Ed)) as K.
  pose proof Ed as Ed'.
  unfold Async.deliver, mbind at 1, St_mbind, St_bind, modify in Ed. simpl in Ed.
  pose proof (quiet_codec_receive e w) as Q.
  set (wc := Async.codec_receive e w) in *.
  pose proof (quiet_registered _ _ Q Hr) as Hrc.
  unfold Async._event_received, mbind at 1, St_mbind, St_bind, gets in Ed.
  rewrite Hp in Ed. unfold mbind at 1, St_mbind, St_bind in Ed.
  rewrite (pool_handle_event_silent _ _ _ Hs) in Ed.
  unfold mbind at 1, St_mbind, St_bind, gets in Ed.
  destruct (offer_sound Async.the_pool e _ wc (once_nodup _ Hrc Async.the_pool)
              (once_nodup _ Hrc Async.the_pool) (fun _ H => H))
    as (wo & es & Eo & _).
  unfold mbind at 1, St_mbind, St_bind in Ed. rewrite Eo in Ed. injection Ed as <- <-.
  pose proof (offer_waiters _ _ _ _ _ (once_nodup _ Hrc Async.the_pool) Eo h) as Hw.
  rewrite (quiet_handlers _ _ Async.the_pool Q), bool_decide_eq_true_2 in Hw by done.
  rewrite (quiet_waiters _ _ Q), Hm in Hw. simpl in Hw.
  assert (Hset : Async.set (Async.MessageResult_new event_type condition) e =
                 ({| Async._condition := condition; Async._event_type := event_type;
                     Async._event := true; Async._result := Some e |}, true)).
  { unfold Async.set. simpl. unfold takes in Ht. by rewrite Ht. }
  rewrite Hset in Hw. simpl in Hw.
  exists (Async.set_inbox rest wo). split.
  - destruct rest; simpl; rewrite Hw; reflexivity.
  - split; [by destruct wo|]. split.
    + etrans; [exact K | apply set_inbox_waits].
    + intros Hb. rewrite set_inbox_cipher. by eapply deliver_cipher.
Qed.

Lemma registered_once_set_pool f w :
  registered_once w ->
  registered_once
    (Async.set_pool (Async.AsyncRunspacePool.set__pool f (Async.pool w)) w).
Proof.
  apply registered_once_ext; [intros [|self] | |]; by destruct w as [[] ? ? ? ? ?].
Qed.

Lemma registered_once_emit_conn c w :
  registered_once w ->
  registered_once (Async.set_effects (Async.effects w ++ [Async.Conn c]) w).
Proof.
  apply registered_once_ext; [intros [|self] | |]; try by destruct w.
  intros h e b. destruct w; simpl. rewrite elem_of_app.
  intros [Hin|Hin]; [done|]. apply list_elem_of_singleton in Hin. discriminate.
Qed.

Lemma registered_once_emit_codec c w :
  registered_once w ->
  registered_once (Async.set_effects (Async.effects w ++ [Async.Codec c]) w).
Proof.
  apply registered_once_ext; [intros [|self] | |]; try by destruct w.
  intros h e b. destruct w; simpl. rewrite elem_of_app.
  intros [Hin|Hin]; [done|]. apply list_elem_of_singleton in Hin. discriminate.
Qed.


Lemma waits_on_pool_ext h event_type condition w w' :
  Async.result_handler Async.the_pool w' = Async.result_handler Async.the_pool w ->
  Async.waiters w' = Async.waiters w ->
  waits_on_pool h event_type condition w -> waits_on_pool h event_type condition w'.
Proof. intros Hr Hw [H1 H2]. split; [by rewrite Hr | by rewrite Hw]. Qed.

(** An availability operation whose message the codec gives a call id
    returns the flag of the answer: when the [SetRunspaceAvailability]
    event with this call id is the next event of the peer, the operation
    returns the [success] of the event and leaves the later events
    unread. *)
Theorem async_availability_returns_answer core codec_call w ci success rest :
  registered_once w ->
  (codec_call (Async.AsyncRunspacePool._pool (Async.pool w))).2 = Some ci ->
  Async.inbox w = ev None (SetRunspaceAvailabilityEvent ci success) :: rest ->
  exists w',
    Async.set_runspace_availability core codec_call w = (w', Returned success) /\
    Async.inbox w' = rest.
Proof.
  intros Hr Hci Hi.
  unfold Async.set_runspace_availability, mbind at 1, St_mbind, St_bind, gets.
  unfold mbind at 1, St_mbind, St_bind, Async.modify_pool, modify. rewrite Hci.
  set (w0 := Async.set_pool _ w).
  assert (Hr0 : registered_once w0) by by apply registered_once_set_pool.
  assert (Hi0 : Async.inbox w0 = Async.inbox w) by (subst w0; by destruct w).
  set (condition := Some (Async.ci_is ci)).
  destruct (register_waits SetRunspaceAvailabilityEvent_t condition w0 Hr0)
    as (Hw1 & _ & Hi1 & _).
  pose proof (register_registered Async.the_pool SetRunspaceAvailabilityEvent_t condition
                w0 Hr0) as Hr1.
  set (w1 := (register Async.the_pool SetRunspaceAvailabilityEvent_t condition w0).1) in *.
  set (w2 := Async.set_effects (Async.effects w1 ++ [Async.Conn conn_send_all]) w1).
  assert (Hr2 : registered_once w2) by by apply registered_once_emit_conn.
  assert (Hw2 : waits_on_pool (Async.next_ref w0) SetRunspaceAvailabilityEvent_t condition w2).
  { eapply waits_on_pool_ext; [| |exact Hw1]; subst w2; by destruct w1. }
  assert (Hi2 : Async.inbox w2 = ev None (SetRunspaceAvailabilityEvent ci success) :: rest).
  { rewrite <- Hi, <- Hi0, <- Hi1. subst w2. by destruct w1. }
  destruct (await_next core _ _ _ _ _ _ Hr2 Hw2 Hi2 eq_refl eq_refl)
    as (w' & Ha & Hi' & _).
  { unfold takes, condition, Async.ci_is, isinstance. simpl.
    by rewrite !bool_decide_eq_true_2. }
  exists w'. split; [|exact Hi'].
  change (Async._send_set_runspace_availability_ci core (Some ci) w0) with
    ((result ← Async.await core (Async.next_ref w0); lift (Async.event_success result)) w2).
  unfold mbind, St_mbind, St_bind. by rewrite Ha.
Qed.

Lemma async_availability_returns_answer_witness :
  exists w',
    Async.set_runspace_availability core_any (fun p => (p, Some 4))
      (async_world None
         [ev None (SetRunspaceAvailabilityEvent 4 false); ev None EncryptedSessionKeyEvent])
      = (w', Returned false) /\
    Async.inbox w' = [ev None EncryptedSessionKeyEvent].
Proof.
  apply (async_availability_returns_answer core_any (fun p => (p, Some 4))
           (async_world None _) 4 false).
  - apply registered_once_fresh.
  - reflexivity.
  - reflexivity.
Defined.

(** [get_available_runspaces] returns the count of the answer: when the
    [GetRunspaceAvailability] event with the call id of the request is the
    next event of the peer, the operation returns its [count] and leaves
    the later events unread. *)
Theorem async_get_available_runspaces_returns_count core codec_call w count rest :
  registered_once w ->
  let ci := (codec_call (Async.AsyncRunspacePool._pool (Async.pool w))).2 in
  Async.inbox w = ev None (GetRunspaceAvailabilityEvent ci count) :: rest ->
  exists w',
    Async.get_available_runspaces core codec_call w = (w', Returned count) /\
    Async.inbox w' = rest.
Proof.
  intros Hr ci Hi.
  unfold Async.get_available_runspaces, mbind at 1, St_mbind, St_bind, gets.
  fold ci.
  set (condition := Some (Async.ci_is ci)).
  destruct (register_waits GetRunspaceAvailabilityEvent_t condition w Hr)
    as (Hw1 & _ & Hi1 & _).
  pose proof (register_registered Async.the_pool GetRunspaceAvailabilityEvent_t condition
                w Hr) as Hr1.
  set (w1 := (register Async.the_pool GetRunspaceAvailabilityEvent_t condition w).1) in *.
  set (w2 := Async.set_pool
               (Async.AsyncRunspacePool.set__pool
                  (codec_call (Async.AsyncRunspacePool._pool (Async.pool w))).1
                  (Async.pool w1)) w1).
  assert (Hr2 : registered_once w2) by by apply registered_once_set_pool.
  set (w3 := Async.set_effects (Async.effects w2 ++ [Async.Conn conn_send_all]) w2).
  assert (Hr3 : registered_once w3) by by apply registered_once_emit_conn.
  assert (Hw3 : waits_on_pool (Async.next_ref w) GetRunspaceAvailabilityEvent_t condition w3).
  { eapply waits_on_pool_ext; [| |exact Hw1]; subst w3 w2; by destruct w1 as [[] ? ? ? ? ?]. }
  assert (Hi3 : Async.inbox w3 = ev None (GetRunspaceAvailabilityEvent ci count) :: rest).
  { rewrite <- Hi, <- Hi1. subst w3 w2. by destruct w1. }
  destruct (await_next core _ _ _ _ _ _ Hr3 Hw3 Hi3 eq_refl eq_refl)
    as (w' & Ha & Hi' & _).
  { unfold takes, condition, Async.ci_is, isinstance. simpl.
    by rewrite !bool_decide_eq_true_2. }
  exists w'. split; [|exact Hi'].
  change ((result ← Async.await core (Async.next_ref w); lift (Async.event_count result)) w3
          = (w', Returned count)).
  unfold mbind, St_mbind, St_bind. by rewrite Ha.
Qed.

Lemma async_get_available_runspaces_returns_count_witness :
  exists w',
    Async.get_available_runspaces core_any (fun p => (p, 4))
      (async_world None
         [ev None (GetRunspaceAvailabilityEvent 4 3); ev None EncryptedSessionKeyEvent])
      = (w', Returned 3) /\
    Async.inbox w' = [ev None EncryptedSessionKeyEvent].
Proof.
  apply (async_get_available_runspaces_returns_count core_any (fun p => (p, 4))
           (async_world None _) 3).
  - apply registered_once_fresh.
  - reflexivity.
Defined.

(** The key exchange with the answer of the peer next in line. *)
Lemma exchange_key_with_key core w rest :
  registered_once w ->
  Async.inbox w = ev None EncryptedSessionKeyEvent :: rest ->
  exists w',
    Async.exchange_key core w = (w', Returned ()) /\
    a_cipher w' = true /\
    Async.inbox w' = rest.
Proof.
  intros Hr Hi.
  destruct (register_waits EncryptedSessionKeyEvent_t None w Hr) as (Hw1 & _ & Hi1 & _).
  pose proof (register_registered Async.the_pool EncryptedSessionKeyEvent_t None w Hr) as Hr1.
  set (w1 := (register Async.the_pool EncryptedSessionKeyEvent_t None w).1) in *.
  set (w2 := Async.set_effects (Async.effects w1 ++ [Async.Codec codec_exchange_key]) w1).
  assert (Hr2 : registered_once w2) by by apply registered_once_emit_codec.
  set (w3 := Async.set_effects (Async.effects w2 ++ [Async.Conn conn_send_all]) w2).
  assert (Hr3 : registered_once w3) by by apply registered_once_emit_conn.
  assert (Hw3 : waits_on_pool (Async.next_ref w) EncryptedSessionKeyEvent_t None w3).
  { eapply waits_on_pool_ext; [| |exact Hw1]; subst w3 w2; by destruct w1. }
  assert (Hi3 : Async.inbox w3 = ev None EncryptedSessionKeyEvent :: rest).
  { rewrite <- Hi, <- Hi1. subst w3 w2. by destruct w1. }
  destruct (await_next core _ _ _ _ _ _ Hr3 Hw3 Hi3 eq_refl eq_refl eq_refl)
    as (w' & Ha & Hi' & _ & Hc).
  exists w'. split; [|split; [by apply Hc | exact Hi']].
  change ((Async.await core (Async.next_ref w);; mret ()) w3 = (w', Returned ())).
  unfold mbind, St_mbind, St_bind. by rewrite Ha.
Qed.

(** [exchange_key] returns with the session key: when the
    [EncryptedSessionKey] event is the next event of the peer, the call
    returns, the codec has the key, and the later events stay unread. *)
Theorem async_exchange_key_returns_with_key core w rest :
  registered_once w ->
  Async.inbox w = ev None EncryptedSessionKeyEvent :: rest ->
  exists w',
    Async.exchange_key core w = (w', Returned ()) /\
    a_cipher w' = true /\
    Async.inbox w' = rest.
Proof. apply exchange_key_with_key. Qed.

Lemma async_exchange_key_returns_with_key_witness :
  exists w',
    Async.exchange_key core_any
      (async_world None [ev None EncryptedSessionKeyEvent; ev None (GetRunspaceAvailabilityEvent 1 2)])
      = (w', Returned ()) /\
    a_cipher w' = true /\
    Async.inbox w' = [ev None (GetRunspaceAvailabilityEvent 1 2)].
Proof.
  apply (async_exchange_key_returns_with_key core_any (async_world None _)).
  - apply registered_once_fresh.
  - reflexivity.
Defined.

(** ** [psrp/_async.py]: [invoke] from the start to the collected output *)

#[local] Instance only_handlers_preorder : PreOrder only_handlers.
Proof.
  split.
  - intros w. split; [|split; [|done]].
    + exists (Async.AsyncRunspacePool._result_handler (Async.pool w)).
      by destruct (Async.pool w).
    + intros r. destruct (_ !! r) as [p|]; constructor.
      exists (Async.AsyncPipeline._result_handler p). by destruct p.
  - intros a b c ([l1 A1] & A2 & A3) ([l2 B1] & B2 & B3). split; [|split; [|congruence]].
    + exists l2. rewrite B1, A1. by destruct (Async.pool a).
    + intros r. specialize (A2 r). specialize (B2 r).
      destruct A2 as [p p' [l Hl]|]; inversion B2 as [? p'' [l' Hl']|]; subst; constructor.
      exists l'. by destruct p.
Qed.

Lemma only_handlers_set_waiters v w : only_handlers w (Async.set_waiters v w).
Proof.
  assert (H : Async.pool (Async.set_waiters v w) = Async.pool w /\
              Async.pipelines (Async.set_waiters v w) = Async.pipelines w /\
              Async.inbox (Async.set_waiters v w) = Async.inbox w) by by destruct w.
  destruct H as (H1 & H2 & H3). destruct (reflexivity w : only_handlers w w) as (R1 & R2 & R3).
  split; [by rewrite H1 | split; [by intros r; rewrite H2 | done]].
Qed.

Lemma only_handlers_set_effects v w : only_handlers w (Async.set_effects v w).
Proof.
  assert (H : Async.pool (Async.set_effects v w) = Async.pool w /\
              Async.pipelines (Async.set_effects v w) = Async.pipelines w /\
              Async.inbox (Async.set_effects v w) = Async.inbox w) by by destruct w.
  destruct H as (H1 & H2 & H3). destruct (reflexivity w : only_handlers w w) as (R1 & R2 & R3).
  split; [by rewrite H1 | split; [by intros r; rewrite H2 | done]].
Qed.

Lemma only_handlers_set_result_handler o l w :
  only_handlers w (Async.set_result_handler o l w).
Proof.
  destruct (reflexivity w : only_handlers w w) as (R1 & R2 & R3).
  destruct o as [|self]; simpl.
  - split; [|split]; [exists l | |]; by destruct w.
  - split; [by destruct w | split; [|by destruct w]].
    intros r. replace (Async.pipelines (Async.set_pipelines
        (alter (Async.AsyncPipeline.set__result_handler l) self (Async.pipelines w)) w))
      with (alter (Async.AsyncPipeline.set__result_handler l) self (Async.pipelines w))
      by by destruct w.
    destruct (decide (r = self)) as [->|Hne].
    + rewrite lookup_alter_eq. destruct (_ !! self) as [p|]; constructor. by exists l.
    + rewrite lookup_alter_ne by done. apply R2.
Qed.

Lemma offer_only_handlers o e snapshot :
  frames only_handlers (Async.offer o snapshot e).
Proof.
  induction snapshot as [|handler rest IH]; [f_leaf|].
  intros w w' r. rewrite offer_cons.
  destruct (Async.waiters w !! handler) as [self|] eqn:E; [|apply IH].
  intros H.
  etrans; [apply (only_handlers_set_waiters
                   (<[handler:=(Async.set self e).1]> (Async.waiters w)))|].
  revert H. generalize (Async.set_waiters (<[handler:=(Async.set self e).1]> (Async.waiters w)) w).
  intros w1. revert w1 w' r.
  change (frames only_handlers
    (Async.emit [Async.SetCall handler e (Async.set self e).2];;
     (if (Async.set self e).2 then
        hs ← gets (Async.result_handler o);
        match list_remove handler hs with
        | None => raise (Exn "ValueError" "list.remove(x): x not in list")
        | Some hs' => modify (Async.set_result_handler o hs')
        end
      else mret ());;
     Async.offer o rest e)).
  fbind; [apply frames_modify; intros w2; apply only_handlers_set_effects|]. intros _.
  fbind; [|intros _; exact IH].
  destruct (Async.set self e).2; [|f_leaf].
  fbind; [f_leaf|]. intros hs.
  destruct (list_remove handler hs); [|f_leaf].
  apply frames_modify. intros w2. apply only_handlers_set_result_handler.
Qed.

Lemma list_remove_other (x y : nat) l l' :
  list_remove x l = Some l' -> y <> x -> y ∈ l -> y ∈ l'.
Proof.
  revert l'. induction l as [|a l IH]; intros l' H Hne Hin; [done|].
  simpl in H. destruct (decide (x = a)) as [->|Ha].
  - rewrite bool_decide_eq_true_2 in H by done. injection H as <-.
    apply elem_of_cons in Hin as [?|?]; done.
  - rewrite bool_decide_eq_false_2 in H by done.
    destruct (list_remove x l) as [l0|]; [|discriminate]. injection H as <-.
    apply elem_of_cons in Hin as [->|Hin]; [by left | right; by apply IH].
Qed.

Lemma set_refused m e : (Async.set m e).2 = false -> (Async.set m e).1 = m.
Proof. unfold Async.set. by destruct (_ && _). Qed.

(** A waiter that does not take the event stays pending and as it is. *)
Lemma offer_keeps_refusing o e h m : forall snapshot w w',
  Async.offer o snapshot e w = (w', Returned ()) ->
  Async.waiters w !! h = Some m ->
  (Async.set m e).2 = false ->
  h ∈ Async.result_handler o w ->
  h ∈ Async.result_handler o w' /\ Async.waiters w' !! h = Some m.
Proof.
  induction snapshot as [|x rest IH]; intros w w' H Hm Hs Hh.
  { injection H as <-. done. }
  rewrite offer_cons in H.
  destruct (Async.waiters w !! x) as [mx|] eqn:Ex; [|by eapply IH].
  apply bind_returned in H as (w1 & [] & H1 & H).
  apply bind_returned in H as (w2 & [] & H2 & H).
  injection H1 as <-.
  set (w0 := Async.set_waiters (<[x:=(Async.set mx e).1]> (Async.waiters w)) w) in *.
  set (w1 := Async.set_effects _ w0) in *.
  assert (Hr1 : Async.result_handler o w1 = Async.result_handler o w).
  { subst w1 w0. destruct o, w; reflexivity. }
  assert (Hw1 : Async.waiters w1 = <[x:=(Async.set mx e).1]> (Async.waiters w)).
  { subst w1 w0. destruct w; reflexivity. }
  assert (Hm1 : Async.waiters w1 !! h = Some m).
  { rewrite Hw1. destruct (decide (x = h)) as [->|Hne].
    - rewrite lookup_insert_eq. rewrite Hm in Ex. injection Ex as <-.
      by rewrite set_refused.
    - by rewrite lookup_insert_ne. }
  destruct (Async.set mx e).2 eqn:Eb.
  - assert (Hne : h <> x).
    { intros ->. rewrite Hm in Ex. injection Ex as <-. congruence. }
    apply bind_returned in H2 as (w3 & hs & H3 & H2). injection H3 as <- <-.
    rewrite Hr1 in H2.
    destruct (list_remove x (Async.result_handler o w)) as [hs'|] eqn:El; [|discriminate].
    injection H2 as <-.
    apply (IH _ _ H).
    + rewrite <- Hm1. destruct o, w1 as [[] ? ? ? ? ?]; reflexivity.
    + done.
    + rewrite result_handler_set.
      * eapply list_remove_other; eauto.
      * eapply result_handler_some. rewrite Hr1. exact Hh.
  - injection H2 as <-. apply (IH _ _ H); [done | done | by rewrite Hr1].
Qed.

Lemma deliver_registered core e w :
  registered_once w -> registered_once (Async.deliver core e w).1.
Proof.
  intros Hr.
  assert (Hi : at_most_once (Async.next_ref w) w).
  { assert (H0 : accepted (Async.next_ref w) (Async.effects w) = 0%nat).
    { apply accepted_none. intros x b Hin. apply (once_called _ Hr) in Hin. lia. }
    split; [done|]. split; [lia | done]. }
  apply (deliver_once core _ e) in Hi. apply Hi.
Qed.

(** What the codec does with an event that carries no state and no key:
    nothing. *)
Lemma codec_receive_id e w :
  (forall st reason, body e <> PipelineStateEvent st reason) ->
  (forall st reason, body e <> RunspacePoolStateEvent st reason) ->
  body e <> EncryptedSessionKeyEvent ->
  Async.codec_receive e w = w.
Proof.
  intros H1 H2 H3. unfold Async.codec_receive.
  assert (Hp : ClientRunspacePool.receive (Async.AsyncRunspacePool._pool (Async.pool w)) e
               = Async.AsyncRunspacePool._pool (Async.pool w)).
  { unfold ClientRunspacePool.receive.
    destruct (pipeline_id e), (body e);
      first [reflexivity | exact (False_ind _ (H1 _ _ eq_refl))
            | exact (False_ind _ (H2 _ _ eq_refl)) | exact (False_ind _ (H3 eq_refl))]. }
  rewrite Hp.
  assert (Hw : Async.set_pool
                 (Async.AsyncRunspacePool.set__pool
                    (Async.AsyncRunspacePool._pool (Async.pool w)) (Async.pool w)) w = w)
    by by destruct w as [[] ? ? ? ? ?].
  rewrite Hw.
  destruct (pipeline_id e ≫= _) as [self|]; [|done].
  rewrite alter_id; [by destruct w|].
  intros p _. unfold ClientPipeline.receive.
  destruct (body e); first [by destruct p | exact (False_ind _ (H1 _ _ eq_refl))].
Qed.

Lemma pipeline_receive_output core self pid d w p :
  Async.pipelines w !! self = Some p ->
  Async.pipeline_handle_event core self (ev pid (PipelineOutputEvent d)) w =
    (let s := Async._append (Async.AsyncPipeline._stream_output p) d in
     let w1 := Async.set_pipelines
                 (alter (Async.AsyncPipeline.set__stream_output s.1.1) self (Async.pipelines w))
                 w in
     Async.set_effects (Async.effects w1 ++ Async.fired Async.arg_record s.1.2) w1,
     Returned false).
Proof.
  intros Hp.
  unfold Async.pipeline_handle_event, Async.get_pipeline, mbind at 1, St_mbind, St_bind.
  rewrite Hp. unfold mbind at 1, St_mbind, St_bind, gets. simpl.
  unfold Async.append_record, Async.modify_pipeline, Async.emit, modify,
    mbind, St_mbind, St_bind. simpl.
  by rewrite _append_never_raises.
Qed.

(** An output event of a collecting pipeline: the object is added to the
    stream, and the task goes on waiting. *)
Lemma deliver_output core self pid h x out d w :
  collecting self pid h x out w ->
  exists w',
    Async.deliver core (ev (Some pid) (PipelineOutputEvent d)) w = (w', Returned false) /\
    collecting self pid h x (out ++ [d]) w' /\
    Async.inbox w' = Async.inbox w.
Proof.
  intros (Hr & Ht & Hm & p & Hp & Hid & He & Hc & Hi & Hh).
  set (e := ev (Some pid) (PipelineOutputEvent d)).
  pose proof (deliver_registered core e w Hr) as Hr'.
  destruct (Async.deliver core e w) as [w' r] eqn:Ed. simpl in Hr'.
  pose proof (keeps_table _ _ _ _ (keeps_deliver core e h _ _ _ Ed)) as Kt.
  unfold Async.deliver, mbind at 1, St_mbind, St_bind, modify in Ed.
  rewrite codec_receive_id in Ed by (intros; discriminate).
  unfold Async._event_received, mbind at 1, St_mbind, St_bind, gets in Ed.
  simpl in Ed. rewrite Ht in Ed.
  unfold Async.pipeline_event_received, mbind at 1, St_mbind, St_bind in Ed.
  unfold e in Ed. rewrite (pipeline_receive_output core self (Some pid) d w p Hp) in Ed.
  fold e in Ed. cbv zeta in Ed.
  set (s := Async._append (Async.AsyncPipeline._stream_output p) d) in *.
  set (p1 := Async.AsyncPipeline.set__stream_output s.1.1 p).
  set (w1 := Async.set_effects _ _) in Ed.
  assert (Hp1 : Async.pipelines w1 !! self = Some p1).
  { subst w1. destruct w; simpl in *. by rewrite lookup_alter_eq, Hp. }
  assert (Hh1 : Async.result_handler (Async.the_pipeline self) w1 =
                Async.AsyncPipeline._result_handler p).
  { simpl. rewrite Hp1. subst p1. by destruct p. }
  assert (Hm1 : Async.waiters w1 = Async.waiters w) by (subst w1; by destruct w).
  assert (Hi1 : Async.inbox w1 = Async.inbox w) by (subst w1; by destruct w).
  unfold mbind at 1, St_mbind, St_bind, gets in Ed.
  unfold mbind at 1, St_mbind, St_bind in Ed.
  destruct (Async.offer (Async.the_pipeline self) _ e w1) as [w2 r2] eqn:Eo.
  pose proof (offer_only_handlers _ _ _ _ _ _ Eo) as (_ & Hps & Hin).
  assert (Hnd : NoDup (Async.AsyncPipeline._result_handler p)).
  { pose proof (once_nodup _ Hr (Async.the_pipeline self)) as N. simpl in N.
    by rewrite Hp in N. }
  destruct (offer_sound (Async.the_pipeline self) e
              (Async.result_handler (Async.the_pipeline self) w1) w1) as (w3 & es & Eo' & _).
  { by rewrite Hh1. } { by rewrite Hh1. } { done. }
  rewrite Eo in Eo'. injection Eo' as <- ->.
  injection Ed as <- <-.
  destruct (offer_keeps_refusing _ _ h
              (Async.MessageResult_new PipelineStateEvent_t (Some Async.not_running))
              _ _ _ Eo) as [Hh2 Hm2].
  { rewrite Hm1. exact Hm. } { reflexivity. } { by rewrite Hh1. }
  exists w2. split; [done|]. split; [|congruence].
  split; [done|]. split; [by rewrite Kt|]. split; [done|].
  specialize (Hps self). rewrite Hp1 in Hps.
  inversion Hps as [? p2 [l Hl] E1 E2|]; subst.
  exists (Async.AsyncPipeline.set__result_handler l p1). split; [done|].
  simpl in Hh2. rewrite <- E2 in Hh2.
  pose proof (_append_items (Async.AsyncPipeline._stream_output p) d) as Hai.
  rewrite Hc in Hai.
  assert (Hac : Async.completed s.1.1 = false).
  { subst s. unfold Async._append, Async.append. rewrite Hc. simpl. exact Hc. }
  subst p1. destruct p; simpl in *. repeat split; try done.
Qed.

Lemma pipeline_receive_state core self pid st reason w p :
  Async.pipelines w !! self = Some p ->
  Async.pipeline_handle_event core self (ev pid (PipelineStateEvent st reason)) w =
    (Async.set_effects
       (Async.effects w ++
        Async.fired Async.arg_event
          (Async.call (Async.AsyncPipeline.state_changed p)
             (ev pid (PipelineStateEvent st reason)))) w,
     Returned false).
Proof.
  intros Hp.
  unfold Async.pipeline_handle_event, Async.get_pipeline, mbind at 1, St_mbind, St_bind.
  rewrite Hp. unfold mbind at 1, St_mbind, St_bind, gets. simpl.
  reflexivity.
Qed.

Lemma codec_receive_state pid st reason self w :
  Async.AsyncRunspacePool.pipeline_table (Async.pool w) !! pid = Some self ->
  Async.codec_receive (ev (Some pid) (PipelineStateEvent st reason)) w =
    Async.set_pipelines
      (alter (fun p => Async.AsyncPipeline.set__pipeline
                         (ClientPipeline.set_state st (Async.AsyncPipeline._pipeline p)) p)
             self (Async.pipelines w)) w.
Proof.
  intros Ht. unfold Async.codec_receive. destruct w as [[] ? ? ? ? ?]; simpl in *.
  by rewrite Ht.
Qed.

(** The state event that ends a collecting pipeline: the waiter of the
    task takes it, and the stream holds what has been collected. *)
Lemma deliver_final core self pid h x out st reason w :
  collecting self pid h x out w ->
  st <> PSInvocationState.Running ->
  exists w' p',
    Async.deliver core (ev (Some pid) (PipelineStateEvent st reason)) w = (w', Returned false) /\
    Async.waiters w' !! h ≫= Async.wait = Some (ev (Some pid) (PipelineStateEvent st reason)) /\
    Async.pipelines w' !! self = Some p' /\
    Async.AsyncRunspacePool.pipeline_table (Async.pool w') !! Async.pipeline_id_of p'
      = Some self /\
    Async.AsyncPipeline._explicit_output p' = x /\
    Async.items (Async.AsyncPipeline._stream_output p') = out /\
    Async.inbox w' = Async.inbox w.
Proof.
  intros (Hr & Ht & Hm & p & Hp & Hid & He & Hc & Hi & Hh) Hst.
  set (e := ev (Some pid) (PipelineStateEvent st reason)).
  destruct (Async.deliver core e w) as [w' r] eqn:Ed.
  pose proof (keeps_table _ _ _ _ (keeps_deliver core e h _ _ _ Ed)) as Kt.
  unfold Async.deliver, mbind at 1, St_mbind, St_bind, modify in Ed.
  unfold e in Ed. rewrite (codec_receive_state pid st reason self w Ht) in Ed. fold e in Ed.
  set (p0 := Async.AsyncPipeline.set__pipeline
               (ClientPipeline.set_state st (Async.AsyncPipeline._pipeline p)) p).
  set (w0 := Async.set_pipelines _ w) in Ed.
  assert (Hp0 : Async.pipelines w0 !! self = Some p0).
  { subst w0. destruct w; simpl in *. by rewrite lookup_alter_eq, Hp. }
  assert (Ht0 : Async.AsyncRunspacePool.pipeline_table (Async.pool w0) !! pid = Some self).
  { subst w0. by destruct w. }
  unfold Async._event_received, mbind at 1, St_mbind, St_bind, gets in Ed.
  simpl in Ed. rewrite Ht0 in Ed.
  unfold Async.pipeline_event_received, mbind at 1, St_mbind, St_bind in Ed.
  unfold e in Ed. rewrite (pipeline_receive_state core self (Some pid) st reason w0 p0 Hp0) in Ed.
  fold e in Ed.
  set (w1 := Async.set_effects _ w0) in Ed.
  assert (Hp1 : Async.pipelines w1 !! self = Some p0).
  { rewrite <- Hp0. subst w1. by destruct w0. }
  assert (Hh1 : Async.result_handler (Async.the_pipeline self) w1 =
                Async.AsyncPipeline._result_handler p).
  { simpl. rewrite Hp1. subst p0. by destruct p. }
  assert (Hm1 : Async.waiters w1 = Async.waiters w).
  { subst w1 w0. by destruct w. }
  assert (Hi1 : Async.inbox w1 = Async.inbox w).
  { subst w1 w0. by destruct w. }
  unfold mbind at 1, St_mbind, St_bind, gets in Ed.
  unfold mbind at 1, St_mbind, St_bind in Ed.
  assert (Hnd : NoDup (Async.AsyncPipeline._result_handler p)).
  { pose proof (once_nodup _ Hr (Async.the_pipeline self)) as N. simpl in N.
    by rewrite Hp in N. }
  destruct (offer_sound (Async.the_pipeline self) e
              (Async.result_handler (Async.the_pipeline self) w1) w1) as (w2 & es & Eo & _).
  { by rewrite Hh1. } { by rewrite Hh1. } { done. }
  rewrite Eo in Ed. injection Ed as <- <-.
  pose proof (offer_only_handlers _ _ _ _ _ _ Eo) as (_ & Hps & Hin).
  pose proof (offer_waiters _ _ _ _ _ (eq_ind_r NoDup Hnd Hh1) Eo h) as Hw.
  rewrite Hh1, bool_decide_eq_true_2, Hm1, Hm in Hw by done.
  specialize (Hps self). rewrite Hp1 in Hps.
  inversion Hps as [? p2 [l Hl] E1 E2|]; subst p2.
  exists w2, (Async.AsyncPipeline.set__result_handler l p0).
  split; [done|]. split.
  { rewrite Hw. simpl. unfold Async.set, Async.not_running. simpl.
    by rewrite bool_decide_eq_true_2. }
  split; [done|]. split.
  { rewrite Kt. rewrite <- Ht. f_equal. rewrite <- Hid. subst p0.
    by destruct p as [[] ? ? ? ? ? ? ? ? ? ? ?]. }
  split; [subst p0; by destruct p|]. split; [subst p0; by destruct p|]. congruence.
Qed.

(** The wait of the task of a collecting pipeline: the output events are
    collected in the order of their arrival, the state event ends the
    wait, and what comes after it stays unread. *)
Lemma await_collects core self pid h x st reason rest : forall ds out w,
  collecting self pid h x out w ->
  st <> PSInvocationState.Running ->
  exists w' p',
    Async.await_loop core h
      (output_events pid ds ++ ev (Some pid) (PipelineStateEvent st reason) :: rest) w
      = (w', Returned (ev (Some pid) (PipelineStateEvent st reason))) /\
    Async.inbox w' = rest /\
    Async.pipelines w' !! self = Some p' /\
    Async.AsyncRunspacePool.pipeline_table (Async.pool w') !! Async.pipeline_id_of p'
      = Some self /\
    Async.AsyncPipeline._explicit_output p' = x /\
    Async.items (Async.AsyncPipeline._stream_output p') = out ++ ds.
Proof.
  induction ds as [|d ds IH]; intros out w Hc Hst.
  - destruct (deliver_final core self pid h x out st reason w Hc Hst)
      as (w1 & p1 & Hd & Hw & Hp & Ht & He & Hi & _).
    destruct Hc as (_ & _ & Hm & _).
    exists (Async.set_inbox rest w1), p1. rewrite app_nil_r. simpl.
    rewrite Hm. simpl. rewrite Hd. split.
    { destruct rest; simpl; rewrite Hw; reflexivity. }
    by destruct w1.
  - destruct (deliver_output core self pid h x out d w Hc) as (w1 & Hd & Hc1 & _).
    destruct (IH (out ++ [d]) w1 Hc1 Hst) as (w' & p' & Ha & H).
    exists w', p'. rewrite <- app_assoc in H. split; [|exact H].
    destruct Hc as (_ & _ & Hm & _). simpl. rewrite Hm. simpl. by rewrite Hd.
Qed.

Lemma bind_step {W A B} (m : St W A) (k : A -> St W B) w w1 a :
  m w = (w1, Returned a) -> (m ≫= k) w = k a w1.
Proof. intros H. unfold mbind, St_mbind, St_bind. by rewrite H. Qed.

Lemma result_handler_alter self f o w :
  (forall q, Async.AsyncPipeline._result_handler (f q) = Async.AsyncPipeline._result_handler q) ->
  Async.result_handler o (Async.set_pipelines (alter f self (Async.pipelines w)) w)
    = Async.result_handler o w.
Proof.
  intros Hf. destruct o as [|r]; [by destruct w|]. destruct w as [? ps ? ? ? ?]; simpl.
  destruct (decide (r = self)) as [->|Hne].
  - rewrite lookup_alter_eq. destruct (ps !! self); simpl; [apply Hf | done].
  - by rewrite lookup_alter_ne.
Qed.

Lemma registered_once_alter self f w :
  (forall q, Async.AsyncPipeline._result_handler (f q) = Async.AsyncPipeline._result_handler q) ->
  registered_once w ->
  registered_once (Async.set_pipelines (alter f self (Async.pipelines w)) w).
Proof.
  intros Hf. apply registered_once_ext; [|by destruct w|by destruct w].
  intros o. by apply result_handler_alter.
Qed.

Lemma registered_once_table t w :
  registered_once w ->
  registered_once
    (Async.set_pool (Async.AsyncRunspacePool.set_pipeline_table t (Async.pool w)) w).
Proof.
  apply registered_once_ext; [intros [|self] | |]; by destruct w as [[] ? ? ? ? ?].
Qed.

Lemma send_inputs_plain core self buffer_input ds : forall w,
  is_Some (Async.pipelines w !! self) ->
  Forall (fun d => a_will_raise_send w d = false) ds ->
  registered_once w ->
  exists w',
    Async.send_inputs core self buffer_input ds w = (w', Returned ()) /\
    registered_once w' /\
    Async.pipelines w' = Async.pipelines w /\
    Async.waiters w' = Async.waiters w /\
    Async.inbox w' = Async.inbox w /\
    Async.pool w' = Async.pool w.
Proof.
  induction ds as [|d ds IH]; intros w [p Hp] Hf Hr.
  { exists w. split; [reflexivity|]. split; [exact Hr|]. by repeat split. }
  apply Forall_cons in Hf as [Hd Hf].
  set (w1 := Async.set_effects
               (Async.effects w ++ [Async.Codec (codec_send (Async.pipeline_id_of p) d)]) w).
  set (w2 := Async.set_effects
               (Async.effects w1 ++
                [Async.Conn (if buffer_input then conn_send true else conn_send_all)]) w1).
  assert (Hs : Async.send_input core self buffer_input d w = (w2, Returned ())).
  { unfold Async.send_input, mbind, St_mbind, St_bind, Async.send_with_retry, try_except.
    rewrite (pipeline_send_eq self d w p Hp). cbv zeta. rewrite Hd. reflexivity. }
  assert (H2 : Async.pipelines w2 = Async.pipelines w /\ Async.waiters w2 = Async.waiters w /\
               Async.inbox w2 = Async.inbox w /\ Async.pool w2 = Async.pool w).
  { subst w2 w1. by destruct w. }
  destruct H2 as (P2 & W2 & I2 & L2).
  destruct (IH w2) as (w' & Hi & Hr' & P' & W' & I' & L').
  { rewrite P2. eauto. }
  { eapply Forall_impl; [exact Hf|]. intros x Hx. rewrite <- Hx.
    unfold a_will_raise_send, a_cipher. by rewrite L2. }
  { by apply registered_once_emit_conn, registered_once_emit_codec. }
  exists w'. split.
  { simpl. by rewrite (bind_step _ _ _ _ _ Hs). }
  split; [done|]. repeat split; congruence.
Qed.

Lemma start_and_send_plain core self input_data buffer_input w p :
  registered_once w ->
  Async.pipelines w !! self = Some p ->
  a_will_raise_start w p = false ->
  Forall (fun d => a_will_raise_send w d = false) (default [] input_data) ->
  exists w0,
    Async.start_and_send core self input_data buffer_input w = (w0, Returned ()) /\
    registered_once w0 /\
    Async.pipelines w0 =
      alter (Async.AsyncPipeline.set__pipeline
               (ClientPipeline.set_state PSInvocationState.Running
                  (Async.AsyncPipeline._pipeline p))) self (Async.pipelines w) /\
    Async.waiters w0 = Async.waiters w /\
    Async.inbox w0 = Async.inbox w /\
    Async.AsyncRunspacePool.pipeline_table (Async.pool w0) =
      <[Async.pipeline_id_of p := self]>
        (Async.AsyncRunspacePool.pipeline_table (Async.pool w)).
Proof.
  intros Hr Hp Hs Hf.
  set (pd := Async.AsyncPipeline.set__pipeline
               (ClientPipeline.set_state PSInvocationState.Running
                  (Async.AsyncPipeline._pipeline p)) p).
  set (w1 := Async.set_effects
               (Async.effects w ++ [Async.Codec (codec_start (Async.pipeline_id_of p))]) w).
  set (w2 := Async.set_pipelines
               (alter (Async.AsyncPipeline.set__pipeline
                         (ClientPipeline.set_state PSInvocationState.Running
                            (Async.AsyncPipeline._pipeline p)))
                      self (Async.pipelines w1)) w1).
  assert (Hst : Async.start_with_retry core self w = (w2, Returned ())).
  { unfold Async.start_with_retry, try_except.
    rewrite (pipeline_start_eq self w p Hp). cbv zeta. by rewrite Hs. }
  assert (Hp2 : Async.pipelines w2 !! self = Some pd).
  { subst w2 w1. destruct w; simpl in *. by rewrite lookup_alter_eq, Hp. }
  assert (Hid : Async.pipeline_id_of pd = Async.pipeline_id_of p).
  { subst pd. by destruct p as [[] ? ? ? ? ? ? ? ? ? ? ?]. }
  set (w3 := Async.set_pool
               (Async.AsyncRunspacePool.set_pipeline_table
                  (<[Async.pipeline_id_of pd := self]>
                     (Async.AsyncRunspacePool.pipeline_table (Async.pool w2)))
                  (Async.pool w2)) w2).
  set (w4 := Async.set_effects
               (Async.effects w3 ++ [Async.Conn (conn_command (Async.pipeline_id_of pd))]) w3).
  set (w5 := Async.set_effects (Async.effects w4 ++ [Async.Conn conn_send_all]) w4).
  assert (Hr5 : registered_once w5).
  { apply registered_once_emit_conn, registered_once_emit_conn, registered_once_table.
    apply registered_once_alter; [by intros [] |].
    by apply registered_once_emit_codec. }
  assert (H5 : Async.pipelines w5 = Async.pipelines w2 /\
               Async.waiters w5 = Async.waiters w /\ Async.inbox w5 = Async.inbox w /\
               Async.AsyncRunspacePool.pipeline_table (Async.pool w5) =
                 <[Async.pipeline_id_of p := self]>
                   (Async.AsyncRunspacePool.pipeline_table (Async.pool w)) /\
               a_cipher w5 = a_cipher w).
  { rewrite <- Hid. subst w5 w4 w3 w2 w1. by destruct w as [[] ? ? ? ? ?]. }
  destruct H5 as (P5 & W5 & I5 & T5 & C5).
  assert (P2 : Async.pipelines w2 =
               alter (Async.AsyncPipeline.set__pipeline
                        (ClientPipeline.set_state PSInvocationState.Running
                           (Async.AsyncPipeline._pipeline p))) self (Async.pipelines w)).
  { subst w2 w1. by destruct w. }
  assert (Hhead : forall k : Async.AsyncPipeline.t -> Async.M unit,
            (Async.start_with_retry core self;;
             q ← Async.get_pipeline self;
             Async.modify_pool (fun pl => Async.AsyncRunspacePool.set_pipeline_table
               (<[Async.pipeline_id_of q := self]>
                  (Async.AsyncRunspacePool.pipeline_table pl)) pl);;
             Async.emit [Async.Conn (conn_command (Async.pipeline_id_of q))];;
             Async.emit [Async.Conn conn_send_all];;
             k q) w = k pd w5).
  { intros k. rewrite (bind_step _ _ _ _ _ Hst).
    unfold Async.get_pipeline at 1. unfold mbind at 1, St_mbind, St_bind. rewrite Hp2.
    reflexivity. }
  destruct input_data as [ds|]; simpl in Hf.
  - destruct (send_inputs_plain core self buffer_input ds w5) as (w6 & Hsi & Hr6 & P6 & W6 & I6 & L6).
    { rewrite P5, Hp2. eauto. }
    { eapply Forall_impl; [exact Hf|]. intros x Hx. rewrite <- Hx.
      unfold a_will_raise_send. by rewrite C5. }
    { done. }
    eexists. split.
    { etrans; [exact (Hhead (fun q =>
        Async.send_inputs core self buffer_input ds;;
        Async.emit [Async.Codec (codec_send_eof (Async.pipeline_id_of q))];;
        Async.emit [Async.Conn conn_send_all]))|].
      rewrite (bind_step _ _ _ _ _ Hsi). reflexivity. }
    split.
    { by apply registered_once_emit_conn, registered_once_emit_codec. }
    rewrite <- T5, <- I5, <- W5, <- P2, <- P5, <- P6, <- W6, <- I6, <- L6.
    by destruct w6 as [[] ? ? ? ? ?].
  - exists w5. split; [exact (Hhead (fun _ => mret ()))|]. split; [done|].
    rewrite <- P2. done.
Qed.

Lemma invoke_async_collecting core self input_data completed buffer_input w p :
  registered_once w ->
  Async.pipelines w !! self = Some p ->
  a_will_raise_start w p = false ->
  Forall (fun d => a_will_raise_send w d = false) (default [] input_data) ->
  exists w0,
    Async.invoke_async core self input_data None completed buffer_input w =
      (w0, Returned {| Async.task_self := self; Async.task_event := Async.next_ref w;
                       Async.task_completed := completed |}) /\
    collecting self (Async.pipeline_id_of p) (Async.next_ref w)
      (Async.AsyncPipeline._explicit_output p) [] w0 /\
    Async.inbox w0 = Async.inbox w.
Proof.
  intros Hr Hp Hs Hf.
  unfold Async.invoke_async.
  erewrite bind_step by reflexivity.
  set (pa := Async.AsyncPipeline.set__pipeline
               (ClientPipeline.set_no_input (if input_data is None then true else false)
                  (Async.AsyncPipeline._pipeline p)) p).
  match goal with |- context [Async.AsyncPipeline_invoke_async _ _ _ _ _ _ ?x] =>
    set (wa := x) end.
  assert (Hra : registered_once wa).
  { apply registered_once_alter; [by intros [] | done]. }
  assert (Hpa : Async.pipelines wa !! self = Some pa).
  { subst wa. destruct w; simpl in *. by rewrite lookup_alter_eq, Hp. }
  unfold Async.AsyncPipeline_invoke_async, Async.set_output_stream.
  erewrite bind_step by reflexivity.
  set (pb := Async.AsyncPipeline.set__stream_output (Async.AsyncPSDataCollection_new [] false) pa).
  match goal with |- context [(_ ≫= _) ?x] => set (wb := x) end.
  assert (Hrb : registered_once wb).
  { apply registered_once_alter; [by intros [] | done]. }
  assert (Hpb : Async.pipelines wb !! self = Some pb).
  { subst wb. destruct wa; simpl in *. by rewrite lookup_alter_eq, Hpa. }
  rewrite (bind_step _ _ wb
             (register (Async.the_pipeline self) PipelineStateEvent_t
                (Some Async.not_running) wb).1
             {| Async.task_self := self; Async.task_event := Async.next_ref wb;
                Async.task_completed := completed |}) by reflexivity.
  pose proof (register_registered (Async.the_pipeline self) PipelineStateEvent_t
                (Some Async.not_running) wb Hrb) as Hrc.
  set (wc := (register _ _ _ wb).1) in *.
  set (h := Async.next_ref wb).
  set (pc := Async.AsyncPipeline.set__result_handler
               (Async.AsyncPipeline._result_handler pb ++ [h]) pb).
  assert (Hpc : Async.pipelines wc !! self = Some pc).
  { subst wc. unfold register, Async.new_waiter, Async.add_result_handler,
      mbind, St_mbind, St_bind, modify. simpl.
    destruct wb as [? ps ? ? ? ?]; simpl in *. rewrite Hpb. simpl.
    by rewrite lookup_alter_eq, Hpb. }
  assert (Hwc : Async.waiters wc !! h =
                Some (Async.MessageResult_new PipelineStateEvent_t (Some Async.not_running))).
  { subst wc h. unfold register, Async.new_waiter, Async.add_result_handler,
      mbind, St_mbind, St_bind, modify. simpl.
    destruct wb as [? ps ? ? ? ?]; simpl in *. apply lookup_insert_eq. }
  assert (Htc : Async.inbox wc = Async.inbox w /\ a_cipher wc = a_cipher w).
  { subst wc wb wa. by destruct w. }
  destruct Htc as (Hic & Hcc).
  assert (Hh : h = Async.next_ref w) by (subst h wb wa; by destruct w).
  assert (Hidc : Async.pipeline_id_of pc = Async.pipeline_id_of p).
  { subst pc pb pa. by destruct p as [[] ? ? ? ? ? ? ? ? ? ? ?]. }
  destruct (start_and_send_plain core self input_data buffer_input wc pc Hrc Hpc)
    as (w0 & Hss & Hr0 & Hp0 & Hw0 & Hi0 & Ht0).
  { rewrite <- Hs. unfold a_will_raise_start. rewrite Hcc. f_equal.
    subst pc pb pa. by destruct p as [[] ? ? ? ? ? ? ? ? ? ? ?]. }
  { eapply Forall_impl; [exact Hf|]. intros x Hx. rewrite <- Hx.
    unfold a_will_raise_send. by rewrite Hcc. }
  rewrite (bind_step _ _ _ _ _ Hss).
  exists w0. split; [by rewrite Hh|]. split; [|congruence].
  rewrite <- Hh. split; [done|]. split.
  { rewrite Ht0, Hidc. apply lookup_insert_eq. }
  split; [by rewrite Hw0|].
  eexists. split; [by rewrite Hp0, lookup_alter_eq, Hpc|].
  subst pc pb pa. destruct p as [[] ? ? ? ? ? ? ? ? ? ? ?]; simpl.
  repeat split; try done. apply elem_of_app. right. by left.
Qed.

Lemma close_inbox self w w' r :
  Async.close self w = (w', r) -> Async.inbox w' = Async.inbox w.
Proof.
  unfold Async.close, Async.get_pipeline, Async.emit, Async.modify_pool, modify, gets,
    mbind, St_mbind, St_bind.
  destruct (Async.pipelines w !! self) as [p|]; [|by intros [= <- _]]. simpl.
  destruct (_ !! Async.pipeline_id_of p) as [q|]; [|by intros [= <- _]].
  destruct (Async.pipelines w !! q) as [pq|]; [|by intros [= <- _]].
  destruct (decide _); intros [= <- _]; by destruct w.
Qed.

(** [invoke] without an output stream, from the start to the result: when
    the codec takes the commands and the input without a session key, and
    the peer then sends output events of the pipeline and the state event
    that ends it, the call gives the translation of that state, and what
    it returns are the objects of the output events, in the order of
    their arrival (nothing, when an earlier call gave the pipeline an
    output stream).  What the peer sent after the state is not read. *)
Theorem async_invoke_collects_output core self input_data buffer_input w p ds st reason rest :
  registered_once w ->
  Async.pipelines w !! self = Some p ->
  a_will_raise_start w p = false ->
  Forall (fun d => a_will_raise_send w d = false) (default [] input_data) ->
  st <> PSInvocationState.Running ->
  Async.inbox w =
    output_events (Async.pipeline_id_of p) ds ++
    ev (Some (Async.pipeline_id_of p)) (PipelineStateEvent st reason) :: rest ->
  exists w',
    Async.invoke core self input_data None buffer_input w =
      (w', translated st reason (Async.AsyncPipeline._explicit_output p) ds) /\
    Async.inbox w' = rest.
Proof.
  intros Hr Hp Hs Hf Hst Hi.
  destruct (invoke_async_collecting core self input_data None buffer_input w p Hr Hp Hs Hf)
    as (w0 & Hia & Hc & Hi0).
  destruct (await_collects core self _ _ _ st reason rest ds [] w0 Hc Hst)
    as (w1 & p1 & Ha & Hi1 & Hp1 & Ht1 & He1 & Ho1).
  rewrite <- Hi, <- Hi0 in Ha.
  change (Async.await core (Async.next_ref w) w0 =
          (w1, Returned (ev (Some (Async.pipeline_id_of p)) (PipelineStateEvent st reason))))
    in Ha.
  destruct (close_tabled self w1) as (w2 & Hcl & Hps).
  { exists p1. by split. }
  exists w2. split; [|by rewrite (close_inbox _ _ _ _ Hcl)].
  unfold Async.invoke. rewrite (bind_step _ _ _ _ _ Hia).
  unfold Async._pipelines_task_finish. simpl.
  rewrite (bind_step _ _ _ _ _ Ha).
  erewrite bind_step by reflexivity.
  rewrite (bind_step _ _ _ _ _ Hcl).
  unfold Async.get_pipeline, mbind, St_mbind, St_bind. rewrite Hps, Hp1, He1, Ho1.
  simpl. unfold lift.
  rewrite <- (translate_state_translated
                (ev (Some (Async.pipeline_id_of p)) (PipelineStateEvent st reason))
                st reason (Async.AsyncPipeline._explicit_output p) ds eq_refl).
  by destruct (Async.translate_state _ _ _).
Qed.

Lemma registered_once_no_waiter w :
  (forall o, Async.result_handler o w = []) -> Async.effects w = [] -> registered_once w.
Proof.
  intros E He. split.
  - intros o. rewrite E. apply NoDup_nil_2.
  - intros o o' h. rewrite E. intros Hin. by apply elem_of_nil in Hin.
  - intros o h. rewrite E. intros Hin. by apply elem_of_nil in Hin.
  - intros h e b. rewrite He. intros Hin. by apply elem_of_nil in Hin.
Qed.

Lemma registered_once_pipeline_world host inbox :
  registered_once (async_pipeline_world host inbox).
Proof.
  apply registered_once_no_waiter; [|reflexivity].
  intros [|self]; [exact (async_pool_result_handler host)|]. simpl.
  assert (Hm : exists p0, Async.pipelines (async_pipeline_world host inbox) = {[0%nat := p0]} /\
                          Async.AsyncPipeline._result_handler p0 = []).
  { eexists. split; reflexivity. }
  destruct Hm as (p0 & -> & Hp0).
  destruct (decide (self = 0%nat)) as [->|Hne].
  - by rewrite lookup_singleton_eq.
  - by rewrite lookup_singleton_ne.
Qed.

Lemma async_invoke_collects_output_witness :
  exists w',
    Async.invoke core_any 0 (Some [VInt 1]) None true
      (async_pipeline_world None
         (output_events 7 [VStr "a"; VStr "b"] ++
          [ev (Some 7) (PipelineStateEvent PSInvocationState.Completed None);
           ev None EncryptedSessionKeyEvent]))
      = (w', Returned [VStr "a"; VStr "b"]) /\
    Async.inbox w' = [ev None EncryptedSessionKeyEvent].
Proof.
  epose proof (async_invoke_collects_output core_any 0 (Some [VInt 1]) true
           (async_pipeline_world None
              (output_events 7 [VStr "a"; VStr "b"] ++
               [ev (Some 7) (PipelineStateEvent PSInvocationState.Completed None);
                ev None EncryptedSessionKeyEvent]))
           _ [VStr "a"; VStr "b"] PSInvocationState.Completed None
           [ev None EncryptedSessionKeyEvent]
           (registered_once_pipeline_world _ _) eq_refl eq_refl _ _ eq_refl) as H.
  exact H.
  Unshelve.
  - repeat constructor.
  - discriminate.
Defined.

(** ** [psrp/_async.py]: an event after [close] *)

(** An event for a pipeline that has been closed makes the callback of
    the pool raise [KeyError]: [close] takes the pipeline out of the
    table, and [_event_received] looks the pipeline of the event up
    there.  No waiter is offered the event, and the pipelines are as
    they were. *)
Theorem async_event_after_close_raises core self w p e :
  Async.pipelines w !! self = Some p ->
  Async.AsyncRunspacePool.pipeline_table (Async.pool w) !! Async.pipeline_id_of p = Some self ->
  Async.state p <> PSInvocationState.Disconnected ->
  pipeline_id e = Some (Async.pipeline_id_of p) ->
  exists w1 w2,
    Async.close self w = (w1, Returned ()) /\
    Async.deliver core e w1 = (w2, Raised (Exn "KeyError" "pipeline_id")) /\
    Async.pipelines w2 = Async.pipelines w /\
    Async.waiters w2 = Async.waiters w.
Proof.
  intros Hp Ht Hst He.
  set (w1 := Async.set_pool
               (Async.AsyncRunspacePool.set_pipeline_table
                  (delete (Async.pipeline_id_of p)
                     (Async.AsyncRunspacePool.pipeline_table (Async.pool w))) (Async.pool w))
               (Async.set_effects
                  (Async.effects w ++ [Async.Conn (conn_close (Some (Async.pipeline_id_of p)))]) w)).
  assert (Hc : Async.close self w = (w1, Returned ())).
  { unfold Async.close, Async.get_pipeline, Async.emit, Async.modify_pool, modify, gets,
      mbind, St_mbind, St_bind.
    rewrite Hp. simpl. rewrite Ht, Hp.
    destruct (decide _) as [Hd|Hd]; [done|]. subst w1. by destruct w. }
  assert (H1 : Async.AsyncRunspacePool.pipeline_table (Async.pool w1) !! Async.pipeline_id_of p
                 = None /\
               Async.pipelines w1 = Async.pipelines w /\
               Async.waiters w1 = Async.waiters w).
  { subst w1. destruct w as [[] ? ? ? ? ?]; simpl. by rewrite lookup_delete_eq. }
  destruct H1 as (Ht1 & Hp1 & Hs1).
  set (w2 := Async.codec_receive e w1).
  assert (H2 : Async.AsyncRunspacePool.pipeline_table (Async.pool w2) !! Async.pipeline_id_of p
                 = None /\
               Async.pipelines w2 = Async.pipelines w /\
               Async.waiters w2 = Async.waiters w).
  { rewrite <- Hp1, <- Hs1. subst w2. unfold Async.codec_receive. rewrite He. simpl.
    clearbody w1. destruct w1 as [[] ? ? ? ? ?]; simpl in *. rewrite Ht1. done. }
  destruct H2 as (Ht2 & Hp2 & Hs2).
  exists w1, w2. split; [exact Hc|]. split; [|done].
  unfold Async.deliver. erewrite bind_step by reflexivity. fold w2.
  unfold Async._event_received. erewrite bind_step by reflexivity.
  rewrite He, Ht2. reflexivity.
Qed.

Lemma async_event_after_close_raises_witness :
  exists w1 w2,
    Async.close 0 (async_running_world []) = (w1, Returned ()) /\
    Async.deliver core_any (ev (Some 7) (PipelineOutputEvent (VInt 1))) w1
      = (w2, Raised (Exn "KeyError" "pipeline_id")) /\
    Async.pipelines w2 = Async.pipelines (async_running_world []) /\
    Async.waiters w2 = Async.waiters (async_running_world []).
Proof.
  eapply (async_event_after_close_raises core_any 0 (async_running_world []) _
            (ev (Some 7) (PipelineOutputEvent (VInt 1)))).
  - reflexivity.
  - reflexivity.
  - discriminate.
  - reflexivity.
Defined.

(** ** [psrp/_sync.py]: iterating a stream *)

Local Open Scope nat_scope.

Lemma s_append_all_open vs : forall l q,
  s_append_all {| Sync.items := l; Sync._added_idx := q; Sync._complete := false |} vs =
    {| Sync.items := l ++ vs;
       Sync._added_idx := q ++ map Some (seq (length l) (length vs));
       Sync._complete := false |}.
Proof.
  induction vs as [|v vs IH]; intros l q; simpl.
  - by rewrite !app_nil_r.
  - unfold s_append_all in *. simpl. unfold Sync.append at 2. simpl.
    rewrite IH. rewrite <- !app_assoc. simpl.
    rewrite length_app. simpl.
    replace (length l + 1 - 1) with (length l) by lia.
    replace (length l + 1) with (S (length l)) by lia. reflexivity.
Qed.

Lemma iterate_values l q : forall n k m,
  k + n <= length l ->
  Sync.iterate (n + S m)
    {| Sync.items := l; Sync._added_idx := map Some (seq k n) ++ q; Sync._complete := false |} =
  let r := Sync.iterate (S m)
             {| Sync.items := l; Sync._added_idx := q; Sync._complete := false |} in
  (r.1.1, map Some (take n (drop k l)) ++ r.1.2, r.2).
Proof.
  induction n as [|n IH]; intros k m Hk.
  - change (0 + S m) with (S m). cbn [seq map app take]. cbn zeta.
    by destruct (Sync.iterate (S m) _) as [[? ?] ?].
  - assert (Hl : is_Some (l !! k)) by (apply lookup_lt_is_Some; lia).
    destruct Hl as [v Hv].
    change (S n + S m) with (S (n + S m)).
    cbn [seq map app Sync.iterate]. unfold Sync.__next__, Sync.wait. cbn.
    rewrite Hv. cbn. rewrite (IH (S k) m) by lia. cbn zeta.
    f_equal. f_equal.
    rewrite (drop_S l v k Hv). simpl. reflexivity.
Qed.

Lemma for_each_appended vs ws :
  let s := s_append_all (Sync.finalize (s_append_all Sync.PSDataStream_new vs)) ws in
  (Sync.for_each s).1.2 = map Some vs /\
  (Sync.for_each s).2 = Returned () /\
  Sync.items (Sync.for_each s).1.1 = vs ++ ws /\
  Sync._complete (Sync.for_each s).1.1 = true /\
  (Sync.for_each (s_append_all Sync.PSDataStream_new vs)).1.2 = map Some vs /\
  (Sync.for_each (s_append_all Sync.PSDataStream_new vs)).2 = Pending.
Proof.
  intros s.
  assert (Hn : s_append_all Sync.PSDataStream_new vs =
               {| Sync.items := vs; Sync._added_idx := map Some (seq 0 (length vs));
                  Sync._complete := false |}).
  { unfold Sync.PSDataStream_new. rewrite (s_append_all_open vs [] []). reflexivity. }
  assert (Hs : s = {| Sync.items := vs ++ ws;
                      Sync._added_idx :=
                        map Some (seq 0 (length vs)) ++
                        None :: map Some (seq (length vs) (length ws));
                      Sync._complete := false |}).
  { subst s. rewrite Hn. unfold Sync.finalize. cbn [Sync._complete negb Sync.items Sync._added_idx].
    rewrite (s_append_all_open ws). rewrite <- app_assoc. reflexivity. }
  rewrite Hs, Hn. clear Hs Hn s.
  unfold Sync.for_each. cbn [Sync._added_idx].
  set (q := None :: map Some (seq (length vs) (length ws))).
  assert (Hq : S (length (map Some (seq 0 (length vs)) ++ q)) =
               length vs + S (S (length ws))).
  { rewrite length_app, length_map, length_seq. subst q. simpl.
    rewrite length_map, length_seq. lia. }
  rewrite Hq.
  rewrite (iterate_values (vs ++ ws) q (length vs) 0) by (rewrite length_app; lia).
  assert (Hv : S (length (map Some (seq 0 (length vs)))) = length vs + 1).
  { rewrite length_map, length_seq. lia. }
  rewrite Hv.
  pose proof (iterate_values vs [] (length vs) 0 0 (le_n _)) as Hb.
  rewrite app_nil_r in Hb. rewrite Hb. clear Hb.
  cbn zeta. rewrite !drop_0, take_app_length, firstn_all.
  subst q. cbn. rewrite !app_nil_r. done.
Qed.

(** [for val in stream] gives the values appended before [finalize], in
    the order of the appends, and ends; what is appended after
    [finalize] is in the list and is never given.  On a stream that has
    not been finalized the loop gives the values and then blocks. *)
Theorem stream_iteration_yields_appended vs ws :
  let s := s_append_all (Sync.finalize (s_append_all Sync.PSDataStream_new vs)) ws in
  (Sync.for_each s).1.2 = map Some vs /\
  (Sync.for_each s).2 = Returned () /\
  Sync.items (Sync.for_each s).1.1 = vs ++ ws /\
  Sync._complete (Sync.for_each s).1.1 = true /\
  (Sync.for_each (s_append_all Sync.PSDataStream_new vs)).1.2 = map Some vs /\
  (Sync.for_each (s_append_all Sync.PSDataStream_new vs)).2 = Pending.
Proof. apply for_each_appended. Qed.


Local Close Scope nat_scope.

(** ** [psrp/_sync.py]: the listener and the pool *)

(** What the codec does with an event that carries no state and no key:
    nothing. *)
Lemma s_codec_receive_id e w :
  (forall st reason, body e <> PipelineStateEvent st reason) ->
  (forall st reason, body e <> RunspacePoolStateEvent st reason) ->
  body e <> EncryptedSessionKeyEvent ->
  Sync.codec_receive e w = w.
Proof.
  intros H1 H2 H3. unfold Sync.codec_receive.
  assert (Hp : ClientRunspacePool.receive (Sync.RunspacePool.pool (Sync.pool w)) e
               = Sync.RunspacePool.pool (Sync.pool w)).
  { unfold ClientRunspacePool.receive.
    destruct (pipeline_id e), (body e);
      first [reflexivity | exact (False_ind _ (H1 _ _ eq_refl))
            | exact (False_ind _ (H2 _ _ eq_refl)) | exact (False_ind _ (H3 eq_refl))]. }
  rewrite Hp.
  assert (Hw : Sync.set_pool
                 (Sync.RunspacePool.set_pool
                    (Sync.RunspacePool.pool (Sync.pool w)) (Sync.pool w)) w = w)
    by by destruct w as [[] ? ? ? ? ? ?].
  rewrite Hw.
  destruct (pipeline_id e ≫= _) as [self|]; [|done].
  rewrite alter_id; [by destruct w|].
  intros p _. unfold ClientPipeline.receive.
  destruct (body e); first [by destruct p | exact (False_ind _ (H1 _ _ eq_refl))].
Qed.

(** Every record of a pipeline goes to the stream "warning": the
    listener runs the callback that [__init__] made for the kind of the
    record, and all six callbacks append to the stream that the loop of
    [__init__] made last.  The streams of the other names stay as they
    are, so an error record is not in "error". *)
Theorem sync_records_go_to_warning core e pid self w p r :
  pipeline_id e = Some pid ->
  Sync.RunspacePool.pipeline_table (Sync.pool w) !! pid = Some self ->
  Sync.pipelines w !! self = Some p ->
  Sync.record_of e = Ok r ->
  exists w' p',
    Sync.listener_step core e w = (w', Returned ()) /\
    Sync.pipelines w' !! self = Some p' /\
    Sync.Pipeline.streams p' !! "warning" =
      (fun s => Sync.append s r) <$> Sync.Pipeline.streams p !! "warning" /\
    (forall name, name <> "warning" ->
       Sync.Pipeline.streams p' !! name = Sync.Pipeline.streams p !! name).
Proof.
  intros Hid Ht Hp Hr.
  assert (Hb : (forall st reason, body e <> PipelineStateEvent st reason) /\
               (forall st reason, body e <> RunspacePoolStateEvent st reason) /\
               body e <> EncryptedSessionKeyEvent /\ event_ci e = None /\
               Sync.pipeline_registrations self (Sync.message_type e) = [Sync.reg_record self]).
  { unfold Sync.record_of in Hr. unfold event_ci, Sync.message_type.
    destruct (body e); try discriminate Hr; by repeat split. }
  destruct Hb as (H1 & H2 & H3 & Hci & Hreg).
  unfold Sync.listener_step.
  erewrite bind_step by reflexivity. rewrite (s_codec_receive_id e w H1 H2 H3).
  unfold Sync._get_event_registrations. rewrite Hci, Hid.
  unfold mbind, St_mbind, St_bind, gets. simpl. rewrite Ht, Hreg. simpl.
  unfold Sync.run_guarded, Sync.run_registration, Sync.modify_pipeline, modify,
    mbind, St_mbind, St_bind. rewrite Hr. simpl.
  eexists _, _. split; [reflexivity|]. split.
  { destruct w; simpl in *. by rewrite lookup_alter_eq, Hp. }
  destruct p; simpl. split.
  - by rewrite lookup_alter_eq.
  - intros name Hne. by rewrite lookup_alter_ne.
Qed.

Lemma sync_records_go_to_warning_witness :
  exists w' p',
    Sync.listener_step core_any
      (ev (Some 7) (ErrorRecordEvent
         {| Exception := {| Message := "x" |}; FullyQualifiedErrorId := "id";
            CategoryInfo := {| Reason := "r" |} |}))
      (sync_running_world []) = (w', Returned ()) /\
    Sync.pipelines w' !! 0%nat = Some p' /\
    Sync.items <$> Sync.Pipeline.streams p' !! "warning" =
      Some [Sync.rec_error {| Exception := {| Message := "x" |}; FullyQualifiedErrorId := "id";
                              CategoryInfo := {| Reason := "r" |} |}] /\
    Sync.items <$> Sync.Pipeline.streams p' !! "error" = Some [].
Proof.
  epose proof (sync_records_go_to_warning core_any
    (ev (Some 7) (ErrorRecordEvent
         {| Exception := {| Message := "x" |}; FullyQualifiedErrorId := "id";
            CategoryInfo := {| Reason := "r" |} |}))
    7 0%nat (sync_running_world []) _ _ eq_refl eq_refl eq_refl eq_refl)
    as (w' & p' & H1 & H2 & H3 & H4).
  exists w', p'. split; [exact H1|]. split; [exact H2|]. split.
  - rewrite H3. reflexivity.
  - rewrite (H4 "error") by discriminate. reflexivity.
Defined.

(** [disconnect] marks no pipeline as disconnected.  It tells the
    connection and sets the state of the pool; with no pipeline in the
    table it returns, and with a pipeline in the table the assignment to
    the [state] of the first one raises [AttributeError], [state] being a
    property that can only be read. *)
Theorem sync_disconnect_marks_no_pipeline w :
  exists message,
    (Sync.disconnect w).2 =
      (if bool_decide (Sync.RunspacePool.pipeline_table (Sync.pool w) = ∅)
       then Returned () else Raised (Exn "AttributeError" message)) /\
    Sync.pipelines (Sync.disconnect w).1 = Sync.pipelines w /\
    ClientRunspacePool.state (Sync.RunspacePool.pool (Sync.pool (Sync.disconnect w).1)) =
      RunspacePoolState.Disconnected /\
    Sync.effects (Sync.disconnect w).1 = Sync.effects w ++ [Sync.Conn conn_disconnect].
Proof.
  exists "can't set attribute 'state'".
  unfold Sync.disconnect, Sync.modify_pool, Sync.emit, modify, gets, mbind, St_mbind, St_bind.
  destruct w as [[pl h t c] ps ss es n ef ib]. destruct pl. simpl.
  destruct (map_to_list t) as [|kv l] eqn:E; simpl.
  - apply map_to_list_empty_iff in E. by rewrite bool_decide_eq_true_2.
  - rewrite bool_decide_eq_false_2; [done|].
    intros ->. by rewrite map_to_list_empty in E.
Qed.

(** ** [psrp/_sync.py]: [invoke] from the start to the collected output *)

Lemma s_send_inputs_plain core self buffer_input ds : forall w,
  is_Some (Sync.pipelines w !! self) ->
  Forall (fun d => s_will_raise_send w d = false) ds ->
  exists w',
    Sync.send_inputs core self buffer_input ds w = (w', Returned ()) /\
    Sync.pipelines w' = Sync.pipelines w /\
    Sync.stream_store w' = Sync.stream_store w /\
    Sync.event_store w' = Sync.event_store w /\
    Sync.inbox w' = Sync.inbox w /\
    Sync.next_ref w' = Sync.next_ref w /\
    Sync.pool w' = Sync.pool w.
Proof.
  induction ds as [|d ds IH]; intros w [p Hp] Hf.
  { exists w. by repeat split. }
  apply Forall_cons in Hf as [Hd Hf].
  set (w1 := Sync.set_effects
               (Sync.effects w ++ [Sync.Codec (codec_send (Sync.pipeline_id_of p) d)]) w).
  set (w2 := Sync.set_effects
               (Sync.effects w1 ++
                [Sync.Conn (if buffer_input then conn_send true else conn_send_all)]) w1).
  assert (Hs : Sync.send_input core self buffer_input d w = (w2, Returned ())).
  { unfold Sync.send_input, mbind, St_mbind, St_bind, Sync.send_with_retry, try_except.
    rewrite (s_pipeline_send_eq self d w p Hp). cbv zeta. rewrite Hd. reflexivity. }
  assert (H2 : Sync.pipelines w2 = Sync.pipelines w /\ Sync.stream_store w2 = Sync.stream_store w /\
               Sync.event_store w2 = Sync.event_store w /\
               Sync.inbox w2 = Sync.inbox w /\ Sync.next_ref w2 = Sync.next_ref w /\
               Sync.pool w2 = Sync.pool w).
  { subst w2 w1. by destruct w. }
  destruct H2 as (P2 & S2 & E2 & I2 & N2 & L2).
  destruct (IH w2) as (w' & Hi & P' & S' & E' & I' & N' & L').
  { rewrite P2. eauto. }
  { eapply Forall_impl; [exact Hf|]. intros x Hx. rewrite <- Hx.
    unfold s_will_raise_send, s_cipher. by rewrite L2. }
  exists w'. split.
  { simpl. by rewrite (bind_step _ _ _ _ _ Hs). }
  repeat split; congruence.
Qed.

Lemma s_start_and_send_plain core self input_data buffer_input w p :
  Sync.pipelines w !! self = Some p ->
  s_will_raise_start w p = false ->
  Forall (fun d => s_will_raise_send w d = false) (default [] input_data) ->
  exists w0,
    Sync.start_and_send core self input_data buffer_input w = (w0, Returned ()) /\
    Sync.pipelines w0 =
      alter (Sync.Pipeline.set_pipeline
               (ClientPipeline.set_state PSInvocationState.Running
                  (Sync.Pipeline.pipeline p))) self (Sync.pipelines w) /\
    Sync.stream_store w0 = Sync.stream_store w /\
    Sync.event_store w0 = Sync.event_store w /\
    Sync.inbox w0 = Sync.inbox w /\
    Sync.next_ref w0 = Sync.next_ref w /\
    Sync.RunspacePool.pipeline_table (Sync.pool w0) =
      <[Sync.pipeline_id_of p := self]>
        (Sync.RunspacePool.pipeline_table (Sync.pool w)).
Proof.
  intros Hp Hs Hf.
  set (pd := Sync.Pipeline.set_pipeline
               (ClientPipeline.set_state PSInvocationState.Running
                  (Sync.Pipeline.pipeline p)) p).
  set (w1 := Sync.set_effects
               (Sync.effects w ++ [Sync.Codec (codec_start (Sync.pipeline_id_of p))]) w).
  set (w2 := Sync.set_pipelines
               (alter (Sync.Pipeline.set_pipeline
                         (ClientPipeline.set_state PSInvocationState.Running
                            (Sync.Pipeline.pipeline p)))
                      self (Sync.pipelines w1)) w1).
  assert (Hst : Sync.start_with_retry core self w = (w2, Returned ())).
  { unfold Sync.start_with_retry, try_except.
    rewrite (s_pipeline_invoke_eq self w p Hp). cbv zeta. by rewrite Hs. }
  assert (Hp2 : Sync.pipelines w2 !! self = Some pd).
  { subst w2 w1. destruct w; simpl in *. by rewrite lookup_alter_eq, Hp. }
  assert (Hid : Sync.pipeline_id_of pd = Sync.pipeline_id_of p).
  { subst pd. by destruct p as [[] ? ? ? ? ?]. }
  set (w3 := Sync.set_pool
               (Sync.RunspacePool.set_pipeline_table
                  (<[Sync.pipeline_id_of pd := self]>
                     (Sync.RunspacePool.pipeline_table (Sync.pool w2)))
                  (Sync.pool w2)) w2).
  set (w4 := Sync.set_effects
               (Sync.effects w3 ++ [Sync.Conn (conn_command (Sync.pipeline_id_of pd))]) w3).
  set (w5 := Sync.set_effects (Sync.effects w4 ++ [Sync.Conn conn_send_all]) w4).
  assert (H5 : Sync.pipelines w5 = Sync.pipelines w2 /\
               Sync.stream_store w5 = Sync.stream_store w /\
               Sync.event_store w5 = Sync.event_store w /\
               Sync.inbox w5 = Sync.inbox w /\
               Sync.next_ref w5 = Sync.next_ref w /\
               Sync.RunspacePool.pipeline_table (Sync.pool w5) =
                 <[Sync.pipeline_id_of p := self]>
                   (Sync.RunspacePool.pipeline_table (Sync.pool w)) /\
               s_cipher w5 = s_cipher w).
  { rewrite <- Hid. subst w5 w4 w3 w2 w1. by destruct w as [[] ? ? ? ? ? ?]. }
  destruct H5 as (P5 & S5 & E5 & I5 & N5 & T5 & C5).
  assert (P2 : Sync.pipelines w2 =
               alter (Sync.Pipeline.set_pipeline
                        (ClientPipeline.set_state PSInvocationState.Running
                           (Sync.Pipeline.pipeline p))) self (Sync.pipelines w)).
  { subst w2 w1. by destruct w. }
  assert (Hhead : forall k : Sync.Pipeline.t -> Sync.M unit,
            (Sync.start_with_retry core self;;
             q ← Sync.get_pipeline self;
             Sync.modify_pool (fun pl => Sync.RunspacePool.set_pipeline_table
               (<[Sync.pipeline_id_of q := self]>
                  (Sync.RunspacePool.pipeline_table pl)) pl);;
             Sync.emit [Sync.Conn (conn_command (Sync.pipeline_id_of q))];;
             Sync.emit [Sync.Conn conn_send_all];;
             k q) w = k pd w5).
  { intros k. rewrite (bind_step _ _ _ _ _ Hst).
    unfold Sync.get_pipeline at 1. unfold mbind at 1, St_mbind, St_bind. rewrite Hp2.
    reflexivity. }
  destruct input_data as [ds|]; simpl in Hf.
  - destruct (s_send_inputs_plain core self buffer_input ds w5)
      as (w6 & Hsi & P6 & S6 & E6 & I6 & N6 & L6).
    { rewrite P5, Hp2. eauto. }
    { eapply Forall_impl; [exact Hf|]. intros x Hx. rewrite <- Hx.
      unfold s_will_raise_send. by rewrite C5. }
    eexists. split.
    { etrans; [exact (Hhead (fun q =>
        Sync.send_inputs core self buffer_input ds;;
        Sync.emit [Sync.Codec (codec_send_eof (Sync.pipeline_id_of q))];;
        Sync.emit [Sync.Conn conn_send_all]))|].
      rewrite (bind_step _ _ _ _ _ Hsi). reflexivity. }
    rewrite <- T5, <- I5, <- S5, <- E5, <- N5, <- P2, <- P5, <- P6, <- S6, <- E6, <- I6, <- N6, <- L6.
    by destruct w6 as [[] ? ? ? ? ? ?].
  - exists w5. split; [exact (Hhead (fun _ => mret ()))|].
    rewrite <- P2. done.
Qed.

Lemma s_invoke_async_collecting core self input_data buffer_input w p :
  Sync.pipelines w !! self = Some p ->
  s_will_raise_start w p = false ->
  Forall (fun d => s_will_raise_send w d = false) (default [] input_data) ->
  exists w0,
    Sync.invoke_async core self input_data None None buffer_input w =
      (w0, Returned {| Sync.task_completed := S (Sync.next_ref w);
                       Sync.task_output_stream := Some (Sync.next_ref w) |}) /\
    s_collecting self (Sync.pipeline_id_of p) (Sync.next_ref w) (S (Sync.next_ref w)) [] w0 /\
    Sync.inbox w0 = Sync.inbox w.
Proof.
  intros Hp Hs Hf.
  set (r := Sync.next_ref w).
  set (pa := Sync.Pipeline.set__completed (Some (S r))
               (Sync.Pipeline.set__output_stream (Some r)
                  (Sync.Pipeline.set_pipeline
                     (ClientPipeline.set_no_input (if input_data is None then true else false)
                        (Sync.Pipeline.pipeline p)) p))).
  assert (Hnt : exists wa,
            (Sync.modify_pipeline self (fun p =>
               Sync.Pipeline.set_pipeline
                 (ClientPipeline.set_no_input (if input_data is None then true else false)
                    (Sync.Pipeline.pipeline p)) p);;
             Sync._new_task self None None false) w =
              (wa, Returned {| Sync.task_completed := S r;
                               Sync.task_output_stream := Some r |}) /\
            Sync.pipelines wa !! self = Some pa /\
            Sync.stream_store wa !! r = Some Sync.PSDataStream_new /\
            Sync.event_store wa !! S r = Some false /\
            Sync.inbox wa = Sync.inbox w /\ s_cipher wa = s_cipher w).
  { clear Hs Hf. subst pa r. destruct w as [? ps ? ? ? ? ?]; simpl in *.
    eexists. split.
    { unfold Sync._new_task, Sync.modify_pipeline, Sync.new_stream, Sync.new_event,
        modify, gets, mbind, St_mbind, St_bind. cbn. reflexivity. }
    simpl. rewrite !lookup_alter_eq, Hp. simpl. rewrite !lookup_insert_eq. done. }
  destruct Hnt as (wa & Hnt & Hpa & Hsa & Hea & Hia & Hca).
  destruct (s_start_and_send_plain core self input_data buffer_input wa pa Hpa)
    as (w0 & Hss & Hp0 & Hs0 & He0 & Hi0 & Hn0 & Ht0).
  { rewrite <- Hs. unfold s_will_raise_start. rewrite Hca. f_equal.
    subst pa. by destruct p as [[] ? ? ? ? ?]. }
  { eapply Forall_impl; [exact Hf|]. intros x Hx. rewrite <- Hx.
    unfold s_will_raise_send. by rewrite Hca. }
  assert (Hida : Sync.pipeline_id_of pa = Sync.pipeline_id_of p).
  { subst pa. by destruct p as [[] ? ? ? ? ?]. }
  exists w0. split; [|split; [|congruence]].
  - unfold Sync.invoke_async, Sync.Pipeline_invoke_async.
    change (((Sync.modify_pipeline self (fun p =>
               Sync.Pipeline.set_pipeline
                 (ClientPipeline.set_no_input (if input_data is None then true else false)
                    (Sync.Pipeline.pipeline p)) p);;
              Sync._new_task self None None false) ≫= fun task =>
             Sync.start_and_send core self input_data buffer_input;; mret task) w = 
            (w0, Returned {| Sync.task_completed := S r; Sync.task_output_stream := Some r |})).
    rewrite (bind_step _ _ _ _ _ Hnt). by rewrite (bind_step _ _ _ _ _ Hss).
  - split; [by rewrite Ht0, Hida, lookup_insert_eq|].
    split; [by rewrite He0|]. split; [by rewrite Hs0|].
    eexists. split; [by rewrite Hp0, lookup_alter_eq, Hpa|].
    subst pa. by destruct p as [[] ? ? ? ? ?].
Qed.



(** An output event of a collecting pipeline: the object is appended to
    the output stream of the task. *)
Lemma s_listener_output core self pid r c out d w :
  s_collecting self pid r c out w ->
  exists w',
    Sync.listener_step core (ev (Some pid) (PipelineOutputEvent d)) w = (w', Returned ()) /\
    s_collecting self pid r c (out ++ [Sync.rec_value d]) w' /\
    Sync.inbox w' = Sync.inbox w.
Proof.
  intros (Ht & He & Hs & p & Hp & Hid & Ho & Hc).
  unfold Sync.listener_step.
  erewrite bind_step by reflexivity.
  rewrite s_codec_receive_id by (intros; discriminate).
  unfold Sync._get_event_registrations. simpl.
  unfold mbind, St_mbind, St_bind, gets. simpl. rewrite Ht. simpl.
  unfold Sync.run_guarded, Sync.run_registration, Sync.get_pipeline, Sync.modify_stream,
    modify, mbind, St_mbind, St_bind. rewrite Hp, Ho. simpl.
  eexists. split; [reflexivity|]. split; [|by destruct w].
  split; [by destruct w|]. split; [by destruct w|]. split.
  { destruct w; simpl in *. rewrite lookup_alter_eq, Hs. simpl. f_equal.
    unfold s_append_all. by rewrite foldl_app. }
  exists p. by destruct w.
Qed.

Lemma s_codec_receive_state pid st reason self w :
  Sync.RunspacePool.pipeline_table (Sync.pool w) !! pid = Some self ->
  Sync.codec_receive (ev (Some pid) (PipelineStateEvent st reason)) w =
    Sync.set_pipelines
      (alter (fun p => Sync.Pipeline.set_pipeline
                         (ClientPipeline.set_state st (Sync.Pipeline.pipeline p)) p)
             self (Sync.pipelines w)) w.
Proof.
  intros Ht. unfold Sync.codec_receive. destruct w as [[] ? ? ? ? ? ?]; simpl in *.
  by rewrite Ht.
Qed.

Lemma s_close_tabled self w p :
  Sync.pipelines w !! self = Some p ->
  Sync.RunspacePool.pipeline_table (Sync.pool w) !! Sync.pipeline_id_of p = Some self ->
  exists w',
    Sync.close self w = (w', Returned ()) /\
    Sync.pipelines w' = Sync.pipelines w /\
    Sync.stream_store w' = Sync.stream_store w /\
    Sync.event_store w' = Sync.event_store w /\
    Sync.inbox w' = Sync.inbox w.
Proof.
  intros Hp Ht.
  unfold Sync.close, Sync.get_pipeline, Sync.emit, Sync.modify_pool, modify, gets,
    mbind, St_mbind, St_bind.
  rewrite Hp. simpl. rewrite Ht, Hp.
  destruct (decide _); eexists; (split; [reflexivity|]); by destruct w.
Qed.

(** The first state event of a collecting pipeline, whatever the state:
    the output stream is finalized and the event of the task is set. *)
Lemma s_listener_state core self pid r c out st reason w :
  s_collecting self pid r c out w ->
  exists w',
    Sync.listener_step core (ev (Some pid) (PipelineStateEvent st reason)) w
      = (w', Returned ()) /\
    Sync.event_is_set c w' = true /\
    Sync.stream_store w' !! r =
      Some (Sync.finalize (s_append_all Sync.PSDataStream_new out)) /\
    Sync.inbox w' = Sync.inbox w.
Proof.
  intros (Ht & He & Hs & p & Hp & Hid & Ho & Hc).
  unfold Sync.listener_step.
  erewrite bind_step by reflexivity.
  rewrite (s_codec_receive_state pid st reason self w Ht).
  set (p0 := Sync.Pipeline.set_pipeline
               (ClientPipeline.set_state st (Sync.Pipeline.pipeline p)) p).
  set (w0 := Sync.set_pipelines _ w).
  assert (Hp0 : Sync.pipelines w0 !! self = Some p0).
  { subst w0. destruct w; simpl in *. by rewrite lookup_alter_eq, Hp. }
  assert (H0 : Sync.RunspacePool.pipeline_table (Sync.pool w0) !! Sync.pipeline_id_of p0
                 = Some self /\
               Sync.stream_store w0 = Sync.stream_store w /\
               Sync.event_store w0 = Sync.event_store w /\ Sync.inbox w0 = Sync.inbox w).
  { replace (Sync.pipeline_id_of p0) with pid
      by (rewrite <- Hid; subst p0; by destruct p as [[] ? ? ? ? ?]).
    subst w0. by destruct w. }
  destruct H0 as (Ht0 & Hs0 & He0 & Hi0).
  destruct (s_close_tabled self w0 p0 Hp0 Ht0) as (w1 & Hcl & Hp1 & Hs1 & He1 & Hi1).
  assert (Htab : Sync.RunspacePool.pipeline_table (Sync.pool w0) !! pid = Some self).
  { subst w0. by destruct w. }
  unfold Sync._get_event_registrations. simpl.
  unfold mbind at 1 2 3, St_mbind, St_bind, gets. simpl. rewrite Htab. simpl.
  unfold Sync.run_guarded, Sync.run_registration, Sync._on_state, try_finally.
  unfold mbind at 1, St_mbind, St_bind. rewrite Hcl.
  rewrite <- Hp1 in Hp0. rewrite <- Hs0, <- Hs1 in Hs. rewrite <- He0, <- He1 in He.
  rewrite <- Hi0, <- Hi1.
  clear Hcl Hs0 He0 Hs1 He1 Ht0 Htab Hp1 Ht Hp Hi0 Hi1. clearbody w0. clear w0.
  assert (Hf : Sync.Pipeline._output_stream p0 = Some r /\
               Sync.Pipeline._completed p0 = Some c).
  { subst p0. by destruct p. }
  destruct Hf as (Ho0 & Hc0). clearbody p0. clear Ho Hc Hid p.
  unfold Sync.modify_pipeline, Sync.get_pipeline, Sync.modify_stream, Sync.event_set,
    modify, mbind, St_mbind, St_bind.
  destruct w1 as [pl ps ss es n ef ib]; simpl in *.
  rewrite lookup_alter_eq, Hp0. simpl.
  destruct p0 as [cp h sm o cm cs]; simpl in *. subst o cm. simpl.
  destruct cs as [ev'|]; simpl.
  - eexists. split; [reflexivity|]. unfold Sync.event_is_set. simpl.
    split; [|by rewrite lookup_alter_eq, Hs].
    destruct (decide (ev' = c)) as [->|Hne].
    + by rewrite lookup_insert_eq.
    + by rewrite lookup_insert_ne, lookup_insert_eq.
  - eexists. split; [reflexivity|]. unfold Sync.event_is_set. simpl.
    split; [by rewrite lookup_insert_eq | by rewrite lookup_alter_eq, Hs].
Qed.

(** The wait of the task of a collecting pipeline. *)
Lemma s_wait_collects core self pid r c st reason rest : forall ds out w,
  s_collecting self pid r c out w ->
  exists w',
    Sync.event_wait_loop core c
      (output_events pid ds ++ ev (Some pid) (PipelineStateEvent st reason) :: rest) w
      = (w', Returned ()) /\
    Sync.inbox w' = rest /\
    Sync.stream_store w' !! r =
      Some (Sync.finalize (s_append_all Sync.PSDataStream_new (out ++ map Sync.rec_value ds))).
Proof.
  induction ds as [|d ds IH]; intros out w Hc.
  - destruct (s_listener_state core self pid r c out st reason w Hc) as (w1 & Hl & He & Hs & _).
    destruct Hc as (_ & Hc & _).
    exists (Sync.set_inbox rest w1). rewrite app_nil_r. simpl.
    unfold Sync.event_is_set at 1. rewrite Hc, Hl. split.
    { destruct rest; simpl; rewrite He; reflexivity. }
    by destruct w1.
  - destruct (s_listener_output core self pid r c out d w Hc) as (w1 & Hl & Hc1 & _).
    destruct (IH (out ++ [Sync.rec_value d]) w1 Hc1) as (w' & Ha & H).
    exists w'. rewrite <- app_assoc in H. split; [|exact H].
    destruct Hc as (_ & Hc & _). simpl.
    unfold Sync.event_is_set at 1. rewrite Hc, Hl. exact Ha.
Qed.

(** [invoke] without an output stream, from the start to the result: when
    the codec takes the commands and the input without a session key, and
    the peer then sends output events of the pipeline and a state event,
    the call returns the stream it made, and iterating the stream gives
    the objects of the output events in the order of their arrival and
    ends.  The wait ends at the first state event, whatever the state it
    reports, and what the peer sent after it is not read. *)
Theorem sync_invoke_collects_output core self input_data buffer_input w p ds st reason rest :
  Sync.pipelines w !! self = Some p ->
  s_will_raise_start w p = false ->
  Forall (fun d => s_will_raise_send w d = false) (default [] input_data) ->
  Sync.inbox w =
    output_events (Sync.pipeline_id_of p) ds ++
    ev (Some (Sync.pipeline_id_of p)) (PipelineStateEvent st reason) :: rest ->
  exists w' s,
    Sync.invoke core self input_data None buffer_input w =
      (w', Returned (Some (Sync.next_ref w))) /\
    Sync.inbox w' = rest /\
    Sync.stream_store w' !! Sync.next_ref w = Some s /\
    (Sync.for_each s).1.2 = map (fun d => Some (Sync.rec_value d)) ds /\
    (Sync.for_each s).2 = Returned ().
Proof.
  intros Hp Hs Hf Hi.
  destruct (s_invoke_async_collecting core self input_data buffer_input w p Hp Hs Hf)
    as (w0 & Hia & Hc & Hi0).
  destruct (s_wait_collects core self _ _ _ st reason rest ds [] w0 Hc)
    as (w1 & Ha & Hi1 & Hs1).
  rewrite <- Hi, <- Hi0 in Ha.
  change (Sync.event_wait core (S (Sync.next_ref w)) w0 = (w1, Returned ())) in Ha.
  exists w1, (Sync.finalize (s_append_all Sync.PSDataStream_new (map Sync.rec_value ds))).
  split; [|split; [done|split; [done|]]].
  - unfold Sync.invoke. rewrite (bind_step _ _ _ _ _ Hia).
    unfold Sync.PipelineTask_wait. simpl. by rewrite (bind_step _ _ _ _ _ Ha).
  - destruct (for_each_appended (map Sync.rec_value ds) [])
      as (H1 & H2 & _).
    simpl in H1, H2. rewrite H1, H2. by rewrite map_map.
Qed.

Lemma sync_invoke_collects_output_witness :
  exists w' s,
    Sync.invoke core_any 0 (Some [VInt 1]) None true
      (sync_pipeline_world None
         (output_events 7 [VStr "a"; VStr "b"] ++
          [ev (Some 7) (PipelineStateEvent PSInvocationState.Running None);
           ev None EncryptedSessionKeyEvent]))
      = (w', Returned (Some 1%nat)) /\
    Sync.inbox w' = [ev None EncryptedSessionKeyEvent] /\
    Sync.stream_store w' !! 1%nat = Some s /\
    (Sync.for_each s).1.2 = [Some (Sync.rec_value (VStr "a")); Some (Sync.rec_value (VStr "b"))] /\
    (Sync.for_each s).2 = Returned ().
Proof.
  epose proof (sync_invoke_collects_output core_any 0 (Some [VInt 1]) true
           (sync_pipeline_world None
              (output_events 7 [VStr "a"; VStr "b"] ++
               [ev (Some 7) (PipelineStateEvent PSInvocationState.Running None);
                ev None EncryptedSessionKeyEvent]))
           _ [VStr "a"; VStr "b"] PSInvocationState.Running None
           [ev None EncryptedSessionKeyEvent]
           eq_refl eq_refl _ eq_refl) as H.
  exact H.
  Unshelve.
  repeat constructor.
Defined.

(** ** [psrp/_sync.py]: the operations that wait for an answer *)

(** An event of the pool itself: the listener enters it in the table of
    call ids when it has one, and notifies the condition. *)
Lemma s_listener_pool_event core e w :
  pipeline_id e = None ->
  Sync.listener_step core e w =
    (let w1 := Sync.codec_receive e w in
     match event_ci e with
     | Some ci =>
         Sync.set_pool (Sync.RunspacePool.set__ci_table
           (<[ci := e]> (Sync.RunspacePool._ci_table (Sync.pool w1))) (Sync.pool w1)) w1
     | None => w1
     end, Returned ()).
Proof.
  intros Hp. unfold Sync.listener_step, Sync._get_event_registrations.
  erewrite bind_step by reflexivity. rewrite Hp. cbv zeta.
  destruct (event_ci e); reflexivity.
Qed.

(** The key exchange with the answer of the peer next in line. *)
Lemma s_exchange_key_with_key core w rest :
  Sync.inbox w = ev None EncryptedSessionKeyEvent :: rest ->
  exists w',
    Sync.exchange_key core w = (w', Returned ()) /\
    s_cipher w' = true /\
    Sync.inbox w' = rest.
Proof.
  intros Hi. unfold Sync.exchange_key, Sync._send_and_wait_for.
  erewrite bind_step by reflexivity. erewrite bind_step by reflexivity.
  set (w2 := Sync.set_effects _ _).
  assert (Hi2 : Sync.inbox w2 = ev None EncryptedSessionKeyEvent :: rest).
  { rewrite <- Hi. subst w2. by destruct w. }
  rewrite Hi2. cbn [Sync.wait_for_loop andb].
  rewrite (s_listener_pool_event core (ev None EncryptedSessionKeyEvent) w2 eq_refl). cbn zeta. cbn [event_ci body ev].
  set (w3 := Sync.codec_receive _ w2).
  exists (Sync.set_inbox rest w3). split.
  { destruct rest; reflexivity. }
  split; [|by destruct w3].
  subst w3. unfold Sync.codec_receive, s_cipher. by destruct w2 as [[[] ? ? ? ?] ? ? ? ? ? ?].
Qed.

(** [exchange_key] returns with the session key: when the
    [EncryptedSessionKey] event is the next event of the peer, the call
    returns, the codec has the key, and the later events stay unread. *)
Theorem sync_exchange_key_returns_with_key core w rest :
  Sync.inbox w = ev None EncryptedSessionKeyEvent :: rest ->
  exists w',
    Sync.exchange_key core w = (w', Returned ()) /\
    s_cipher w' = true /\
    Sync.inbox w' = rest.
Proof. apply s_exchange_key_with_key. Qed.

Lemma sync_exchange_key_returns_with_key_witness :
  exists w',
    Sync.exchange_key core_any
      (sync_world None [ev None EncryptedSessionKeyEvent; ev None SessionCapabilityEvent])
      = (w', Returned ()) /\
    s_cipher w' = true /\
    Sync.inbox w' = [ev None SessionCapabilityEvent].
Proof.
  apply (sync_exchange_key_returns_with_key core_any (sync_world None _)). reflexivity.
Defined.

(** An availability operation whose message the codec gives a call id
    that is not in the table of call ids returns the flag of the answer:
    when the [SetRunspaceAvailability] event with this call id is the
    next event of the peer, the operation returns its [success], takes
    the event out of the table, and leaves the later events unread. *)
Theorem sync_availability_returns_answer core codec_call w ci success rest :
  (codec_call (Sync.RunspacePool.pool (Sync.pool w))).2 = Some ci ->
  Sync.RunspacePool._ci_table (Sync.pool w) !! ci = None ->
  Sync.inbox w = ev None (SetRunspaceAvailabilityEvent ci success) :: rest ->
  exists w',
    Sync.set_runspace_availability core codec_call w = (w', Returned success) /\
    Sync.inbox w' = rest /\
    Sync.RunspacePool._ci_table (Sync.pool w') !! ci = None.
Proof.
  intros Hci Ht Hi.
  set (e := ev None (SetRunspaceAvailabilityEvent ci success)) in *.
  set (w1 := Sync.set_pool
               (Sync.RunspacePool.set_pool
                  (codec_call (Sync.RunspacePool.pool (Sync.pool w))).1 (Sync.pool w)) w).
  set (w2 := Sync.set_effects (Sync.effects w1 ++ [Sync.Conn conn_send_all]) w1).
  assert (H2 : Sync.inbox w2 = e :: rest /\
               Sync.RunspacePool._ci_table (Sync.pool w2) !! ci = None).
  { rewrite <- Hi, <- Ht. subst w2 w1. by destruct w as [[] ? ? ? ? ? ?]. }
  destruct H2 as (Hi2 & Ht2).
  assert (Hw : exists w4,
            Sync.wait_for_loop core Sync.mt_RunspaceAvailability (Sync.in_ci_table ci) true
              (e :: rest) w2 = (w4, Returned ()) /\
            Sync.inbox w4 = rest /\
            Sync.RunspacePool._ci_table (Sync.pool w4) =
              <[ci := e]> (Sync.RunspacePool._ci_table (Sync.pool w2))).
  { cbn [Sync.wait_for_loop andb].
    assert (Hn : Sync.in_ci_table ci w2 = false).
    { unfold Sync.in_ci_table. rewrite Ht2. apply bool_decide_eq_false_2. by intros []. }
    rewrite Hn. rewrite (s_listener_pool_event core e w2 eq_refl). cbn zeta.
    change (event_ci e) with (Some ci).
    rewrite (s_codec_receive_id e w2) by (intros; discriminate).
    set (w3 := Sync.set_pool _ w2).
    assert (Hy : Sync.in_ci_table ci w3 = true).
    { unfold Sync.in_ci_table. apply bool_decide_eq_true_2.
      subst w3. destruct w2 as [[] ? ? ? ? ? ?]; simpl. rewrite lookup_insert_eq. eauto. }
    exists (Sync.set_inbox rest w3). split.
    { change (Sync.notifies Sync.mt_RunspaceAvailability e) with true.
      destruct rest; simpl; rewrite Hy; reflexivity. }
    subst w3. by destruct w2 as [[] ? ? ? ? ? ?]. }
  destruct Hw as (w4 & Hw & Hi4 & Ht4).
  assert (Hs : Sync._send_and_wait_for core Sync.mt_RunspaceAvailability
                 (Some (Sync.in_ci_table ci)) w1 = (w4, Returned ())).
  { unfold Sync._send_and_wait_for. erewrite bind_step by reflexivity. fold w2.
    by rewrite Hi2. }
  eexists. split.
  { unfold Sync.set_runspace_availability.
    erewrite bind_step by reflexivity. erewrite bind_step by reflexivity.
    rewrite Hci. fold w1.
    unfold Sync._validate_runspace_availability.
    rewrite (bind_step _ _ _ _ _ Hs).
    erewrite bind_step by reflexivity. rewrite Ht4, lookup_insert_eq.
    erewrite bind_step by reflexivity. reflexivity. }
  destruct w4 as [[] ? ? ? ? ? ?]; simpl in *. split; [done|]. apply lookup_delete_eq.
Qed.

Lemma sync_availability_returns_answer_witness :
  exists w',
    Sync.set_runspace_availability core_any (fun p => (p, Some 4))
      (sync_world None
         [ev None (SetRunspaceAvailabilityEvent 4 false); ev None EncryptedSessionKeyEvent])
      = (w', Returned false) /\
    Sync.inbox w' = [ev None EncryptedSessionKeyEvent] /\
    Sync.RunspacePool._ci_table (Sync.pool w') !! 4 = None.
Proof.
  apply (sync_availability_returns_answer core_any (fun p => (p, Some 4))
           (sync_world None _) 4 false); reflexivity.
Defined.

(** An output stream of the caller that is empty counts as none
    ([if not output_stream]): [invoke] makes a stream of its own and
    returns it, as it does without the argument, and the stream of the
    caller gets nothing. *)
Theorem sync_empty_output_stream_is_ignored core self input_data buffer_input r s w :
  Sync.stream_store w !! r = Some s ->
  Sync.items s = [] ->
  Sync.invoke core self input_data (Some r) buffer_input w =
    Sync.invoke core self input_data None buffer_input w.
Proof.
  intros Hs Hi.
  unfold Sync.invoke, Sync.invoke_async, Sync.Pipeline_invoke_async.
  assert (H : forall w0, Sync.stream_store w0 = Sync.stream_store w ->
            Sync._new_task self (Some r) None false w0 = Sync._new_task self None None false w0).
  { intros w0 H0. unfold Sync._new_task, mbind at 1 3, St_mbind, St_bind, gets.
    rewrite H0, Hs, Hi. reflexivity. }
  unfold mbind at 1 3 4 6, St_mbind, St_bind, Sync.modify_pipeline, modify.
  unfold mbind at 1 3, St_mbind, St_bind.
  rewrite H by by destruct w. reflexivity.
Qed.

Lemma sync_empty_output_stream_is_ignored_witness :
  Sync.invoke core_any 0 None (Some 1%nat) true
    ((Sync.new_stream (sync_pipeline_world None [])).1) =
  Sync.invoke core_any 0 None None true ((Sync.new_stream (sync_pipeline_world None [])).1).
Proof.
  apply (sync_empty_output_stream_is_ignored core_any 0 None true 1%nat Sync.PSDataStream_new);
    reflexivity.
Defined.

(** An event for a pipeline that has been closed ends the listener:
    [close] takes the pipeline out of the table, and the lookup of the
    pipeline of the event raises [KeyError] before any callback runs,
    outside the [try] of the loop.  The pipelines and the streams are as
    they were. *)
Theorem sync_event_after_close_raises core self w p e :
  Sync.pipelines w !! self = Some p ->
  Sync.RunspacePool.pipeline_table (Sync.pool w) !! Sync.pipeline_id_of p = Some self ->
  Sync.state p <> PSInvocationState.Disconnected ->
  pipeline_id e = Some (Sync.pipeline_id_of p) ->
  exists w1 w2,
    Sync.close self w = (w1, Returned ()) /\
    Sync.listener_step core e w1 = (w2, Raised (Exn "KeyError" "pipeline_id")) /\
    Sync.pipelines w2 = Sync.pipelines w /\
    Sync.stream_store w2 = Sync.stream_store w.
Proof.
  intros Hp Ht Hst He.
  set (w1 := Sync.set_pool
               (Sync.RunspacePool.set_pipeline_table
                  (delete (Sync.pipeline_id_of p)
                     (Sync.RunspacePool.pipeline_table (Sync.pool w))) (Sync.pool w))
               (Sync.set_effects
                  (Sync.effects w ++ [Sync.Conn (conn_close (Some (Sync.pipeline_id_of p)))]) w)).
  assert (Hc : Sync.close self w = (w1, Returned ())).
  { unfold Sync.close, Sync.get_pipeline, Sync.emit, Sync.modify_pool, modify, gets,
      mbind, St_mbind, St_bind.
    rewrite Hp. simpl. rewrite Ht, Hp.
    destruct (decide _) as [Hd|Hd]; [done|]. subst w1. by destruct w. }
  assert (H1 : Sync.RunspacePool.pipeline_table (Sync.pool w1) !! Sync.pipeline_id_of p = None /\
               Sync.pipelines w1 = Sync.pipelines w /\
               Sync.stream_store w1 = Sync.stream_store w).
  { subst w1. destruct w as [[] ? ? ? ? ? ?]; simpl. by rewrite lookup_delete_eq. }
  destruct H1 as (Ht1 & Hp1 & Hs1).
  set (w2 := Sync.codec_receive e w1).
  assert (H2 : Sync.RunspacePool.pipeline_table (Sync.pool w2) !! Sync.pipeline_id_of p = None /\
               Sync.pipelines w2 = Sync.pipelines w /\
               Sync.stream_store w2 = Sync.stream_store w).
  { rewrite <- Hp1, <- Hs1. subst w2. unfold Sync.codec_receive. rewrite He. simpl.
    clearbody w1. destruct w1 as [[] ? ? ? ? ? ?]; simpl in *. rewrite Ht1. done. }
  destruct H2 as (Ht2 & Hp2 & Hs2).
  assert (Hg : exists w3,
            Sync._get_event_registrations e w2 = (w3, Raised (Exn "KeyError" "pipeline_id")) /\
            Sync.pipelines w3 = Sync.pipelines w /\
            Sync.stream_store w3 = Sync.stream_store w).
  { unfold Sync._get_event_registrations. rewrite He.
    destruct (event_ci e) as [ci|].
    - erewrite bind_step by reflexivity. erewrite bind_step by reflexivity.
      replace (Sync.RunspacePool.pipeline_table (Sync.pool (Sync.set_pool _ w2)))
        with (Sync.RunspacePool.pipeline_table (Sync.pool w2))
        by (by destruct w2 as [[] ? ? ? ? ? ?]).
      rewrite Ht2. eexists. split; [reflexivity|]. by destruct w2 as [[] ? ? ? ? ? ?].
    - erewrite bind_step by reflexivity. erewrite bind_step by reflexivity.
      rewrite Ht2. eexists. split; [reflexivity|]. done. }
  destruct Hg as (w3 & Hg & Hp3 & Hs3).
  exists w1, w3. split; [exact Hc|]. split; [|done].
  unfold Sync.listener_step. erewrite bind_step by reflexivity. fold w2.
  unfold mbind, St_mbind, St_bind. by rewrite Hg.
Qed.

Lemma sync_event_after_close_raises_witness :
  exists w1 w2,
    Sync.close 0 (sync_running_world []) = (w1, Returned ()) /\
    Sync.listener_step core_any (ev (Some 7) (PipelineOutputEvent (VInt 1))) w1
      = (w2, Raised (Exn "KeyError" "pipeline_id")) /\
    Sync.pipelines w2 = Sync.pipelines (sync_running_world []) /\
    Sync.stream_store w2 = Sync.stream_store (sync_running_world []).
Proof.
  eapply (sync_event_after_close_raises core_any 0 (sync_running_world []) _
            (ev (Some 7) (PipelineOutputEvent (VInt 1)))).
  - reflexivity.
  - reflexivity.
  - discriminate.
  - reflexivity.
Defined.

(** ** C7: the missing session key *)





















